(** * Alert evaluation engine of the weather alert system

    A shallow embedding of [src/alerts.py] (class [AlertChecker]) and the
    properties of its quiet-hours gate, condition evaluator, cooldown
    bookkeeping and configuration reload.

    Python objects are embedded as the JSON-shaped values the program
    receives from [json.load] and from the weather API; Python exceptions
    are explicit outcomes; the attributes of the checker, the wall clock
    and the logger form an explicit state that every method threads. *)

From Stdlib Require Import ZArith List Bool Ascii String Lia.
From Stdlib Require Import Floats.SpecFloat.
From Stdlib Require Import DecimalString.
From stdpp Require Import base option gmap strings.

Set Warnings "-register-all".

Local Open Scope string_scope.
Local Open Scope Z_scope.

(** ** Python values *)

Module Py.

(** The values [json.load] produces, which are also the values a weather
    snapshot is built from.  Floats are IEEE binary64 numbers in the
    Standard Library's specification format; a dict keeps its items in
    insertion order and its keys are strings. *)
Inductive pyval : Type :=
| VNone
| VBool (b : bool)
| VInt (n : Z)
| VFloat (f : spec_float)
| VStr (s : string)
| VList (l : list pyval)
| VDict (d : list (string * pyval)).

(** The exception classes the engine can meet. *)
Inductive exn : Type :=
| TypeError
| KeyError
| AttributeError
| ValueError
| OverflowError
| FileNotFoundError
| JSONDecodeError.

(** The result of evaluating a Python expression. *)
Inductive outcome (A : Type) : Type :=
| Normal (a : A)
| Raise (e : exn).
Arguments Normal {A} a.
Arguments Raise {A} e.

Definition obind {A B} (o : outcome A) (k : A -> outcome B) : outcome B :=
  match o with
  | Normal a => k a
  | Raise e => Raise e
  end.

Definition prec : Z := 53.
Definition emax : Z := 1024.

(** *** Numbers: [bool] is a subclass of [int]; [int] is unbounded *)

Inductive num : Type :=
| NInt (n : Z)
| NFloat (f : spec_float).

Definition as_num (v : pyval) : option num :=
  match v with
  | VBool b => Some (NInt (Z.b2z b))
  | VInt n => Some (NInt n)
  | VFloat f => Some (NFloat f)
  | _ => None
  end.

(** Python compares an [int] with a [float] by value, without rounding the
    [int]: the finite float [(-1)^s * m * 2^e] is compared with [n] over the
    integers after scaling by the power of two. *)
Definition int_float_compare (n : Z) (f : spec_float) : option comparison :=
  match f with
  | S754_nan => None
  | S754_infinity s => Some (if s then Gt else Lt)
  | S754_zero _ => Some (n ?= 0)
  | S754_finite s m e =>
      Some (if 0 <=? e
            then n ?= cond_Zopp s (Z.pos m * 2 ^ e)
            else n * 2 ^ (- e) ?= cond_Zopp s (Z.pos m))
  end.

(** Three-way comparison of two numbers; [None] when a NaN is involved, in
    which case [<], [>] and [==] are all false. *)
Definition num_compare (x y : num) : option comparison :=
  match x, y with
  | NInt a, NInt b => Some (a ?= b)
  | NFloat a, NFloat b => SFcompare a b
  | NInt a, NFloat b => int_float_compare a b
  | NFloat a, NInt b => option_map CompOpp (int_float_compare b a)
  end.

(** [float(n)]: round to nearest even; an [int] beyond the float range
    raises [OverflowError]. *)
Definition int_to_float (n : Z) : outcome spec_float :=
  match binary_normalize prec emax n 0 false with
  | S754_infinity _ => Raise OverflowError
  | f => Normal f
  end.

Definition num_add (x y : num) : outcome pyval :=
  match x, y with
  | NInt a, NInt b => Normal (VInt (a + b))
  | NFloat a, NFloat b => Normal (VFloat (SFadd prec emax a b))
  | NInt a, NFloat b =>
      obind (int_to_float a) (fun fa => Normal (VFloat (SFadd prec emax fa b)))
  | NFloat a, NInt b =>
      obind (int_to_float b) (fun fb => Normal (VFloat (SFadd prec emax a fb)))
  end.

(** *** Dict access *)

Fixpoint assoc (k : string) (d : list (string * pyval)) : option pyval :=
  match d with
  | [] => None
  | (k', v) :: d' => if String.eqb k k' then Some v else assoc k d'
  end.

(** The item of a dict under [key], or [default]. *)
Definition item (d : list (string * pyval)) (key : string) (default : pyval) : pyval :=
  match assoc key d with
  | Some v => v
  | None => default
  end.

(** [obj.get(key, default)]: only a dict has the method. *)
Definition get (obj : pyval) (key : string) (default : pyval) : outcome pyval :=
  match obj with
  | VDict d => Normal (item d key default)
  | _ => Raise AttributeError
  end.

(** [obj.get(key)]: the default is [None]. *)
Definition get1 (obj : pyval) (key : string) : outcome pyval :=
  get obj key VNone.

(** *** Equality [a == b]: never raises on these values

    The keys of a dict are distinct.  The two operands of the one
    comparison of the engine come from different sources (the snapshot and
    the configuration), so they are never the same object. *)

Fixpoint eq (a b : pyval) {struct a} : bool :=
  match a, b with
  | VNone, VNone => true
  | VStr s, VStr t => String.eqb s t
  | VList la, VList lb =>
      (fix eq_list (la lb : list pyval) {struct la} : bool :=
         match la, lb with
         | [], [] => true
         | x :: la', y :: lb' => eq x y && eq_list la' lb'
         | _, _ => false
         end) la lb
  | VDict da, VDict db =>
      (length da =? length db)%nat &&
      (fix eq_items (da : list (string * pyval)) {struct da} : bool :=
         match da with
         | [] => true
         | (k, x) :: da' =>
             match assoc k db with
             | Some y => eq x y && eq_items da'
             | None => false
             end
         end) da
  | _, _ =>
      match as_num a, as_num b with
      | Some x, Some y =>
          match num_compare x y with Some Eq => true | _ => false end
      | _, _ => false
      end
  end.

(** *** Ordering [a < b] and [a > b] *)

Inductive order_op : Type := OpLt | OpGt.

Definition holds (op : order_op) (c : comparison) : bool :=
  match op, c with
  | OpLt, Lt => true
  | OpGt, Gt => true
  | _, _ => false
  end.

(** Numbers compare with numbers, strings with strings (by code point),
    lists with lists (at the first pair of items that are not [==], else by
    length); every other pairing raises [TypeError]. *)
Fixpoint order (op : order_op) (a b : pyval) {struct a} : outcome bool :=
  match a, b with
  | VStr s, VStr t => Normal (holds op (String.compare s t))
  | VList la, VList lb =>
      (fix order_list (la lb : list pyval) {struct la} : outcome bool :=
         match la, lb with
         | [], [] => Normal false
         | [], _ :: _ => Normal (holds op Lt)
         | _ :: _, [] => Normal (holds op Gt)
         | x :: la', y :: lb' =>
             if eq x y then order_list la' lb' else order op x y
         end) la lb
  | _, _ =>
      match as_num a, as_num b with
      | Some x, Some y =>
          Normal (match num_compare x y with
                  | Some c => holds op c
                  | None => false
                  end)
      | _, _ => Raise TypeError
      end
  end.

Definition lt : pyval -> pyval -> outcome bool := order OpLt.
Definition gt : pyval -> pyval -> outcome bool := order OpGt.

(** *** Addition [a + b] *)

Definition add (a b : pyval) : outcome pyval :=
  match a, b with
  | VStr s, VStr t => Normal (VStr (String.append s t))
  | VList la, VList lb => Normal (VList (la ++ lb))
  | _, _ =>
      match as_num a, as_num b with
      | Some x, Some y => num_add x y
      | _, _ => Raise TypeError
      end
  end.

(** *** Truth value, as in [if not obj] *)

Definition truthy (v : pyval) : bool :=
  match v with
  | VNone => false
  | VBool b => b
  | VInt n => negb (n =? 0)
  | VFloat (S754_zero _) => false
  | VFloat _ => true
  | VStr s => negb (String.eqb s "")
  | VList l => match l with [] => false | _ => true end
  | VDict d => match d with [] => false | _ => true end
  end.

(** *** Iteration [for x in obj] *)

Definition iter (obj : pyval) : outcome (list pyval) :=
  match obj with
  | VList l => Normal l
  | VDict d => Normal (map (fun kv => VStr (fst kv)) d)
  | VStr s => Normal (map (fun c => VStr (String c EmptyString)) (list_ascii_of_string s))
  | _ => Raise TypeError
  end.

End Py.

Import Py.

(** ** Strings: [str.strip] and [datetime.strptime(_, '%H:%M')]

    A [str] is a sequence of code points; the characters of a [string]
    here are the code points below 256. *)

Module Str.

(** [str.isspace] on the code points below 256. *)
Definition is_space (c : ascii) : bool :=
  let n := N_of_ascii c in
  ((9 <=? n) && (n <=? 13) || (28 <=? n) && (n <=? 32) || (n =? 133) || (n =? 160))%N.

Fixpoint lstrip (s : string) : string :=
  match s with
  | String c s' => if is_space c then lstrip s' else s
  | EmptyString => EmptyString
  end.

Fixpoint rstrip (s : string) : string :=
  match s with
  | EmptyString => EmptyString
  | String c s' =>
      match rstrip s' with
      | EmptyString => if is_space c then EmptyString else String c EmptyString
      | r => String c r
      end
  end.

(** [s.strip()] with no argument. *)
Definition strip (s : string) : string := rstrip (lstrip s).

(** The method exists on [str] only. *)
Definition strip_method (obj : pyval) : outcome string :=
  match obj with
  | VStr s => Normal (strip s)
  | _ => Raise AttributeError
  end.

(** [\d] on the code points below 256, and a character range. *)
Definition is_digit (c : ascii) : bool :=
  let n := N_of_ascii c in ((48 <=? n) && (n <=? 57))%N.

Definition in_range (lo hi : ascii) (c : ascii) : bool :=
  ((N_of_ascii lo <=? N_of_ascii c) && (N_of_ascii c <=? N_of_ascii hi))%N.

Definition digit_val (c : ascii) : Z := Z.of_N (N_of_ascii c) - 48.

(** One alternative of a regular-expression group: the number read and the
    rest of the input, or no match. *)
Definition alt : Type := string -> option (Z * string).

(** A two-character alternative such as [[0-1]\d]. *)
Definition two_chars (first second : ascii -> bool) : alt := fun s =>
  match s with
  | String c (String d r) =>
      if first c && second d then Some (10 * digit_val c + digit_val d, r) else None
  | _ => None
  end.

Definition one_digit : alt := fun s =>
  match s with
  | String d r => if is_digit d then Some (digit_val d, r) else None
  | _ => None
  end.

(** [%H] is [(2[0-3]|[0-1]\d|\d)] and [%M] is [([0-5]\d|\d)]. *)
Definition re_H : list alt :=
  [ two_chars (Ascii.eqb "2") (in_range "0" "3");
    two_chars (in_range "0" "1") is_digit;
    one_digit ].

Definition re_M : list alt :=
  [ two_chars (in_range "0" "5") is_digit;
    one_digit ].

(** The first alternative, in order, for which the continuation matches. *)
Fixpoint first_match {A} (alts : list alt) (s : string)
    (k : Z -> string -> option A) : option A :=
  match alts with
  | [] => None
  | a :: alts' =>
      match (match a s with Some (n, r) => k n r | None => None end) with
      | Some x => Some x
      | None => first_match alts' s k
      end
  end.

(** [re.match] of [%H:%M] at the start of the string: hour, minute, and the
    text left over. *)
Definition match_HM (s : string) : option (Z * Z * string) :=
  first_match re_H s (fun h r =>
    match r with
    | String ":" r' => first_match re_M r' (fun m r'' => Some (h, m, r''))
    | _ => None
    end).

(** [datetime.strptime(obj, '%H:%M')]: [TypeError] unless [obj] is a [str];
    [ValueError] when the pattern does not match or text remains. *)
Definition strptime_HM (obj : pyval) : outcome (Z * Z) :=
  match obj with
  | VStr s =>
      match match_HM s with
      | Some (h, m, EmptyString) => Normal (h, m)
      | _ => Raise ValueError
      end
  | _ => Raise TypeError
  end.

End Str.

(** ** Dates and times

    A naive [datetime] is the number of microseconds since the start of the
    calendar; a [time] is the number of microseconds since midnight.  Both
    compare as these numbers do. *)

Module Time.

Definition usec_per_second : Z := 1000000.
Definition usec_per_day : Z := 86400 * usec_per_second.

(** [dt.time()] *)
Definition time_of (dt : Z) : Z := dt mod usec_per_day.

(** [datetime(1900, 1, 1, h, m).time()], what [strptime(_, '%H:%M').time()]
    yields. *)
Definition hm (h m : Z) : Z := (h * 3600 + m * 60) * usec_per_second.

(** [(a - b).total_seconds() > secs] for an integer literal [secs]: the
    difference is a whole number of microseconds, and the division by 10^6
    is correctly rounded, so the test is the one on microseconds. *)
Definition elapsed_gt (a b : Z) (secs : Z) : bool :=
  secs * usec_per_second <? a - b.

End Time.

(** ** The alert checker *)

Module AlertChecker.

Inductive level : Type := DEBUG | INFO | WARNING | ERROR.

(** The dict built for a triggered alert (lines 110-117); [timestamp]
    holds the [datetime] whose ISO-8601 text the program stores. *)
Record triggered_alert : Type := {
  location : string;
  condition : pyval;
  threshold : pyval;
  current_value : pyval;
  message : pyval;
  timestamp : Z
}.

(** The log calls of the module, by the values they interpolate. *)
Inductive log_msg : Type :=
| LoadedLocations (location_names : list pyval)
| ErrorLoadingConfiguration (e : exn)
| InvalidQuietHoursFormat (start_str end_str : pyval)
| SkippingQuietHours
| LookingForLocation (location_name : string)
| ComparingWithConfigLocation (config_name : pyval)
| FoundLocationMatch (config_name : pyval)
| LocationNotFound (location_name : string)
| AlertTriggered (a : triggered_alert)
| UnknownOperator (operator : pyval)
| UnknownCondition (condition : pyval)
| ErrorExtractingCondition (condition : pyval) (e : exn).

(** What the methods read and write: the file at [self.config_path] as
    [open] and [json.load] would deliver it, the two mutable attributes of
    the object, the number of clock readings made so far, and the log. *)
Record state : Type := {
  config_file : outcome pyval;
  config : pyval;
  alert_history : gmap string Z;
  ticks : nat;
  log : list (level * log_msg)
}.

Definition set_config (c : pyval) (st : state) : state :=
  {| config_file := config_file st; config := c;
     alert_history := alert_history st; ticks := ticks st; log := log st |}.

Definition set_alert_history (h : gmap string Z) (st : state) : state :=
  {| config_file := config_file st; config := config st;
     alert_history := h; ticks := ticks st; log := log st |}.

Definition set_ticks (n : nat) (st : state) : state :=
  {| config_file := config_file st; config := config st;
     alert_history := alert_history st; ticks := n; log := log st |}.

Definition set_log (l : list (level * log_msg)) (st : state) : state :=
  {| config_file := config_file st; config := config st;
     alert_history := alert_history st; ticks := ticks st; log := l |}.

(** *** Computations: state survives an exception *)

Definition M (A : Type) : Type := state -> outcome A * state.

Definition ret {A} (a : A) : M A := fun st => (Normal a, st).

Definition bind {A B} (c : M A) (k : A -> M B) : M B := fun st =>
  match c st with
  | (Normal a, st') => k a st'
  | (Raise e, st') => (Raise e, st')
  end.

Definition lift {A} (o : outcome A) : M A := fun st => (o, st).

Definition raise {A} (e : exn) : M A := fun st => (Raise e, st).

(** [try: c  except <classes>: handler] *)
Definition try_except {A} (c : M A) (catches : exn -> bool) (handler : exn -> M A) : M A :=
  fun st =>
    match c st with
    | (Raise e, st') => if catches e then handler e st' else (Raise e, st')
    | r => r
    end.

Declare Scope py_scope.
Delimit Scope py_scope with py.
Notation "x <- c ;; k" := (bind c (fun x => k))
  (at level 100, c at next level, k at level 200, right associativity) : py_scope.
Notation "c ;; k" := (bind c (fun _ => k))
  (at level 100, k at level 200, right associativity) : py_scope.
Local Open Scope py_scope.

Fixpoint map_outcome {A B} (f : A -> outcome B) (l : list A) : outcome (list B) :=
  match l with
  | [] => Normal []
  | x :: l' => obind (f x) (fun y => obind (map_outcome f l') (fun ys => Normal (y :: ys)))
  end.

Definition logger (lv : level) (msg : log_msg) : M unit := fun st =>
  (Normal tt, set_log (log st ++ [(lv, msg)]) st).

Definition get_config : M pyval := fun st => (Normal (config st), st).
Definition get_alert_history : M (gmap string Z) := fun st => (Normal (alert_history st), st).

Section Methods.

(** The wall clock: the [datetime] the n-th call of [datetime.now()]
    returns. *)
Variable clock : nat -> Z.

(** [str(v)] for a float, a list or a dict. *)
Variable repr : pyval -> string.

Definition datetime_now : M Z := fun st =>
  (Normal (clock (ticks st)), set_ticks (S (ticks st)) st).

(** [str(v)], as an f-string interpolates it. *)
Definition str (v : pyval) : string :=
  match v with
  | VStr s => s
  | VNone => "None"
  | VBool true => "True"
  | VBool false => "False"
  | VInt n => NilZero.string_of_int (Z.to_int n)
  | _ => repr v
  end.

(** Lines 19-32. *)
Definition _load_config : M pyval :=
  try_except
    (config <- (fun st => (config_file st, st)) ;;
     locations <- lift (get config "locations" (VList [])) ;;
     locations <- lift (iter locations) ;;
     location_names <- lift (map_outcome (fun loc => get1 loc "name") locations) ;;
     logger DEBUG (LoadedLocations location_names) ;;
     ret config)
    (fun e => match e with JSONDecodeError | FileNotFoundError => true | _ => false end)
    (fun e => logger ERROR (ErrorLoadingConfiguration e) ;; raise e).

(** Lines 13-17: [self.config] is assigned first, [self.alert_history]
    after it. *)
Definition __init__ : M unit :=
  config <- _load_config ;;
  (fun st => (Normal tt, set_alert_history ∅ (set_config config st))).

(** Lines 34-36. *)
Definition refresh_config : M unit :=
  config <- _load_config ;;
  (fun st => (Normal tt, set_config config st)).

(** Lines 38-60.  The clock is read only when quiet hours are enabled. *)
Definition is_quiet_hours : M bool :=
  config <- get_config ;;
  preferences <- lift (get config "preferences" (VDict [])) ;;
  quiet_hours <- lift (get preferences "quiet_hours" (VDict [])) ;;
  enabled <- lift (get quiet_hours "enabled" (VBool false)) ;;
  if negb (truthy enabled) then ret false
  else
    dt <- datetime_now ;;
    let now := Time.time_of dt in
    start_str <- lift (get quiet_hours "start" (VStr "22:00")) ;;
    end_str <- lift (get quiet_hours "end" (VStr "07:00")) ;;
    try_except
      (s <- lift (Str.strptime_HM start_str) ;;
       e <- lift (Str.strptime_HM end_str) ;;
       let start := Time.hm (fst s) (snd s) in
       let end_ := Time.hm (fst e) (snd e) in
       if end_ <? start
       then ret ((start <=? now) || (now <=? end_))
       else ret ((start <=? now) && (now <=? end_)))
      (fun e => match e with ValueError => true | _ => false end)
      (fun _ => logger ERROR (InvalidQuietHoursFormat start_str end_str) ;; ret false).

(** [obj == 'name'] *)
Definition eq_str (obj : pyval) (name : string) : bool := eq obj (VStr name).

(** Lines 141-169.  [None] is [VNone]. *)
Definition _get_condition_value (weather_data condition : pyval) : M pyval :=
  try_except
    (if eq_str condition "temperature" then
       t <- lift (get weather_data "temperature" (VDict [])) ;; lift (get1 t "current")
     else if eq_str condition "feels_like" then
       t <- lift (get weather_data "temperature" (VDict [])) ;; lift (get1 t "feels_like")
     else if eq_str condition "humidity" then
       lift (get1 weather_data "humidity")
     else if eq_str condition "pressure" then
       lift (get1 weather_data "pressure")
     else if eq_str condition "wind" then
       w <- lift (get weather_data "wind" (VDict [])) ;; lift (get1 w "speed")
     else if eq_str condition "clouds" then
       lift (get1 weather_data "clouds")
     else if eq_str condition "precipitation" then
       p <- lift (get weather_data "precipitation" (VDict [])) ;;
       rain <- lift (get p "rain" (VInt 0)) ;;
       p' <- lift (get weather_data "precipitation" (VDict [])) ;;
       snow <- lift (get p' "snow" (VInt 0)) ;;
       lift (add rain snow)
     else if eq_str condition "rain" then
       p <- lift (get weather_data "precipitation" (VDict [])) ;; lift (get p "rain" (VInt 0))
     else if eq_str condition "snow" then
       p <- lift (get weather_data "precipitation" (VDict [])) ;; lift (get p "snow" (VInt 0))
     else
       logger WARNING (UnknownCondition condition) ;; ret VNone)
    (fun e => match e with TypeError | KeyError => true | _ => false end)
    (fun e => logger ERROR (ErrorExtractingCondition condition e) ;; ret VNone).

(** Lines 128-139: the test [_check_condition] applies to the extracted
    value. *)
Definition matches (current_value operator threshold : pyval) : M bool :=
  match current_value with
  | VNone => ret false
  | _ =>
      if eq_str operator "above" then lift (gt current_value threshold)
      else if eq_str operator "below" then lift (lt current_value threshold)
      else if eq_str operator "equals" then ret (eq current_value threshold)
      else logger WARNING (UnknownOperator operator) ;; ret false
  end.

(** Lines 124-139. *)
Definition _check_condition (weather_data condition operator threshold : pyval) : M bool :=
  current_value <- _get_condition_value weather_data condition ;;
  matches current_value operator threshold.

(** Line 100: the f-string that names the cooldown record of a rule. *)
Definition alert_id_of (location_name : string) (condition operator threshold : pyval) : string :=
  String.append location_name
    (String.append "_" (String.append (str condition)
      (String.append "_" (String.append (str operator)
        (String.append "_" (str threshold)))))).

(** Lines 99-120, what the loop does for a rule whose test answered
    [True]: the cooldown check on [alert_id] and, if it passes, the record
    of the firing and the alert.  The alert comes with its [alert_id]. *)
Definition trigger (location_name : string)
    (weather_data condition operator threshold message : pyval)
    : M (option (string * triggered_alert)) :=
  let alert_id := alert_id_of location_name condition operator threshold in
  history <- get_alert_history ;;
  let last_trigger := history !! alert_id in
  current_time <- datetime_now ;;
  if match last_trigger with
     | None => true
     | Some last => Time.elapsed_gt current_time last 21600
     end
  then
    (fun st => (Normal tt, set_alert_history (<[alert_id := current_time]> (alert_history st)) st)) ;;
    value <- _get_condition_value weather_data condition ;;
    let triggered :=
      {| location := location_name; condition := condition; threshold := threshold;
         current_value := value; message := message; timestamp := current_time |} in
    logger INFO (AlertTriggered triggered) ;;
    ret (Some (alert_id, triggered))
  else ret None.

(** Lines 93-120, the body of the loop over the alerts of the location.
    It yields the alert it appends to [triggered_alerts], if any. *)
Definition check_alert (location_name : string) (weather_data alert : pyval)
    : M (option (string * triggered_alert)) :=
  condition <- lift (get1 alert "condition") ;;
  operator <- lift (get1 alert "operator") ;;
  threshold <- lift (get1 alert "value") ;;
  message <- lift (get alert "message"
                     (VStr (String.append "Weather alert for " location_name))) ;;
  matched <- _check_condition weather_data condition operator threshold ;;
  if matched then trigger location_name weather_data condition operator threshold message
  else ret None.

(** Lines 92-120: the alerts in their configured order. *)
Fixpoint check_alerts (location_name : string) (weather_data : pyval) (alerts : list pyval)
    : M (list (string * triggered_alert)) :=
  match alerts with
  | [] => ret []
  | alert :: rest =>
      fired <- check_alert location_name weather_data alert ;;
      more <- check_alerts location_name weather_data rest ;;
      ret (match fired with Some a => a :: more | None => more end)
  end.

(** Lines 77-85: the first configured location whose stripped name is the
    stripped queried name, or [None]. *)
Fixpoint find_location (location_name : string) (locations : list pyval) : M pyval :=
  match locations with
  | [] => ret VNone
  | loc :: rest =>
      config_name <- lift (get loc "name" (VStr "")) ;;
      logger DEBUG (ComparingWithConfigLocation config_name) ;;
      stripped <- lift (Str.strip_method config_name) ;;
      if String.eqb stripped (Str.strip location_name) then
        logger DEBUG (FoundLocationMatch config_name) ;; ret loc
      else find_location location_name rest
  end.

(** Lines 71-122: what the method does once the quiet-hours test has
    let it pass. *)
Definition check_configured_alerts (location_name : string) (weather_data : pyval)
    : M (list (string * triggered_alert)) :=
  logger DEBUG (LookingForLocation location_name) ;;
  config <- get_config ;;
  locations <- lift (get config "locations" (VList [])) ;;
  locations <- lift (iter locations) ;;
  location <- find_location location_name locations ;;
  if negb (truthy location) then
    logger WARNING (LocationNotFound location_name) ;; ret []
  else
    alerts <- lift (get location "alerts" (VList [])) ;;
    alerts <- lift (iter alerts) ;;
    check_alerts location_name weather_data alerts.

(** Lines 62-122, with the [alert_id] of every alert returned. *)
Definition check_location_alerts_ids (location_name : string) (weather_data : pyval)
    : M (list (string * triggered_alert)) :=
  quiet <- is_quiet_hours ;;
  if quiet then logger DEBUG SkippingQuietHours ;; ret []
  else check_configured_alerts location_name weather_data.

(** Lines 62-122: the list the method returns. *)
Definition check_location_alerts (location_name : string) (weather_data : pyval)
    : M (list triggered_alert) :=
  fired <- check_location_alerts_ids location_name weather_data ;;
  ret (map snd fired).

End Methods.

End AlertChecker.

Import AlertChecker.
Local Open Scope py_scope.

(** ** Sample data *)

Module Sample.

(** The float [m * 2^e]. *)
Definition flt (m e : Z) : pyval := VFloat (binary_normalize prec emax m e false).

Definition rule (condition operator : string) (value : pyval) (message : string) : pyval :=
  VDict [("condition", VStr condition); ("operator", VStr operator);
         ("value", value); ("message", VStr message)].

Definition place (name : string) (alerts : list pyval) : pyval :=
  VDict [("name", VStr name); ("latitude", flt 159 (-2)); ("longitude", flt (-179) (-1));
         ("alerts", VList alerts)].

Definition quiet (enabled : bool) (start_ end_ : string) : pyval :=
  VDict [("quiet_hours",
          VDict [("enabled", VBool enabled); ("start", VStr start_); ("end", VStr end_)])].

Definition settings (locations : list pyval) (preferences : pyval) : pyval :=
  VDict [("locations", VList locations); ("preferences", preferences)].

(** One location with a heat warning; quiet hours switched off. *)
Definition springfield : pyval :=
  settings [place "Springfield" [rule "temperature" "above" (VInt 30) "Heat warning"]]
           (quiet false "22:00" "07:00").

(** A snapshot as [WeatherAPI] builds it, with the temperature in
    quarter degrees and the precipitation in quarter millimetres. *)
Definition snapshot (temperature rain snow : Z) : pyval :=
  VDict [("temperature", VDict [("current", flt temperature (-2)); ("feels_like", flt temperature (-2))]);
         ("humidity", VInt 40); ("pressure", VInt 1013);
         ("wind", VDict [("speed", flt 7 (-1)); ("direction", VInt 90)]);
         ("clouds", VInt 20);
         ("precipitation", VDict [("rain", flt rain (-2)); ("snow", flt snow (-2))])].

Definition checker (file : outcome pyval) (config : pyval) : state :=
  {| config_file := file; config := config; alert_history := ∅; ticks := 0; log := [] |}.

(** The same location with quiet hours from 22:00 to 07:00. *)
Definition springfield_quiet : pyval :=
  settings [place "Springfield" [rule "temperature" "above" (VInt 30) "Heat warning"]]
           (quiet true "22:00" "07:00").

(** The same location with quiet hours whose start is no time of day. *)
Definition springfield_bad_hours : pyval :=
  settings [place "Springfield" [rule "temperature" "above" (VInt 30) "Heat warning"]]
           (quiet true "25:00" "07:00").

(** A clock that starts at [h]:[m] and advances one second per reading. *)
Definition clock_from (h m : Z) (n : nat) : Z :=
  (h * 3600 + m * 60 + Z.of_nat n) * Time.usec_per_second.

(** A rule without a value, after the heat warning. *)
Definition springfield_no_value : pyval :=
  settings [place "Springfield"
              [rule "temperature" "above" (VInt 30) "Heat warning";
               VDict [("condition", VStr "humidity"); ("operator", VStr "above");
                      ("message", VStr "Humid")]]]
           (quiet false "22:00" "07:00").

(** Rules with parts missing or of another type, none of which compares a
    value that is not a number with 'above' or 'below'. *)
Definition springfield_odd_rules : pyval :=
  settings [place "Springfield"
              [VDict [("operator", VStr "above"); ("value", VInt 30)];
               VDict [("condition", VInt 7); ("operator", VStr "above"); ("value", VStr "hot")];
               VDict [("condition", VStr "temperature"); ("value", VInt 30)];
               VDict [("condition", VStr "humidity"); ("operator", VStr "equals")];
               rule "temperature" "above" (VInt 30) "Heat warning"]]
           (quiet true "22:00" "07:00").

(** A clock that returns the given instants, as seconds after 08:00, one
    per reading. *)
Definition clock_at (seconds : list Z) (n : nat) : Z :=
  (8 * 3600 + nth n seconds 0) * Time.usec_per_second.

(** A stand-in for the text of floats and containers. *)
Definition repr_any (v : pyval) : string := "<value>".

End Sample.

(** ** Notions used in the statements *)

Module Spec.

(** A Python number: a [bool], an [int], or a [float] that is a binary64
    value. *)
Definition number (v : pyval) : bool :=
  match v with
  | VBool _ | VInt _ => true
  | VFloat f => valid_binary prec emax f
  | _ => false
  end.

(** The extended integers, on which the numbers are laid out in order. *)
Inductive ext : Type := NegInf | Fin (z : Z) | PosInf.

Definition ext_compare (a b : ext) : comparison :=
  match a, b with
  | NegInf, NegInf => Eq
  | NegInf, _ => Lt
  | _, NegInf => Gt
  | PosInf, PosInf => Eq
  | PosInf, _ => Gt
  | _, PosInf => Lt
  | Fin x, Fin y => x ?= y
  end.

(** Every finite binary64 value is a multiple of [2^-1074]: the position of
    a number is its value in that unit; a NaN has none. *)
Definition position (x : num) : option ext :=
  match x with
  | NInt n => Some (Fin (n * 2 ^ 1074))
  | NFloat S754_nan => None
  | NFloat (S754_infinity s) => Some (if s then NegInf else PosInf)
  | NFloat (S754_zero _) => Some (Fin 0)
  | NFloat (S754_finite s m e) => Some (Fin (cond_Zopp s (Z.pos m * 2 ^ (e + 1074))))
  end.

Definition valid_num (x : num) : bool :=
  match x with
  | NInt _ => true
  | NFloat f => valid_binary prec emax f
  end.

(** The name under which a configured location is compared (line 79), when
    it is a string. *)
Definition name_of (loc : pyval) : option string :=
  match get loc "name" (VStr "") with
  | Normal (VStr s) => Some s
  | _ => None
  end.

(** Two names match when they are equal, character for character, after
    trimming leading and trailing whitespace. *)
Definition names_match (config_name location_name : string) : bool :=
  String.eqb (Str.strip config_name) (Str.strip location_name).

(** Resolution of a location name in the words of the specification: the
    first configured location whose name matches. *)
Fixpoint resolve (location_name : string) (locations : list pyval) : option pyval :=
  match locations with
  | [] => None
  | loc :: rest =>
      match name_of loc with
      | Some config_name =>
          if names_match config_name location_name then Some loc
          else resolve location_name rest
      | None => resolve location_name rest
      end
  end.

(** The conditions and the operators of the enumeration. *)
Definition conditions : list string :=
  ["temperature"; "feels_like"; "humidity"; "pressure"; "wind"; "clouds";
   "precipitation"; "rain"; "snow"].

Definition operators : list string := ["above"; "below"; "equals"].

Definition recognized_condition (condition : pyval) : bool :=
  existsb (eq_str condition) conditions.

Definition recognized_operator (operator : pyval) : bool :=
  existsb (eq_str operator) operators.

(** The quiet-hours preference as [is_quiet_hours] reads it (lines 40-47),
    with the defaults of each lookup. *)
Definition quiet_hours_setting (config enabled start_str end_str : pyval) : Prop :=
  exists preferences quiet_hours,
    get config "preferences" (VDict []) = Normal preferences /\
    get preferences "quiet_hours" (VDict []) = Normal quiet_hours /\
    get quiet_hours "enabled" (VBool false) = Normal enabled /\
    get quiet_hours "start" (VStr "22:00") = Normal start_str /\
    get quiet_hours "end" (VStr "07:00") = Normal end_str.

(** *** The shapes under which an evaluation cannot raise *)

Definition numeric (v : pyval) : bool :=
  match as_num v with Some _ => true | None => false end.

(** A reading of a snapshot: a number, or [None] for "absent". *)
Definition optional_number (v : pyval) : bool :=
  match v with VNone => true | _ => numeric v end.

(** A block of readings, which may be missing as a whole. *)
Definition block_ok (d : list (string * pyval)) (name : string) (fields : list string) : bool :=
  match item d name (VDict []) with
  | VDict b => forallb (fun f => optional_number (item b f VNone)) fields
  | _ => false
  end.

(** The precipitation block: two readings whose sum does not leave the
    range of floats. *)
Definition precipitation_ok (d : list (string * pyval)) : bool :=
  match item d "precipitation" (VDict []) with
  | VDict p =>
      let rain := item p "rain" (VInt 0) in
      let snow := item p "snow" (VInt 0) in
      optional_number rain && optional_number snow &&
      match add rain snow with Raise OverflowError => false | _ => true end
  | _ => false
  end.

(** A snapshot of the shape [WeatherAPI] builds. *)
Definition snapshot_ok (weather_data : pyval) : bool :=
  match weather_data with
  | VDict d =>
      block_ok d "temperature" ["current"; "feels_like"] &&
      optional_number (item d "humidity" VNone) &&
      optional_number (item d "pressure" VNone) &&
      block_ok d "wind" ["speed"] &&
      optional_number (item d "clouds" VNone) &&
      precipitation_ok d
  | _ => false
  end.

(** A rule: a dict whose value is a number if it is compared with 'above'
    or 'below' under a condition of the enumeration.  Condition, operator
    and message may be anything, or missing. *)
Definition rule_ok (alert : pyval) : bool :=
  match alert with
  | VDict r =>
      if recognized_condition (item r "condition" VNone) &&
         (eq_str (item r "operator" VNone) "above" || eq_str (item r "operator" VNone) "below")
      then numeric (item r "value" VNone)
      else true
  | _ => false
  end.

Definition is_str (v : pyval) : bool :=
  match v with VStr _ => true | _ => false end.

(** A location: a dict with a string for a name and a list of rules. *)
Definition location_ok (loc : pyval) : bool :=
  match loc with
  | VDict l =>
      is_str (item l "name" (VStr "")) &&
      match item l "alerts" (VList []) with
      | VList rules => forallb rule_ok rules
      | _ => false
      end
  | _ => false
  end.

(** The preferences: dicts, and strings for the two times when quiet hours
    are enabled. *)
Definition quiet_hours_ok (c : list (string * pyval)) : bool :=
  match item c "preferences" (VDict []) with
  | VDict p =>
      match item p "quiet_hours" (VDict []) with
      | VDict q =>
          if truthy (item q "enabled" (VBool false))
          then is_str (item q "start" (VStr "22:00")) && is_str (item q "end" (VStr "07:00"))
          else true
      | _ => false
      end
  | _ => false
  end.

(** A configuration of the shape of the schema. *)
Definition config_ok (config : pyval) : bool :=
  match config with
  | VDict c =>
      quiet_hours_ok c &&
      match item c "locations" (VList []) with
      | VList locations => forallb location_ok locations
      | _ => false
      end
  | _ => false
  end.

(** The cooldown of six hours, in microseconds. *)
Definition cooldown : Z := 21600 * Time.usec_per_second.

(** What can happen to one checker: an evaluation, a reload of the
    configuration, and a change of the configuration file on disk. *)
Inductive call : Type :=
| Evaluate (location_name : string) (weather_data : pyval)
| Refresh
| WriteFile (file : outcome pyval).

(** One call: the alerts it hands to the caller, each with its
    [alert_id], and the state it leaves.  An evaluation that raises hands
    over nothing. *)
Definition perform (clock : nat -> Z) (repr : pyval -> string) (c : call) (st : state)
    : list (string * triggered_alert) * state :=
  match c with
  | Evaluate location_name weather_data =>
      match check_location_alerts_ids clock repr location_name weather_data st with
      | (Normal fired, st') => (fired, st')
      | (Raise _, st') => ([], st')
      end
  | Refresh => ([], snd (refresh_config st))
  | WriteFile file =>
      ([], {| config_file := file; config := config st;
              alert_history := alert_history st; ticks := ticks st; log := log st |})
  end.

(** The alerts handed over by a sequence of calls, in order. *)
Fixpoint run (clock : nat -> Z) (repr : pyval -> string) (calls : list call) (st : state)
    : list (string * triggered_alert) :=
  match calls with
  | [] => []
  | c :: rest =>
      (fst (perform clock repr c st) ++ run clock repr rest (snd (perform clock repr c st)))%list
  end.

(** The firings of a list of alerts: [alert_id] and time. *)
Definition stamps (fired : list (string * triggered_alert)) : list (string * Z) :=
  map (fun f => (fst f, timestamp (snd f))) fired.

(** No two firings of one [alert_id] within the cooldown: every later
    firing of the same [alert_id] comes more than six hours after. *)
Fixpoint spaced (firings : list (string * Z)) : Prop :=
  match firings with
  | [] => True
  | (k, t) :: rest => (forall t', In (k, t') rest -> cooldown < t' - t) /\ spaced rest
  end.

(** The recorded times never go back. *)
Definition grows (h h' : gmap string Z) : Prop :=
  forall k t, h !! k = Some t -> exists t', h' !! k = Some t' /\ t <= t'.

(** Every firing is recorded, at its time or a later one. *)
Definition recorded (firings : list (string * Z)) (h' : gmap string Z) : Prop :=
  forall k t, In (k, t) firings -> exists t', h' !! k = Some t' /\ t <= t'.

(** Every firing comes more than the cooldown after the time on record. *)
Definition after (h : gmap string Z) (firings : list (string * Z)) : Prop :=
  forall k t t0, In (k, t) firings -> h !! k = Some t0 -> cooldown < t - t0.

(** What a stretch of execution that goes from history [h] to history [h']
    and fires [firings] guarantees. *)
Definition paced (h : gmap string Z) (firings : list (string * Z)) (h' : gmap string Z) : Prop :=
  grows h h' /\ recorded firings h' /\ after h firings /\ spaced firings.

End Spec.

(** ** The commands that edit the configuration ([weather_alert.py]) *)

Module Cli.

(** How a command ends: it returns, an exception leaves it, or
    [sys.exit(code)] ends the process. *)
Inductive ending (A : Type) : Type :=
| Returned (a : A)
| Raised (e : exn)
| Exited (code : Z).
Arguments Returned {A} a.
Arguments Raised {A} e.
Arguments Exited {A} code.

(** The [print] calls of the commands, by the values they interpolate. *)
Inductive line : Type :=
| CreatedDefaultConfiguration
| PleaseEditConfiguration
| NotValidJSON
| LocationAlreadyExists (name : string)
| AddedLocation (name : string) (latitude longitude : pyval)
| AlertAlreadyExists (location : string)
| LocationNotFoundInConfiguration (location : string)
| AddedAlert (condition operator : string) (value : pyval) (location : string).

(** What a command reads and writes: the file at [config_path], as [open]
    and [json.load] would deliver it ([FileNotFoundError] when it does not
    exist), and the standard output.  Writing the file succeeds. *)
Record world : Type := {
  file : outcome pyval;
  printed : list line
}.

Definition print (l : list line) (w : world) : world :=
  {| file := file w; printed := (printed w ++ l)%list |}.

(** [json.dump(config, f)] on the configuration file. *)
Definition write (config : pyval) (w : world) : world :=
  {| file := Normal config; printed := printed w |}.

(** Lines 58-78. *)
Definition default_config : pyval :=
  VDict [("api", VDict [("service", VStr "openweathermap"); ("units", VStr "metric")]);
         ("locations", VList []);
         ("notifications", VDict [("desktop", VDict [("enabled", VBool true)])]);
         ("preferences",
          VDict [("check_interval_minutes", VInt 30);
                 ("quiet_hours",
                  VDict [("enabled", VBool true); ("start", VStr "22:00"); ("end", VStr "07:00")]);
                 ("history_days", VInt 30)])].

(** Lines 52-96. *)
Definition load_config (w : world) : ending pyval * world :=
  match file w with
  | Raise FileNotFoundError =>
      (Returned default_config,
       print [CreatedDefaultConfiguration; PleaseEditConfiguration] (write default_config w))
  | Normal config => (Returned config, w)
  | Raise JSONDecodeError => (Exited 1, print [NotValidJSON] w)
  | Raise e => (Raised e, w)
  end.

(** [d.setdefault(key, default)]: the value under [key], and the dict,
    which has gained the key if it lacked it. *)
Definition setdefault (d : list (string * pyval)) (key : string) (default : pyval)
    : pyval * list (string * pyval) :=
  match assoc key d with
  | Some v => (v, d)
  | None => (default, (d ++ [(key, default)])%list)
  end.

(** The dict after the object under an existing [key] has become [v]. *)
Fixpoint set_item (key : string) (v : pyval) (d : list (string * pyval))
    : list (string * pyval) :=
  match d with
  | [] => []
  | (k, x) :: d' =>
      if String.eqb key k then (k, v) :: d' else (k, x) :: set_item key v d'
  end.

(** [obj.append(x)]: only a list has the method. *)
Definition append (obj x : pyval) : outcome pyval :=
  match obj with
  | VList l => Normal (VList (l ++ [x])%list)
  | _ => Raise AttributeError
  end.

(** Lines 103-106: is there a location whose name is [name]? *)
Fixpoint location_exists (name : string) (locations : list pyval) : outcome bool :=
  match locations with
  | [] => Normal false
  | location :: rest =>
      obind (get1 location "name") (fun n =>
        if eq n (VStr name) then Normal true else location_exists name rest)
  end.

(** Lines 109-114. *)
Definition new_location (name : string) (latitude longitude : pyval) : pyval :=
  VDict [("name", VStr name); ("latitude", latitude); ("longitude", longitude);
         ("alerts", VList [])].

(** Lines 116-120: the document after [new] has been appended to its
    locations. *)
Definition with_location (config new : pyval) : outcome pyval :=
  match config with
  | VDict d =>
      let (locations, d') := setdefault d "locations" (VList []) in
      obind (append locations new) (fun locations' =>
        Normal (VDict (set_item "locations" locations' d')))
  | _ => Raise AttributeError
  end.

Definition outcome_ending {A} (o : outcome A) : ending A :=
  match o with
  | Normal a => Returned a
  | Raise e => Raised e
  end.

(** Lines 98-122. *)
Definition add_location (name : string) (latitude longitude : pyval) (w : world)
    : ending unit * world :=
  match load_config w with
  | (Returned config, w1) =>
      match obind (get config "locations" (VList [])) iter with
      | Normal locations =>
          match location_exists name locations with
          | Normal true => (Returned tt, print [LocationAlreadyExists name] w1)
          | Normal false =>
              match with_location config (new_location name latitude longitude) with
              | Normal config' =>
                  (Returned tt, print [AddedLocation name latitude longitude] (write config' w1))
              | Raise e => (Raised e, w1)
              end
          | Raise e => (Raised e, w1)
          end
      | Raise e => (Raised e, w1)
      end
  | (Raised e, w1) => (Raised e, w1)
  | (Exited code, w1) => (Exited code, w1)
  end.

(** Lines 135-140. *)
Definition new_alert (condition operator : string) (value : pyval) (message : string) : pyval :=
  VDict [("condition", VStr condition); ("operator", VStr operator);
         ("value", value); ("message", VStr message)].

(** Lines 144-149: is there an alert with this condition, operator and
    value?  The three tests are made from left to right, as far as
    needed. *)
Fixpoint alert_exists (condition operator : string) (value : pyval) (alerts : list pyval)
    : outcome bool :=
  match alerts with
  | [] => Normal false
  | alert :: rest =>
      obind (get1 alert "condition") (fun c =>
        if eq c (VStr condition) then
          obind (get1 alert "operator") (fun o =>
            if eq o (VStr operator) then
              obind (get1 alert "value") (fun v =>
                if eq v value then Normal true
                else alert_exists condition operator value rest)
            else alert_exists condition operator value rest)
        else alert_exists condition operator value rest)
  end.

(** What the loop of lines 130-152 finds. *)
Inductive search : Type :=
| NoSuchLocation
| Duplicate
| Updated (locations : list pyval).

(** Lines 130-152: the alert goes to the first location whose name is
    [location], unless that location has it already. *)
Fixpoint add_to_location (location condition operator : string) (value : pyval)
    (message : string) (locations : list pyval) : outcome search :=
  match locations with
  | [] => Normal NoSuchLocation
  | loc :: rest =>
      obind (get1 loc "name") (fun n =>
        if eq n (VStr location) then
          match loc with
          | VDict l =>
              let (alerts, l') := setdefault l "alerts" (VList []) in
              obind (iter alerts) (fun listed =>
                obind (alert_exists condition operator value listed) (fun found =>
                  if found then Normal Duplicate
                  else
                    obind (append alerts (new_alert condition operator value message))
                      (fun alerts' =>
                         Normal (Updated (VDict (set_item "alerts" alerts' l') :: rest)))))
          | _ => Raise AttributeError
          end
        else
          obind (add_to_location location condition operator value message rest) (fun found =>
            Normal (match found with
                    | Updated rest' => Updated (loc :: rest')
                    | other => other
                    end)))
  end.

(** Lines 124-162. *)
Definition add_alert (location condition operator : string) (value : pyval)
    (message : string) (w : world) : ending unit * world :=
  match load_config w with
  | (Returned config, w1) =>
      match obind (get config "locations" (VList [])) iter with
      | Normal locations =>
          match add_to_location location condition operator value message locations with
          | Normal NoSuchLocation =>
              (Returned tt, print [LocationNotFoundInConfiguration location] w1)
          | Normal Duplicate => (Returned tt, print [AlertAlreadyExists location] w1)
          | Normal (Updated locations') =>
              match config with
              | VDict d =>
                  (Returned tt,
                   print [AddedAlert condition operator value location]
                     (write (VDict (set_item "locations" (VList locations') d)) w1))
              | _ => (Raised AttributeError, w1)
              end
          | Raise e => (Raised e, w1)
          end
      | Raise e => (Raised e, w1)
      end
  | (Raised e, w1) => (Raised e, w1)
  | (Exited code, w1) => (Exited code, w1)
  end.

End Cli.

(** ** The client of the weather service ([src/api.py]) *)

Module WeatherAPI.

(** The exceptions met outside the engine: those of the engine's kinds,
    [IndexError], the [RequestException] of [requests], and [Other] for
    those of the operating system and of sqlite. *)
Inductive error : Type :=
| Builtin (e : exn)
| IndexError
| RequestException
| Other.

Inductive result (A : Type) : Type :=
| Ok (a : A)
| Failed (e : error).
Arguments Ok {A} a.
Arguments Failed {A} e.

Definition of_outcome {A} (o : outcome A) : result A :=
  match o with
  | Normal a => Ok a
  | Raise e => Failed (Builtin e)
  end.

Definition rbind {A B} (r : result A) (k : A -> result B) : result B :=
  match r with
  | Ok a => k a
  | Failed e => Failed e
  end.

(** The attributes of the object. *)
Record api : Type := {
  config : pyval;
  service : pyval;
  api_key : string;
  units : pyval
}.

(** Line 28. *)
Definition fallback_key : string := "19724a3a48d488b35b9b9f7ddb46b1f3".

(** Lines 13-34.  [environ_key] is
    [os.environ.get('OPENWEATHER_API_KEY')] and [key_file] what reading
    the file '.api_key' gives, [FileNotFoundError] when there is none. *)
Definition __init__ (environ_key : option string) (key_file : result string) (config : pyval)
    : result api :=
  let from_file :=
    match key_file with
    | Ok text => Ok (Str.strip text)
    | Failed (Builtin FileNotFoundError) => Ok fallback_key
    | Failed e => Failed e
    end in
  rbind (of_outcome (get config "service" (VStr "openweathermap"))) (fun service =>
  rbind (match environ_key with
         | Some key => if String.eqb key "" then from_file else Ok key
         | None => from_file
         end) (fun api_key =>
  rbind (of_outcome (get config "units" (VStr "metric"))) (fun units =>
  if String.eqb api_key "" then Failed (Builtin ValueError)
  else Ok {| config := config; service := service; api_key := api_key; units := units |}))).

(** [obj[0]] *)
Definition first_item (obj : pyval) : result pyval :=
  match obj with
  | VList (x :: _) => Ok x
  | VList [] => Failed IndexError
  | VStr (String c _) => Ok (VStr (String c EmptyString))
  | VStr EmptyString => Failed IndexError
  | VDict _ => Failed (Builtin KeyError)
  | _ => Failed (Builtin TypeError)
  end.

(** [data.get(block, {}).get(key, default)] *)
Definition reading (data : pyval) (block key : string) (default : pyval) : result pyval :=
  rbind (of_outcome (get data block (VDict []))) (fun b => of_outcome (get b key default)).

(** [data.get('weather', [{}])[0].get(key)] *)
Definition description (data : pyval) (key : string) : result pyval :=
  rbind (of_outcome (get data "weather" (VList [VDict []]))) (fun w =>
  rbind (first_item w) (fun first => of_outcome (get1 first key))).

(** Lines 72-103: the snapshot built from the decoded response, its
    entries evaluated in the order of the source. *)
Definition standardized (timestamp : string) (latitude longitude data : pyval) : result pyval :=
  rbind (of_outcome (get data "name" (VStr "Unknown"))) (fun name =>
  rbind (reading data "main" "temp" VNone) (fun temp =>
  rbind (reading data "main" "feels_like" VNone) (fun feels_like =>
  rbind (reading data "main" "temp_min" VNone) (fun temp_min =>
  rbind (reading data "main" "temp_max" VNone) (fun temp_max =>
  rbind (reading data "main" "humidity" VNone) (fun humidity =>
  rbind (reading data "main" "pressure" VNone) (fun pressure =>
  rbind (reading data "wind" "speed" VNone) (fun speed =>
  rbind (reading data "wind" "deg" VNone) (fun deg =>
  rbind (reading data "clouds" "all" VNone) (fun clouds =>
  rbind (reading data "rain" "1h" (VInt 0)) (fun rain =>
  rbind (reading data "snow" "1h" (VInt 0)) (fun snow =>
  rbind (description data "main") (fun main =>
  rbind (description data "description") (fun text =>
  rbind (description data "icon") (fun icon =>
  Ok (VDict
        [("timestamp", VStr timestamp);
         ("location",
          VDict [("name", name); ("latitude", latitude); ("longitude", longitude)]);
         ("temperature",
          VDict [("current", temp); ("feels_like", feels_like);
                 ("min", temp_min); ("max", temp_max)]);
         ("humidity", humidity);
         ("pressure", pressure);
         ("wind", VDict [("speed", speed); ("direction", deg)]);
         ("clouds", clouds);
         ("precipitation", VDict [("rain", rain); ("snow", snow)]);
         ("weather",
          VDict [("condition", main); ("description", text); ("icon", icon)])])))))))))))))))).

End WeatherAPI.

(** ** The desktop notifications ([src/notifier.py]) *)

Module Notifier.

(** [s.replace('_', ' ')] *)
Fixpoint replace_underscores (s : string) : string :=
  match s with
  | EmptyString => EmptyString
  | String c s' =>
      String (if Ascii.eqb c "_"%char then " "%char else c) (replace_underscores s')
  end.

(** The degree sign, code point 176. *)
Definition degree : string := String (ascii_of_nat 176) EmptyString.

Section Texts.

(** [str(v)] for a float, a list or a dict. *)
Variable repr : pyval -> string.

(** [s.title()] *)
Variable title : string -> string.

(** Lines 91-106.  [config] is [self.config]. *)
Definition _get_condition_units (config condition : pyval) : outcome string :=
  obind (get config "api" (VDict [])) (fun api =>
  obind (get api "units" (VStr "metric")) (fun units_config =>
  let metric := eq_str units_config "metric" in
  Normal
    (if eq_str condition "temperature" || eq_str condition "feels_like" then
       String.append degree (if metric then "C" else "F")
     else if eq_str condition "pressure" then " hPa"
     else if eq_str condition "humidity" then "%"
     else if eq_str condition "wind" then (if metric then " m/s" else " mph")
     else if eq_str condition "precipitation" || eq_str condition "rain"
             || eq_str condition "snow" then (if metric then " mm" else " in")
     else ""))).

(** Lines 73-89, for the dict the engine builds, which has all the keys
    read here. *)
Definition _format_alert_message (config : pyval) (alert : triggered_alert) : outcome string :=
  match condition alert with
  | VStr c =>
      let condition_name := title (replace_underscores c) in
      obind (_get_condition_units config (condition alert)) (fun units =>
      let current_value_str := String.append (str repr (current_value alert)) units in
      let threshold_str := String.append (str repr (threshold alert)) units in
      Normal (String.append condition_name
               (String.append " is "
                 (String.append current_value_str
                   (String.append " (Threshold: "
                     (String.append threshold_str ")"))))))
  | _ => Raise AttributeError
  end.

(** Lines 56-71: the methods are tried in turn until one succeeds; each
    of them catches what it raises.  [shows n] tells whether the attempt
    made as the [n]-th call to the surroundings succeeds. *)
Fixpoint try_methods (shows : nat -> bool) (methods calls : nat) : bool * nat :=
  match methods with
  | O => (false, calls)
  | S rest =>
      if shows calls then (true, S calls) else try_methods shows rest (S calls)
  end.

(** Lines 49-71. *)
Definition send_alert (shows : nat -> bool) (config : pyval) (alert : triggered_alert)
    (calls : nat) : outcome bool * nat :=
  match _format_alert_message config alert with
  | Normal text =>
      let (success, calls') := try_methods shows 3 calls in (Normal success, calls')
  | Raise e => (Raise e, calls)
  end.

End Texts.

End Notifier.

(** ** The statistics of the stored snapshots ([src/storage.py]) *)

Module WeatherDatabase.

(** Lines 239-244 and 270-275. *)
Definition no_statistics : pyval :=
  VDict [("min", VNone); ("max", VNone); ("avg", VNone); ("count", VInt 0)].

(** Lines 250-266: the value of one stored snapshot.  Nothing is caught
    here. *)
Definition entry_value (condition entry : pyval) : outcome pyval :=
  if eq_str condition "temperature" then
    obind (get entry "temperature" (VDict [])) (fun t => get1 t "current")
  else if eq_str condition "feels_like" then
    obind (get entry "temperature" (VDict [])) (fun t => get1 t "feels_like")
  else if eq_str condition "humidity" then get1 entry "humidity"
  else if eq_str condition "pressure" then get1 entry "pressure"
  else if eq_str condition "wind" then
    obind (get entry "wind" (VDict [])) (fun w => get1 w "speed")
  else if eq_str condition "precipitation" then
    obind (get entry "precipitation" (VDict [])) (fun p =>
    obind (get p "rain" (VInt 0)) (fun rain =>
    obind (get entry "precipitation" (VDict [])) (fun p' =>
    obind (get p' "snow" (VInt 0)) (fun snow =>
    add rain snow))))
  else Normal VNone.

(** Lines 247-268: the values that are not [None], in the order of the
    snapshots. *)
Fixpoint collect (condition : pyval) (weather_data : list pyval) : outcome (list pyval) :=
  match weather_data with
  | [] => Normal []
  | entry :: rest =>
      obind (entry_value condition entry) (fun value =>
      obind (collect condition rest) (fun values =>
      Normal (match value with VNone => values | _ => value :: values end)))
  end.

(** [min(values)] and [max(values)] on a list that is not empty: an
    item replaces the one kept so far when it is below it, or above it. *)
Fixpoint extreme (op : order_op) (kept : pyval) (values : list pyval) : outcome pyval :=
  match values with
  | [] => Normal kept
  | v :: rest =>
      obind (order op v kept) (fun better => extreme op (if better : bool then v else kept) rest)
  end.

Section Statistics.

(** [sum(values) / len(values)] *)
Variable average : list pyval -> outcome pyval.

(** Lines 232-283, for the snapshots [get_weather_data] has retrieved. *)
Definition get_statistics (weather_data : list pyval) (condition : pyval) : outcome pyval :=
  match weather_data with
  | [] => Normal no_statistics
  | _ =>
      obind (collect condition weather_data) (fun values =>
      match values with
      | [] => Normal no_statistics
      | first :: rest =>
          obind (extreme OpLt first rest) (fun least =>
          obind (extreme OpGt first rest) (fun greatest =>
          obind (average values) (fun avg =>
          Normal (VDict [("min", least); ("max", greatest); ("avg", avg);
                         ("count", VInt (Z.of_nat (length values)))]))))
      end)
  end.

End Statistics.

End WeatherDatabase.

(** ** Polling ([weather_alert.py], [check_now] and [run_service]) *)

Module Service.

(** How a function of the program ends. *)
Inductive ending : Type :=
| Returned
| Raised (e : WeatherAPI.error)
| Exited (code : Z).

(** The log calls of [check_now] and [run_service], by the values they
    interpolate, the one of [WeatherAPI], and the calls that reach the
    surroundings: the request to the weather service, the two methods of
    the database and [Notifier.send_alert]. *)
Inductive event : Type :=
| InitializationError (e : WeatherAPI.error)
| SkippingLocation (location : pyval)
| CheckingWeather (name : pyval)
| Request (latitude longitude : pyval)
| ErrorFetching
| StoreWeather (name weather_data : pyval)
| SendAlert (alert : triggered_alert)
| StoreAlert (alert : triggered_alert)
| SentAlerts (count : nat) (name : pyval)
| NoAlertsTriggered (name : pyval)
| ErrorChecking (name : pyval) (e : WeatherAPI.error)
| StartingService (check_interval : pyval)
| NextCheck (check_interval : pyval)
| ServiceError (e : WeatherAPI.error).

(** The surroundings of the process: the environment variable
    'OPENWEATHER_API_KEY' and, for the moment at which [n] calls have
    been made to them, what the call made then is answered: whether the
    log file of [setup_logging] can be opened, what reading the key file
    gives, whether [WeatherDatabase] can be set up, the decoded response
    of the weather service ([None] for a [RequestException]), whether a
    method of the database returns and how often it reads the clock,
    whether a notification method succeeds, and what [time.sleep]
    raises, if anything. *)
Record surroundings : Type := {
  environ_key : option string;
  opens_log : nat -> bool;
  key_file : nat -> WeatherAPI.result string;
  opens_database : nat -> bool;
  response : nat -> option pyval;
  database : nat -> bool * nat;
  shows : nat -> bool;
  sleeps : nat -> option WeatherAPI.error
}.

(** The process: the configuration file and the standard output, the
    [AlertChecker] in use with the clock readings and the log of the
    engine, the number of calls made to the surroundings, and the events
    so far. *)
Record process : Type := {
  world : Cli.world;
  engine : state;
  calls : nat;
  events : list event
}.

Definition set_world (w : Cli.world) (p : process) : process :=
  {| world := w; engine := engine p; calls := calls p; events := events p |}.

Definition set_engine (st : state) (p : process) : process :=
  {| world := world p; engine := st; calls := calls p; events := events p |}.

Definition set_calls (n : nat) (p : process) : process :=
  {| world := world p; engine := engine p; calls := n; events := events p |}.

Definition set_events (l : list event) (p : process) : process :=
  {| world := world p; engine := engine p; calls := calls p; events := l |}.

(** *** Computations on the process *)

Definition P (A : Type) : Type := process -> WeatherAPI.result A * process.

Definition pret {A} (a : A) : P A := fun p => (WeatherAPI.Ok a, p).

Definition pbind {A B} (c : P A) (k : A -> P B) : P B := fun p =>
  match c p with
  | (WeatherAPI.Ok a, p') => k a p'
  | (WeatherAPI.Failed e, p') => (WeatherAPI.Failed e, p')
  end.

Definition fail {A} (e : WeatherAPI.error) : P A := fun p => (WeatherAPI.Failed e, p).

Definition of_result {A} (r : WeatherAPI.result A) : P A := fun p => (r, p).

(** [try: c  except Exception as e: handler] *)
Definition try_exception {A} (c : P A) (handler : WeatherAPI.error -> P A) : P A := fun p =>
  match c p with
  | (WeatherAPI.Failed e, p') => handler e p'
  | r => r
  end.

Declare Scope service_scope.
Notation "x <~ c ;; k" := (pbind c (fun x => k))
  (at level 100, c at next level, k at level 200, right associativity) : service_scope.
Notation "c ;;; k" := (pbind c (fun _ => k))
  (at level 100, k at level 200, right associativity) : service_scope.
Local Open Scope service_scope.

Definition emit (e : event) : P unit := fun p =>
  (WeatherAPI.Ok tt, set_events (events p ++ [e])%list p).

(** A call to the surroundings: the answer to it, and one call more. *)
Definition ask {A} (answer : nat -> A) : P A := fun p =>
  (WeatherAPI.Ok (answer (calls p)), set_calls (S (calls p)) p).

(** A method of the engine. *)
Definition on_engine {A} (c : M A) : P A := fun p =>
  match c (engine p) with
  | (o, st) => (WeatherAPI.of_outcome o, set_engine st p)
  end.

(** The checker reads the file the commands read. *)
Definition with_file (file : outcome pyval) (st : state) : state :=
  {| config_file := file; config := AlertChecker.config st;
     alert_history := alert_history st; ticks := ticks st; log := log st |}.

Section Polling.

Variable clock : nat -> Z.
Variable repr : pyval -> string.

(** [s.title()] and [d.isoformat()] *)
Variable title : string -> string.
Variable isoformat : Z -> string.

Variable out : surroundings.

(** [setup_logging], lines 29-49: the handler of the log file is built
    on every call. *)
Definition setup_logging : P unit :=
  opened <~ ask (opens_log out) ;;
  if opened : bool then pret tt else fail WeatherAPI.Other.

(** [api.get_current_weather], lines 36-41 and 58-106 of [api.py]. *)
Definition get_current_weather (api : WeatherAPI.api) (latitude longitude : pyval) : P pyval :=
  if eq_str (WeatherAPI.service api) "openweathermap" then
    emit (Request latitude longitude) ;;;
    answer <~ ask (response out) ;;
    match answer with
    | Some data =>
        now <~ on_engine (datetime_now clock) ;;
        of_result (WeatherAPI.standardized (isoformat now) latitude longitude data)
    | None => emit ErrorFetching ;;; fail WeatherAPI.RequestException
    end
  else fail (WeatherAPI.Builtin ValueError).

(** A method of the database that stores: it may read the clock. *)
Definition store (e : event) : P unit :=
  emit e ;;;
  answer <~ ask (database out) ;;
  on_engine (fun st => (Normal tt, set_ticks (ticks st + snd answer) st)) ;;;
  if fst answer then pret tt else fail WeatherAPI.Other.

(** [notifier.send_alert(alert)] *)
Definition send_alert (notifier_config : pyval) (alert : triggered_alert) : P bool :=
  emit (SendAlert alert) ;;;
  fun p =>
    match Notifier.send_alert repr title (shows out) notifier_config alert (calls p) with
    | (o, n) => (WeatherAPI.of_outcome o, set_calls n p)
    end.

(** [alert_checker.check_location_alerts(name, weather_data)] for the
    name as the configuration has it.  A name that is not a string has
    no [strip]: once the quiet hours have let the call pass, the first
    comparison of the lookup raises. *)
Definition check_location_alerts (name weather_data : pyval) : M (list triggered_alert) :=
  match name with
  | VStr location_name => AlertChecker.check_location_alerts clock repr location_name weather_data
  | _ =>
      (quiet <- is_quiet_hours clock ;;
       if quiet then logger DEBUG SkippingQuietHours ;; ret []
       else
         logger DEBUG (LookingForLocation (str repr name)) ;;
         config <- get_config ;;
         locations <- lift (get config "locations" (VList [])) ;;
         locations <- lift (iter locations) ;;
         match locations with
         | [] => logger WARNING (LocationNotFound (str repr name)) ;; ret []
         | loc :: _ =>
             config_name <- lift (get loc "name" (VStr "")) ;;
             logger DEBUG (ComparingWithConfigLocation config_name) ;;
             _ <- lift (Str.strip_method config_name) ;;
             raise AttributeError
         end)%py
  end.

(** Lines 229-231. *)
Fixpoint send_alerts (notifier_config : pyval) (alerts : list triggered_alert) : P unit :=
  match alerts with
  | [] => pret tt
  | alert :: rest =>
      send_alert notifier_config alert ;;;
      store (StoreAlert alert) ;;;
      send_alerts notifier_config rest
  end.

(** Lines 209-239, the body of the loop over the locations. *)
Definition check_location (api : WeatherAPI.api) (notifier_config location : pyval) : P unit :=
  name <~ of_result (WeatherAPI.of_outcome (get1 location "name")) ;;
  lat <~ of_result (WeatherAPI.of_outcome (get1 location "latitude")) ;;
  lon <~ of_result (WeatherAPI.of_outcome (get1 location "longitude")) ;;
  if negb (truthy name && truthy lat && truthy lon) then emit (SkippingLocation location)
  else
    try_exception
      (emit (CheckingWeather name) ;;;
       weather_data <~ get_current_weather api lat lon ;;
       store (StoreWeather name weather_data) ;;;
       triggered_alerts <~ on_engine (check_location_alerts name weather_data) ;;
       send_alerts notifier_config triggered_alerts ;;;
       match triggered_alerts with
       | [] => emit (NoAlertsTriggered name)
       | _ => emit (SentAlerts (length triggered_alerts) name)
       end)
      (fun e => emit (ErrorChecking name e)).

Fixpoint check_locations (api : WeatherAPI.api) (notifier_config : pyval)
    (locations : list pyval) : P unit :=
  match locations with
  | [] => pret tt
  | location :: rest =>
      check_location api notifier_config location ;;;
      check_locations api notifier_config rest
  end.

(** Lines 198-202: the four objects, of which the checker is kept in the
    process and the database has no attribute that matters. *)
Definition initialize (config : pyval) : P (WeatherAPI.api * pyval) :=
  api_config <~ of_result (WeatherAPI.of_outcome (get config "api" (VDict []))) ;;
  api <~ (fun p => (WeatherAPI.__init__ (environ_key out) (key_file out (calls p)) api_config,
                    p)) ;;
  (fun p => (WeatherAPI.Ok tt, set_engine (with_file (Cli.file (world p)) (engine p)) p)) ;;;
  on_engine __init__ ;;;
  notifier_config <~ (fun p => (WeatherAPI.of_outcome (Cli.file (world p)), p)) ;;
  opened <~ ask (opens_database out) ;;
  if opened : bool then pret (api, notifier_config) else fail WeatherAPI.Other.

Definition finish (r : WeatherAPI.result unit * process) : ending * process :=
  match r with
  | (WeatherAPI.Ok _, p) => (Returned, p)
  | (WeatherAPI.Failed e, p) => (Raised e, p)
  end.

(** [load_config] as a step of the process. *)
Definition load_config (p : process) : (ending + pyval) * process :=
  match Cli.load_config (world p) with
  | (Cli.Returned config, w) => (inr config, set_world w p)
  | (Cli.Raised e, w) => (inl (Raised (WeatherAPI.Builtin e)), set_world w p)
  | (Cli.Exited code, w) => (inl (Exited code), set_world w p)
  end.

(** Lines 190-239. *)
Definition check_now (p : process) : ending * process :=
  match setup_logging p with
  | (WeatherAPI.Failed e, p0) => (Raised e, p0)
  | (WeatherAPI.Ok _, p0) =>
      match load_config p0 with
      | (inl end_, p1) => (end_, p1)
      | (inr config, p1) =>
          match initialize config p1 with
          | (WeatherAPI.Failed e, p2) => finish (emit (InitializationError e) p2)
          | (WeatherAPI.Ok (api, notifier_config), p2) =>
              finish
                ((locations <~ of_result (WeatherAPI.of_outcome
                                 (obind (get config "locations" (VList [])) iter)) ;;
                  check_locations api notifier_config locations) p2)
          end
      end
  end.

(** Lines 250-261: the loop, cut off after [fuel] polls; [None] when it
    is still running then.  [time.sleep(check_interval * 60)] raises for
    an interval that is no number, or is negative.  [SystemExit] is no
    [Exception]. *)
Fixpoint polls (fuel : nat) (check_interval : pyval) (p : process) : option ending * process :=
  match fuel with
  | O => (None, p)
  | S fuel' =>
      match check_now p with
      | (Returned, p1) =>
          match (emit (NextCheck check_interval) ;;; ask (sleeps out)) p1 with
          | (WeatherAPI.Ok None, p2) => polls fuel' check_interval p2
          | (WeatherAPI.Ok (Some e), p2) | (WeatherAPI.Failed e, p2) =>
              (Some Returned, snd (emit (ServiceError e) p2))
          end
      | (Raised e, p1) => (Some Returned, snd (emit (ServiceError e) p1))
      | (Exited code, p1) => (Some (Exited code), p1)
      end
  end.

(** Lines 241-261. *)
Definition run_service (fuel : nat) (p : process) : option ending * process :=
  match setup_logging p with
  | (WeatherAPI.Failed e, p0) => (Some (Raised e), p0)
  | (WeatherAPI.Ok _, p0) =>
      match load_config p0 with
      | (inl end_, p1) => (Some end_, p1)
      | (inr config, p1) =>
          match obind (get config "preferences" (VDict []))
                      (fun preferences => get preferences "check_interval_minutes" (VInt 30)) with
          | Raise e => (Some (Raised (WeatherAPI.Builtin e)), p1)
          | Normal check_interval =>
              polls fuel check_interval (snd (emit (StartingService check_interval) p1))
          end
      end
  end.

End Polling.

End Service.

(** ** Notions used in the further properties *)

Module Notions.

Definition is_dict (v : pyval) : bool :=
  match v with VDict _ => true | _ => false end.

(** A document of which [_load_config] can list the location names
    (line 26): a dict whose 'locations', when present, can be iterated and
    holds dicts only. *)
Definition listable (config : pyval) : bool :=
  match config with
  | VDict c =>
      match iter (item c "locations" (VList [])) with
      | Normal locations => forallb is_dict locations
      | Raise _ => false
      end
  | _ => false
  end.

(** What an alert takes over from its rule (lines 93-96 and 110-115):
    condition, threshold and message. *)
Definition alert_summary (a : triggered_alert) : pyval * pyval * pyval :=
  (condition a, threshold a, message a).

Definition rule_summary (location_name : string) (alert : pyval) : pyval * pyval * pyval :=
  match alert with
  | VDict r =>
      (item r "condition" VNone, item r "value" VNone,
       item r "message" (VStr (String.append "Weather alert for " location_name)))
  | _ => (VNone, VNone, VNone)
  end.

(** The state a sequence of calls leaves. *)
Fixpoint final (clock : nat -> Z) (repr : pyval -> string) (calls : list Spec.call) (st : state)
    : state :=
  match calls with
  | [] => st
  | c :: rest => final clock repr rest (snd (Spec.perform clock repr c st))
  end.

(** An edit of the configuration file from the command line. *)
Inductive edit : Type :=
| AddLocation (name : string) (latitude longitude : pyval)
| AddAlert (location condition operator : string) (value : pyval) (message : string).

Definition apply (e : edit) (w : Cli.world) : Cli.ending unit * Cli.world :=
  match e with
  | AddLocation name latitude longitude => Cli.add_location name latitude longitude w
  | AddAlert location condition operator value message =>
      Cli.add_alert location condition operator value message w
  end.

(** A sequence of edits, each one a run of the program: how each run
    ends, and the world they leave. *)
Fixpoint session (edits : list edit) (w : Cli.world) : list (Cli.ending unit) * Cli.world :=
  match edits with
  | [] => ([], w)
  | e :: rest =>
      let (r, w1) := apply e w in
      let (rs, w2) := session rest w1 in
      (r :: rs, w2)
  end.

(** An edit whose threshold, if it has one, is a number. *)
Definition numeric_edit (e : edit) : bool :=
  match e with
  | AddLocation _ _ _ => true
  | AddAlert _ _ _ value _ => Spec.numeric value
  end.

(** A configuration file that does not exist yet, or holds a
    configuration of the shape of the schema. *)
Definition well_formed (file : outcome pyval) : bool :=
  match file with
  | Normal config => Spec.config_ok config
  | Raise FileNotFoundError => true
  | Raise _ => false
  end.

(** A world without a configuration file, and one with [config] in it. *)
Definition no_file : Cli.world :=
  {| Cli.file := Raise FileNotFoundError; Cli.printed := [] |}.

Definition on_disk (config : pyval) : Cli.world :=
  {| Cli.file := Normal config; Cli.printed := [] |}.

(** A response of the weather service, with the temperature in quarter
    degrees, and without rain or snow. *)
Definition reply (temperature : Z) : pyval :=
  VDict [("name", VStr "Springfield");
         ("main", VDict [("temp", Sample.flt temperature (-2));
                         ("feels_like", Sample.flt temperature (-2));
                         ("humidity", VInt 40); ("pressure", VInt 1013)]);
         ("wind", VDict [("speed", Sample.flt 7 (-1)); ("deg", VInt 90)]);
         ("clouds", VDict [("all", VInt 20)]);
         ("weather", VList [VDict [("main", VStr "Clear"); ("description", VStr "clear sky");
                                   ("icon", VStr "01d")]])].

(** Surroundings in which every call succeeds and the weather service
    always answers [data]. *)
Definition fair (data : pyval) : Service.surroundings :=
  {| Service.environ_key := Some "key";
     Service.opens_log := fun _ => true;
     Service.key_file := fun _ => WeatherAPI.Failed (WeatherAPI.Builtin FileNotFoundError);
     Service.opens_database := fun _ => true;
     Service.response := fun _ => Some data;
     Service.database := fun _ => (true, 2%nat);
     Service.shows := fun _ => true;
     Service.sleeps := fun _ => None |}.

Definition started (config : pyval) : Service.process :=
  {| Service.world := Notions.on_disk config;
     Service.engine := Sample.checker (Normal config) VNone;
     Service.calls := 0;
     Service.events := [] |}.

Definition title_any (s : string) : string := s.
Definition isoformat_any (t : Z) : string := "<time>".

(** A configured location that [check_now] does not skip: a dict whose
    name, latitude and longitude are true. *)
Definition complete (location : pyval) : bool :=
  match location with
  | VDict l =>
      truthy (item l "name" VNone) && truthy (item l "latitude" VNone)
      && truthy (item l "longitude" VNone)
  | _ => false
  end.

Definition name_field (location : pyval) : pyval :=
  match location with
  | VDict l => item l "name" VNone
  | _ => VNone
  end.

Definition coordinates (location : pyval) : pyval * pyval :=
  match location with
  | VDict l => (item l "latitude" VNone, item l "longitude" VNone)
  | _ => (VNone, VNone)
  end.

(** The names for which a stretch of events starts a check, and the
    coordinates it asks the weather service about. *)
Definition attempts (events : list Service.event) : list pyval :=
  flat_map (fun e => match e with Service.CheckingWeather name => [name] | _ => [] end) events.

Definition requests (events : list Service.event) : list (pyval * pyval) :=
  flat_map (fun e => match e with Service.Request lat lon => [(lat, lon)] | _ => [] end) events.

(** A decoded response of the weather service of the shape
    [WeatherAPI] and the engine can process: the blocks that are read
    are dicts when present, the readings the engine uses are numbers or
    null, the two precipitation readings have a sum within the range of
    floats, and the weather descriptions, when present, are a list that
    begins with a dict. *)
Definition response_ok (data : pyval) : bool :=
  match data with
  | VDict d =>
      Spec.block_ok d "main" ["temp"; "feels_like"; "humidity"; "pressure"] &&
      Spec.block_ok d "wind" ["speed"] &&
      Spec.block_ok d "clouds" ["all"] &&
      match item d "rain" (VDict []), item d "snow" (VDict []) with
      | VDict r, VDict s =>
          let rain := item r "1h" (VInt 0) in
          let snow := item s "1h" (VInt 0) in
          Spec.optional_number rain && Spec.optional_number snow &&
          match add rain snow with Raise OverflowError => false | _ => true end
      | _, _ => false
      end &&
      match item d "weather" (VList [VDict []]) with
      | VList (VDict _ :: _) => true
      | _ => false
      end
  | _ => false
  end.

(** The reading of the response that stands behind a condition of the
    enumeration: block, key and the default of the key. *)
Definition source (condition : string) : option (string * string * pyval) :=
  if String.eqb condition "temperature" then Some ("main", "temp", VNone)
  else if String.eqb condition "feels_like" then Some ("main", "feels_like", VNone)
  else if String.eqb condition "humidity" then Some ("main", "humidity", VNone)
  else if String.eqb condition "pressure" then Some ("main", "pressure", VNone)
  else if String.eqb condition "wind" then Some ("wind", "speed", VNone)
  else if String.eqb condition "clouds" then Some ("clouds", "all", VNone)
  else if String.eqb condition "rain" then Some ("rain", "1h", VInt 0)
  else if String.eqb condition "snow" then Some ("snow", "1h", VInt 0)
  else None.

(** [data.get(block, {}).get(key, default)] on a response whose blocks
    are dicts. *)
Definition response_reading (data : pyval) (block key : string) (default : pyval) : pyval :=
  match data with
  | VDict d =>
      match item d block (VDict []) with
      | VDict b => item b key default
      | _ => VNone
      end
  | _ => VNone
  end.

(** A configuration in which the notifier finds the units: a dict
    whose 'api' block, when present, is a dict. *)
Definition has_api_block (config : pyval) : bool :=
  match config with
  | VDict d =>
      match item d "api" (VDict []) with
      | VDict _ => true
      | _ => false
      end
  | _ => false
  end.

(** The conditions [get_statistics] knows. *)
Definition summarized : list string :=
  ["temperature"; "feels_like"; "humidity"; "pressure"; "wind"; "precipitation"].

(** The exceptions the extraction of the engine catches (line 167). *)
Definition caught (e : exn) : bool :=
  match e with
  | TypeError | KeyError => true
  | _ => false
  end.

(** A stand-in for the mean of the values. *)
Definition average_any (values : list pyval) : outcome pyval := Normal (VInt 0).

(** The configuration names the weather service the client supports. *)
Definition uses_openweathermap (config : pyval) : bool :=
  match config with
  | VDict d =>
      match item d "api" (VDict []) with
      | VDict a => eq_str (item a "service" (VStr "openweathermap")) "openweathermap"
      | _ => false
      end
  | _ => false
  end.

(** The first location of the configuration is complete, with a string
    for a name, and its first rule has these parts. *)
Definition first_rule (config : pyval) (name : string)
    (latitude longitude condition operator value : pyval) : Prop :=
  exists d l rest r rules,
    config = VDict d /\
    item d "locations" (VList []) = VList (VDict l :: rest) /\
    item l "name" VNone = VStr name /\
    item l "latitude" VNone = latitude /\
    item l "longitude" VNone = longitude /\
    truthy (VStr name) && truthy latitude && truthy longitude = true /\
    item l "alerts" (VList []) = VList (VDict r :: rules) /\
    item r "condition" VNone = condition /\
    item r "operator" VNone = operator /\
    item r "value" VNone = value.

(** The test of a rule holds on every snapshot built from [data]. *)
Definition triggers (latitude longitude condition operator value data : pyval) : Prop :=
  forall timestamp snapshot st,
    WeatherAPI.standardized timestamp latitude longitude data = WeatherAPI.Ok snapshot ->
    fst (_check_condition snapshot condition operator value st) = Normal true.

(** Surroundings that cooperate all the time: the key of the weather
    service is in the environment, the log file and the database can be
    opened, the weather service answers with data that are [good], the
    database stores, and [time.sleep] returns. *)
Definition cooperative (out : Service.surroundings) (good : pyval -> Prop) : Prop :=
  (exists key, Service.environ_key out = Some key /\ key <> "") /\
  (forall n, Service.opens_log out n = true) /\
  (forall n, Service.opens_database out n = true) /\
  (forall n, exists data, Service.response out n = Some data /\ good data) /\
  (forall n, fst (Service.database out n) = true) /\
  (forall n, Service.sleeps out n = None).

(** The alert of a rule is sent in this stretch of events. *)
Definition sends (name : string) (condition value : pyval) (events : list Service.event)
    : Prop :=
  exists a,
    In (Service.SendAlert a) events /\
    location a = name /\ AlertChecker.condition a = condition /\ threshold a = value.

(** An event that neither starts a check nor asks the weather service. *)
Definition calm (e : Service.event) : bool :=
  match e with
  | Service.CheckingWeather _ | Service.Request _ _ => false
  | _ => true
  end.

(** A computation that leaves the configuration file and the output
    alone and adds calm events only. *)
Definition appends {A} (c : Service.P A) : Prop :=
  forall p,
    Service.world (snd (c p)) = Service.world p /\
    exists new,
      Service.events (snd (c p)) = (Service.events p ++ new)%list /\
      forallb calm new = true.

End Notions.

(** * Properties *)

Local Open Scope list_scope.

(** ** Reasoning about computations *)

Lemma bind_normal {A B} (c : M A) (k : A -> M B) st a st' :
  c st = (Normal a, st') -> bind c k st = k a st'.
Proof. intros H. unfold bind. now rewrite H. Qed.

Lemma bind_inv_raise {A B} (c : M A) (k : A -> M B) st e st' :
  bind c k st = (Raise e, st') ->
  c st = (Raise e, st') \/ exists a st1, c st = (Normal a, st1) /\ k a st1 = (Raise e, st').
Proof.
  unfold bind. destruct (c st) as [[a|e1] st1]; intros H.
  - right. eauto.
  - left. inversion H. reflexivity.
Qed.

Lemma set_log_id st : set_log (log st) st = st.
Proof. destruct st; reflexivity. Qed.

Lemma set_log_nil st : set_log (log st ++ []) st = st.
Proof. rewrite app_nil_r. apply set_log_id. Qed.

Ltac case_outcome :=
  match goal with
  | |- context [match ?o with Normal _ => _ | Raise _ => _ end] =>
      destruct o eqn:?; simpl
  | |- context [if ?b then _ else _] => destruct b eqn:?; simpl
  end.

(** ** Reloading the configuration *)

(** A load that raises leaves everything but the log as it was. *)
Lemma load_config_raise_frame st e st' :
  _load_config st = (Raise e, st') ->
  exists lines, st' = set_log (log st ++ lines) st.
Proof.
  unfold _load_config, try_except, bind, lift, logger, ret, raise.
  assert (Hsame : exists lines, st = set_log (log st ++ lines) st)
    by (exists []; now rewrite set_log_nil).
  destruct (config_file st) as [cfg|e0] eqn:Hf; simpl.
  - destruct (get cfg "locations" (VList [])) as [locs|e1]; simpl.
    + destruct (iter locs) as [l|e2]; simpl.
      * destruct (map_outcome _ l) as [names|e3]; simpl.
        -- intros H; inversion H.
        -- destruct e3; intros H; inversion H; subst; eauto.
      * destruct e2; intros H; inversion H; subst; eauto.
    + destruct e1; intros H; inversion H; subst; eauto.
  - destruct e0; intros H; inversion H; subst; eauto.
Qed.

(** C10. [refresh_config] is atomic on error: when the configuration file
    is missing or is not valid JSON the exception reaches the caller, and
    whenever [refresh_config] raises, the state is the one from before the
    call but for lines added to the log: [self.config] and the cooldown
    history are unchanged, so that a later evaluation works with the old
    configuration. *)
Theorem refresh_config_atomic_on_error (st : state) :
  (forall e, (e = FileNotFoundError \/ e = JSONDecodeError) ->
     config_file st = Raise e ->
     fst (refresh_config st) = Raise e) /\
  (forall e st', refresh_config st = (Raise e, st') ->
     (exists lines, st' = set_log (log st ++ lines) st) /\
     config st' = config st /\ alert_history st' = alert_history st).
Proof.
  split.
  - intros e He Hf. unfold refresh_config, _load_config, try_except, bind.
    rewrite Hf. destruct He as [-> | ->]; reflexivity.
  - intros e st' H. unfold refresh_config in H.
    apply bind_inv_raise in H as [H | (cfg & st1 & _ & H)].
    + apply load_config_raise_frame in H as [lines ->].
      split; [eauto | split; reflexivity].
    + discriminate H.
Qed.

(** A new checker starts without any recorded firing. *)
Lemma init_empty_history st st' :
  __init__ st = (Normal tt, st') -> alert_history st' = ∅.
Proof.
  unfold __init__, bind.
  destruct (_load_config st) as [[cfg | e] st1]; intros H; inversion H; reflexivity.
Qed.

Lemma refresh_config_atomic_on_error_witness :
  let st := Sample.checker (Raise FileNotFoundError) Sample.springfield in
  fst (refresh_config st) = Raise FileNotFoundError /\
  config (snd (refresh_config st)) = Sample.springfield /\
  alert_history (snd (refresh_config st)) = ∅.
Proof.
  intros st.
  destruct (refresh_config_atomic_on_error st) as [Hraise Hframe].
  split.
  - apply Hraise; [left; reflexivity | reflexivity].
  - apply (Hframe FileNotFoundError (snd (refresh_config st))). reflexivity.
Defined.

(** ** The quiet-hours veto *)

Section QuietVeto.

Variable clock : nat -> Z.
Variable repr : pyval -> string.

(** The quiet-hours gate never touches the configuration, the history or the file. *)
Lemma is_quiet_hours_frame st o st' :
  is_quiet_hours clock st = (o, st') ->
  config st' = config st /\ alert_history st' = alert_history st /\
  config_file st' = config_file st.
Proof.
  unfold is_quiet_hours, try_except, bind, get_config, lift, ret, datetime_now, logger.
  simpl. repeat case_outcome; intros H; inversion H; auto.
Qed.

(** When the quiet-hours gate answers "quiet" it has read the clock once and done
    nothing else. *)
Lemma is_quiet_hours_true_state st st' :
  is_quiet_hours clock st = (Normal true, st') ->
  st' = set_ticks (S (ticks st)) st.
Proof.
  unfold is_quiet_hours, try_except, bind, get_config, lift, ret, datetime_now, logger.
  simpl. repeat case_outcome; intros H; inversion H; reflexivity.
Qed.

(** C5. If the quiet-hours gate reports quiet, the evaluation returns the
    empty list; the state after it is the state before it with one more
    clock reading (that of the quiet-hours test) and one more debug line, so the cooldown
    history and the configuration are untouched and nothing depends on the
    location, the snapshot or the rules. *)
Theorem quiet_hours_veto (location_name : string) (weather_data : pyval) (st : state) :
  fst (is_quiet_hours clock st) = Normal true ->
  check_location_alerts clock repr location_name weather_data st
  = (Normal [], set_log (log st ++ [(DEBUG, SkippingQuietHours)])
                        (set_ticks (S (ticks st)) st))
  /\ alert_history (snd (check_location_alerts clock repr location_name weather_data st))
     = alert_history st.
Proof.
  intros Hq.
  destruct (is_quiet_hours clock st) as [o st1] eqn:Hrun. simpl in Hq. subst o.
  pose proof (is_quiet_hours_true_state _ _ Hrun) as ->.
  assert (Heq : check_location_alerts clock repr location_name weather_data st
    = (Normal [], set_log (log st ++ [(DEBUG, SkippingQuietHours)])
                        (set_ticks (S (ticks st)) st))).
  { unfold check_location_alerts, check_location_alerts_ids.
    unfold bind at 1 2. rewrite Hrun. reflexivity. }
  split; [exact Heq | now rewrite Heq].
Qed.

End QuietVeto.

Lemma quiet_hours_veto_witness :
  let st := Sample.checker (Normal Sample.springfield_quiet) Sample.springfield_quiet in
  let run := check_location_alerts (Sample.clock_from 23 30) Sample.repr_any
               "Springfield" (Sample.snapshot 125 0 0) st in
  fst run = Normal [] /\ alert_history (snd run) = ∅.
Proof.
  intros st run.
  destruct (quiet_hours_veto (Sample.clock_from 23 30) Sample.repr_any
              "Springfield" (Sample.snapshot 125 0 0) st) as [Hrun Hframe].
  - reflexivity.
  - split; [unfold run; now rewrite Hrun | exact Hframe].
Defined.

(** ** The order of Python numbers *)

Section NumberOrder.

Import Spec.

Lemma digits2_pos_bounds (m : positive) :
  2 ^ (Z.pos (digits2_pos m) - 1) <= Z.pos m < 2 ^ Z.pos (digits2_pos m).
Proof.
  induction m as [m IH | m IH | ]; simpl digits2_pos.
  - rewrite Pos2Z.inj_succ.
    replace (Z.succ (Z.pos (digits2_pos m)) - 1) with (Z.succ (Z.pos (digits2_pos m) - 1)) by lia.
    rewrite !Z.pow_succ_r by lia. lia.
  - rewrite Pos2Z.inj_succ.
    replace (Z.succ (Z.pos (digits2_pos m)) - 1) with (Z.succ (Z.pos (digits2_pos m) - 1)) by lia.
    rewrite !Z.pow_succ_r by lia. lia.
  - simpl. lia.
Qed.

(** What validity says of a finite float: the exponent is at least the
    smallest one, the mantissa has at most 53 bits, and exactly 53 above the
    smallest exponent. *)
Lemma valid_finite s m e :
  valid_binary prec emax (S754_finite s m e) = true ->
  -1074 <= e /\ Z.pos m < 2 ^ 53 /\ (-1074 < e -> 2 ^ 52 <= Z.pos m).
Proof.
  unfold valid_binary, bounded, canonical_mantissa, fexp, SpecFloat.emin, prec, emax.
  intros H. apply andb_prop in H as [Hc _].
  apply Z.eqb_eq in Hc.
  pose proof (digits2_pos_bounds m) as [Hlo Hhi].
  set (d := Z.pos (digits2_pos m)) in *.
  assert (Hd : 0 < d) by (unfold d; lia).
  split; [lia|]. split.
  - assert (d <= 53) by lia.
    apply Z.lt_le_trans with (2 ^ d); [exact Hhi|].
    apply Z.pow_le_mono_r; lia.
  - intros He. assert (d = 53) by lia.
    replace 52 with (d - 1) by lia. exact Hlo.
Qed.

Lemma compare_scale (a b k : Z) : 0 < k -> (a * k ?= b * k) = (a ?= b).
Proof.
  intros Hk. destruct (Z.compare_spec a b) as [-> | Hlt | Hgt].
  - apply Z.compare_refl.
  - apply Z.compare_lt_iff. nia.
  - apply Z.compare_gt_iff. nia.
Qed.

Lemma cond_Zopp_scale (s : bool) (a k : Z) : cond_Zopp s (a * k) = cond_Zopp s a * k.
Proof. destruct s; simpl; lia. Qed.

Lemma pow2_pos (e : Z) : 0 <= e -> 0 < 2 ^ e.
Proof. intros. apply Z.pow_pos_nonneg; lia. Qed.

Lemma pow2_step (e1 e2 : Z) : 0 <= e1 -> e1 < e2 -> 2 * 2 ^ e1 <= 2 ^ e2.
Proof.
  intros H0 Hlt. rewrite <- Z.pow_succ_r by lia.
  apply Z.pow_le_mono_r; lia.
Qed.

(** Magnitudes of two valid finite floats compare as exponent, then
    mantissa. *)
Lemma magnitude_compare s1 m1 e1 s2 m2 e2 :
  valid_binary prec emax (S754_finite s1 m1 e1) = true ->
  valid_binary prec emax (S754_finite s2 m2 e2) = true ->
  (Z.pos m1 * 2 ^ (e1 + 1074) ?= Z.pos m2 * 2 ^ (e2 + 1074))
  = match e1 ?= e2 with Lt => Lt | Gt => Gt | Eq => Pos.compare_cont Eq m1 m2 end.
Proof.
  intros V1 V2.
  apply valid_finite in V1 as (L1 & U1 & N1).
  apply valid_finite in V2 as (L2 & U2 & N2).
  change (2 ^ 53) with (2 * 2 ^ 52) in U1, U2.
  destruct (Z.compare_spec e1 e2) as [-> | Hlt | Hgt].
  - rewrite compare_scale by (apply pow2_pos; lia). reflexivity.
  - apply Z.compare_lt_iff.
    pose proof (pow2_pos (e1 + 1074) ltac:(lia)).
    pose proof (pow2_step (e1 + 1074) (e2 + 1074) ltac:(lia) ltac:(lia)).
    specialize (N2 ltac:(lia)). nia.
  - apply Z.compare_gt_iff.
    pose proof (pow2_pos (e2 + 1074) ltac:(lia)).
    pose proof (pow2_step (e2 + 1074) (e1 + 1074) ltac:(lia) ltac:(lia)).
    specialize (N1 ltac:(lia)). nia.
Qed.

Lemma magnitude_pos m e : -1074 <= e -> 0 < Z.pos m * 2 ^ (e + 1074).
Proof. intros. pose proof (pow2_pos (e + 1074) ltac:(lia)). nia. Qed.

(** [SFcompare] on valid floats is the comparison of positions. *)
Lemma SFcompare_position (f g : spec_float) :
  valid_binary prec emax f = true -> valid_binary prec emax g = true ->
  SFcompare f g
  = match position (NFloat f), position (NFloat g) with
    | Some a, Some b => Some (ext_compare a b)
    | _, _ => None
    end.
Proof.
  intros Vf Vg.
  destruct f as [sf | sf | | sf mf ef], g as [sg | sg | | sg mg eg];
    try (destruct sf); try (destruct sg); try reflexivity;
    simpl position; unfold ext_compare, SFcompare;
    try (pose proof (valid_finite _ _ _ Vf) as (Lf & _ & _);
         pose proof (magnitude_pos mf ef Lf));
    try (pose proof (valid_finite _ _ _ Vg) as (Lg & _ & _);
         pose proof (magnitude_pos mg eg Lg));
    simpl cond_Zopp; f_equal; symmetry.
  all: try (apply Z.compare_lt_iff; lia).
  all: try (apply Z.compare_gt_iff; lia).
  - rewrite Z.compare_opp, (magnitude_compare true mg eg true mf ef Vg Vf).
    rewrite (Z.compare_antisym ef eg).
    destruct (ef ?= eg); simpl; try reflexivity.
    rewrite (Pos.compare_cont_antisym mf mg Eq). reflexivity.
  - apply (magnitude_compare false mf ef false mg eg Vf Vg).
Qed.

Lemma ext_compare_antisym (a b : ext) : ext_compare b a = CompOpp (ext_compare a b).
Proof. destruct a, b; simpl; try reflexivity. apply Z.compare_antisym. Qed.

Lemma int_float_position (n : Z) (f : spec_float) :
  valid_binary prec emax f = true ->
  int_float_compare n f
  = match position (NFloat f) with
    | Some b => Some (ext_compare (Fin (n * 2 ^ 1074)) b)
    | None => None
    end.
Proof.
  intros V. destruct f as [s | s | | s m e]; simpl.
  - f_equal. change 0 with (0 * 2 ^ 1074) at 2.
    symmetry. apply compare_scale. reflexivity.
  - destruct s; reflexivity.
  - reflexivity.
  - f_equal. apply valid_finite in V as (L & _ & _).
    destruct (Z.leb_spec 0 e) as [He | He].
    + replace (2 ^ (e + 1074)) with (2 ^ e * 2 ^ 1074) by (rewrite <- Z.pow_add_r; [reflexivity | lia | lia]).
      rewrite Z.mul_assoc, (cond_Zopp_scale s (Z.pos m * 2 ^ e) (2 ^ 1074)).
      symmetry. apply compare_scale. reflexivity.
    + replace (2 ^ 1074) with (2 ^ (- e) * 2 ^ (e + 1074))
        by (rewrite <- Z.pow_add_r; [f_equal; lia | lia | lia]).
      rewrite Z.mul_assoc, (cond_Zopp_scale s (Z.pos m) (2 ^ (e + 1074))).
      symmetry. apply compare_scale. apply pow2_pos; lia.
Qed.

(** The comparison of two valid numbers is the comparison of their
    positions; it is undefined exactly when a NaN is involved. *)
Lemma num_compare_position (x y : num) :
  valid_num x = true -> valid_num y = true ->
  num_compare x y
  = match position x, position y with
    | Some a, Some b => Some (ext_compare a b)
    | _, _ => None
    end.
Proof.
  intros Vx Vy. destruct x as [a | f], y as [b | g]; simpl num_compare.
  - simpl. f_equal. symmetry. apply compare_scale. reflexivity.
  - rewrite (int_float_position a g Vy). reflexivity.
  - rewrite (int_float_position b f Vx).
    change (position (NInt b)) with (Some (Fin (b * 2 ^ 1074))).
    destruct (position (NFloat f)) as [p|]; [|reflexivity].
    cbn [option_map]. f_equal. symmetry. apply ext_compare_antisym.
  - apply SFcompare_position; assumption.
Qed.

Lemma ext_compare_trans_gt (a b c : ext) :
  ext_compare a b = Gt -> ext_compare c b = Lt -> ext_compare a c = Gt.
Proof.
  destruct a, b, c; simpl; try congruence.
  rewrite !Z.compare_gt_iff, Z.compare_lt_iff. lia.
Qed.

Lemma number_as_num (v : pyval) :
  number v = true -> exists x, as_num v = Some x /\ valid_num x = true.
Proof.
  destruct v; simpl; try discriminate; intros H; eexists; (split; [reflexivity | try reflexivity]).
  exact H.
Qed.

(** On two numbers the ordering tests of [order] are those of
    [num_compare]. *)
Lemma order_numbers (op : order_op) (a b : pyval) x y :
  as_num a = Some x -> as_num b = Some y ->
  order op a b = Normal (match num_compare x y with Some c => holds op c | None => false end).
Proof.
  intros Ha Hb.
  destruct a; try discriminate Ha; destruct b; try discriminate Hb;
    simpl in *; inversion Ha; inversion Hb; subst; reflexivity.
Qed.

End NumberOrder.

(** ** The test of a rule *)

Section Matches.

Import Spec.

(** C9. [matches] is monotonic in the threshold for the operator 'above':
    for numbers [v], [t] and [t'], if [v] is above [t] and [t' < t], then
    [v] is above [t'] as well. *)
Theorem matches_above_monotone (v t t' : pyval) (st : state) :
  number v = true -> number t = true -> number t' = true ->
  fst (matches v (VStr "above") t st) = Normal true ->
  lt t' t = Normal true ->
  matches v (VStr "above") t' st = (Normal true, st).
Proof.
  intros Nv Nt Nt' Hm Hlt.
  destruct (number_as_num v Nv) as (x & Hx & Vx).
  destruct (number_as_num t Nt) as (y & Hy & Vy).
  destruct (number_as_num t' Nt') as (z & Hz & Vz).
  assert (Hgt : gt v t = Normal true).
  { destruct v; try discriminate Nv; exact Hm. }
  assert (Hgoal : gt v t' = Normal true).
  { unfold gt, lt in *.
    rewrite (order_numbers OpGt v t x y Hx Hy) in Hgt.
    rewrite (order_numbers OpLt t' t z y Hz Hy) in Hlt.
    rewrite (order_numbers OpGt v t' x z Hx Hz).
    rewrite (num_compare_position x y Vx Vy) in Hgt.
    rewrite (num_compare_position z y Vz Vy) in Hlt.
    rewrite (num_compare_position x z Vx Vz).
    destruct (position x) as [px|]; [|discriminate Hgt].
    destruct (position y) as [py|]; [|discriminate Hgt].
    destruct (position z) as [pz|]; [|discriminate Hlt].
    rewrite (ext_compare_trans_gt px py pz); [reflexivity | |].
    - destruct (ext_compare px py); simpl in Hgt; congruence.
    - destruct (ext_compare pz py); simpl in Hlt; congruence. }
  destruct v; try discriminate Nv; unfold matches; simpl; unfold lift; now rewrite Hgoal.
Qed.

End Matches.

Lemma matches_above_monotone_witness :
  matches (Sample.flt 125 (-2)) (VStr "above") (Sample.flt 59 (-1))
          (Sample.checker (Normal Sample.springfield) Sample.springfield)
  = (Normal true, Sample.checker (Normal Sample.springfield) Sample.springfield).
Proof.
  apply (matches_above_monotone (Sample.flt 125 (-2)) (VInt 30) (Sample.flt 59 (-1)));
    reflexivity.
Defined.

(** ** Extraction of the precipitation *)

(** The claim that a snapshot without a precipitation block has no
    precipitation value fails: the value extracted from such a snapshot is
    the integer 0, and the rule "precipitation below 1" matches it. *)
Lemma precipitation_absent_block_is_zero :
  let wd := VDict [("humidity", VInt 40)] in
  let st := Sample.checker (Normal Sample.springfield) Sample.springfield in
  fst (_get_condition_value wd (VStr "precipitation") st) = Normal (VInt 0) /\
  fst (_get_condition_value wd (VStr "precipitation") st) <> Normal VNone /\
  fst (_check_condition wd (VStr "precipitation") (VStr "below") (VInt 1) st) = Normal true.
Proof.
  cbv zeta. split; [reflexivity|]. split; [|reflexivity].
  intros H. vm_compute in H. discriminate H.
Qed.

(** C2, as the code has it.  The 'precipitation' condition yields
    [rain + snow], where a sub-field that is missing counts as 0 and a block
    that is missing counts as an empty block; so a snapshot without the
    block yields 0, and a 'precipitation' rule is tested against 0 there. *)
Theorem precipitation_is_rain_plus_snow (weather_data : pyval) (st : state) :
  (forall p rain snow v,
     get weather_data "precipitation" (VDict []) = Normal p ->
     get p "rain" (VInt 0) = Normal rain ->
     get p "snow" (VInt 0) = Normal snow ->
     add rain snow = Normal v ->
     _get_condition_value weather_data (VStr "precipitation") st = (Normal v, st)) /\
  (forall d, weather_data = VDict d -> assoc "precipitation" d = None ->
     _get_condition_value weather_data (VStr "precipitation") st = (Normal (VInt 0), st) /\
     forall operator threshold,
       _check_condition weather_data (VStr "precipitation") operator threshold st
       = matches (VInt 0) operator threshold st).
Proof.
  assert (Hsum : forall p rain snow v,
     get weather_data "precipitation" (VDict []) = Normal p ->
     get p "rain" (VInt 0) = Normal rain ->
     get p "snow" (VInt 0) = Normal snow ->
     add rain snow = Normal v ->
     _get_condition_value weather_data (VStr "precipitation") st = (Normal v, st)).
  { intros p rain snow v Hp Hr Hs Ha.
    unfold _get_condition_value, try_except. cbn [eq_str eq String.eqb Ascii.eqb Bool.eqb].
    unfold bind, lift. rewrite Hp, Hr, Hs, Ha. reflexivity. }
  split; [exact Hsum|].
  intros d -> Hd.
  assert (Hzero : _get_condition_value (VDict d) (VStr "precipitation") st = (Normal (VInt 0), st)).
  { apply (Hsum (VDict []) (VInt 0) (VInt 0)); try reflexivity.
    unfold get, item. now rewrite Hd. }
  split; [exact Hzero|].
  intros operator threshold. unfold _check_condition.
  now rewrite (bind_normal _ _ _ _ _ Hzero).
Qed.

(** Rain 2.0 and snow 1.5 are above 3.0 and not above 3.5. *)
Example precipitation_above_3 :
  fst (_check_condition (Sample.snapshot 0 8 6) (VStr "precipitation") (VStr "above")
         (Sample.flt 3 0) (Sample.checker (Normal Sample.springfield) Sample.springfield))
  = Normal true.
Proof. reflexivity. Qed.

Example precipitation_not_above_3_5 :
  fst (_check_condition (Sample.snapshot 0 8 6) (VStr "precipitation") (VStr "above")
         (Sample.flt 7 (-1)) (Sample.checker (Normal Sample.springfield) Sample.springfield))
  = Normal false.
Proof. reflexivity. Qed.

Lemma precipitation_is_rain_plus_snow_witness :
  let st := Sample.checker (Normal Sample.springfield) Sample.springfield in
  _get_condition_value (Sample.snapshot 0 8 6) (VStr "precipitation") st
    = (Normal (Sample.flt 7 (-1)), st) /\
  _check_condition (VDict [("humidity", VInt 40)]) (VStr "precipitation")
    (VStr "below") (VInt 1) st = matches (VInt 0) (VStr "below") (VInt 1) st.
Proof.
  intros st. split.
  - apply (proj1 (precipitation_is_rain_plus_snow (Sample.snapshot 0 8 6) st)
             (VDict [("rain", Sample.flt 8 (-2)); ("snow", Sample.flt 6 (-2))])
             (Sample.flt 8 (-2)) (Sample.flt 6 (-2))); reflexivity.
  - apply (proj2 (precipitation_is_rain_plus_snow (VDict [("humidity", VInt 40)]) st)
             [("humidity", VInt 40)]); reflexivity.
Defined.

(** ** The quiet-hours gate *)

Section QuietHours.

Import Spec.

Variable clock : nat -> Z.
Variable repr : pyval -> string.

Lemma strptime_HM_str (s : string) :
  (exists h m, Str.strptime_HM (VStr s) = Normal (h, m)) \/
  Str.strptime_HM (VStr s) = Raise ValueError.
Proof.
  unfold Str.strptime_HM.
  destruct (Str.match_HM s) as [[[h m] [|c r]]|]; eauto.
Qed.

(** With quiet hours disabled the method answers "not quiet" without reading
    the clock. *)
Lemma is_quiet_hours_disabled st enabled start_str end_str :
  quiet_hours_setting (config st) enabled start_str end_str ->
  truthy enabled = false ->
  is_quiet_hours clock st = (Normal false, st).
Proof.
  intros (prefs & qh & Hp & Hq & He & _ & _) Hen.
  unfold is_quiet_hours, bind, get_config, lift.
  rewrite Hp, Hq, He, Hen. reflexivity.
Qed.

(** With quiet hours enabled the method reads the clock once and then parses
    the two times. *)
Lemma is_quiet_hours_enabled st enabled start_str end_str :
  quiet_hours_setting (config st) enabled start_str end_str ->
  truthy enabled = true ->
  is_quiet_hours clock st
  = try_except
      (s <- lift (Str.strptime_HM start_str) ;;
       e <- lift (Str.strptime_HM end_str) ;;
       let start := Time.hm (fst s) (snd s) in
       let end_ := Time.hm (fst e) (snd e) in
       if end_ <? start
       then ret ((start <=? Time.time_of (clock (ticks st))) || (Time.time_of (clock (ticks st)) <=? end_))
       else ret ((start <=? Time.time_of (clock (ticks st))) && (Time.time_of (clock (ticks st)) <=? end_)))
      (fun e => match e with ValueError => true | _ => false end)
      (fun _ => logger ERROR (InvalidQuietHoursFormat start_str end_str) ;; ret false)
      (set_ticks (S (ticks st)) st).
Proof.
  intros (prefs & qh & Hp & Hq & He & Hs & Hend) Hen.
  unfold is_quiet_hours, get_config, lift, datetime_now.
  unfold bind at 1 2 3 4. rewrite Hp, Hq, He, Hen. cbn [negb].
  unfold bind at 1 2 3. cbn [config set_ticks]. rewrite Hs, Hend. reflexivity.
Qed.

(** C3. With quiet hours enabled and both times parsed, [is_quiet_hours] reports
    quiet exactly inside the window: for an overnight window (start after
    end) when [now >= start] or [now <= end], for a same-day window when
    [start <= now <= end]; the instants [now = start] and [now = end] are
    quiet in both.  With the enabled flag false it reports
    not-quiet. *)
Theorem quiet_hours_window (st : state) (enabled start_str end_str : pyval) :
  quiet_hours_setting (config st) enabled start_str end_str ->
  (truthy enabled = false -> is_quiet_hours clock st = (Normal false, st)) /\
  (forall h1 m1 h2 m2,
     truthy enabled = true ->
     Str.strptime_HM start_str = Normal (h1, m1) ->
     Str.strptime_HM end_str = Normal (h2, m2) ->
     let now := Time.time_of (clock (ticks st)) in
     let start := Time.hm h1 m1 in
     let end_ := Time.hm h2 m2 in
     exists quiet,
       is_quiet_hours clock st = (Normal quiet, set_ticks (S (ticks st)) st) /\
       (start > end_ -> (quiet = true <-> now >= start \/ now <= end_)) /\
       (start <= end_ -> (quiet = true <-> start <= now <= end_)) /\
       (now = start -> quiet = true) /\
       (now = end_ -> quiet = true)).
Proof.
  intros Hcfg. split.
  - intros Hen. eapply is_quiet_hours_disabled; eassumption.
  - intros h1 m1 h2 m2 Hen Hs He now start end_.
    rewrite (is_quiet_hours_enabled st enabled start_str end_str Hcfg Hen).
    unfold try_except, bind, lift. rewrite Hs, He. cbn [fst snd].
    fold now start end_.
    destruct (Z.ltb_spec end_ start) as [Hov | Hsame]; unfold ret; eexists; (split; [reflexivity|]).
    + rewrite orb_true_iff, !Z.leb_le. repeat split; intros; lia.
    + rewrite andb_true_iff, !Z.leb_le. repeat split; intros; lia.
Qed.

(** C7. With quiet hours enabled, if the start or the end string does not
    parse with [%H:%M], [is_quiet_hours] logs the error and reports not-quiet, and
    the evaluation goes on to the rules instead of returning early. *)
Theorem quiet_hours_fail_open (st : state) (enabled : pyval) (start_str end_str : string)
    (location_name : string) (weather_data : pyval) :
  quiet_hours_setting (config st) enabled (VStr start_str) (VStr end_str) ->
  truthy enabled = true ->
  Str.strptime_HM (VStr start_str) = Raise ValueError \/
  Str.strptime_HM (VStr end_str) = Raise ValueError ->
  let st1 := set_log (log st ++ [(ERROR, InvalidQuietHoursFormat (VStr start_str) (VStr end_str))])
                     (set_ticks (S (ticks st)) st) in
  is_quiet_hours clock st = (Normal false, st1) /\
  check_location_alerts clock repr location_name weather_data st
  = (fired <- check_configured_alerts clock repr location_name weather_data ;;
     ret (map snd fired)) st1.
Proof.
  intros Hcfg Hen Hbad st1.
  assert (Hgate : is_quiet_hours clock st = (Normal false, st1)).
  { rewrite (is_quiet_hours_enabled st enabled _ _ Hcfg Hen).
    unfold try_except, bind, lift.
    destruct Hbad as [Hs | He].
    - rewrite Hs. reflexivity.
    - destruct (strptime_HM_str start_str) as [(h & m & Hs) | Hs]; rewrite Hs.
      + rewrite He. reflexivity.
      + reflexivity. }
  split; [exact Hgate|].
  unfold check_location_alerts, check_location_alerts_ids.
  unfold bind at 1 2. rewrite Hgate. reflexivity.
Qed.

End QuietHours.

Example overnight_2330_quiet :
  fst (is_quiet_hours (Sample.clock_from 23 30)
         (Sample.checker (Normal Sample.springfield_quiet) Sample.springfield_quiet))
  = Normal true.
Proof. reflexivity. Qed.

Example overnight_0659_quiet :
  fst (is_quiet_hours (Sample.clock_from 6 59)
         (Sample.checker (Normal Sample.springfield_quiet) Sample.springfield_quiet))
  = Normal true.
Proof. reflexivity. Qed.

Example overnight_0701_not_quiet :
  fst (is_quiet_hours (Sample.clock_from 7 1)
         (Sample.checker (Normal Sample.springfield_quiet) Sample.springfield_quiet))
  = Normal false.
Proof. reflexivity. Qed.

Example overnight_2159_not_quiet :
  fst (is_quiet_hours (Sample.clock_from 21 59)
         (Sample.checker (Normal Sample.springfield_quiet) Sample.springfield_quiet))
  = Normal false.
Proof. reflexivity. Qed.

Lemma quiet_hours_window_witness :
  let st := Sample.checker (Normal Sample.springfield_quiet) Sample.springfield_quiet in
  exists quiet,
    is_quiet_hours (Sample.clock_from 7 0) st = (Normal quiet, set_ticks 1 st) /\
    quiet = true.
Proof.
  intros st.
  destruct (quiet_hours_window (Sample.clock_from 7 0) st
              (VBool true) (VStr "22:00") (VStr "07:00")) as [_ Hon].
  { do 2 eexists. repeat split; reflexivity. }
  destruct (Hon 22 0 7 0 eq_refl eq_refl eq_refl) as (quiet & Hrun & _ & _ & _ & Hend).
  exists quiet. split; [exact Hrun | apply Hend; reflexivity].
Defined.

Lemma quiet_hours_fail_open_witness :
  let st := Sample.checker (Normal Sample.springfield_bad_hours) Sample.springfield_bad_hours in
  fst (is_quiet_hours (Sample.clock_from 23 30) st) = Normal false.
Proof.
  intros st.
  destruct (quiet_hours_fail_open (Sample.clock_from 23 30) Sample.repr_any st
              (VBool true) "25:00" "07:00" "Springfield" (Sample.snapshot 125 0 0))
    as [Hgate _].
  - do 2 eexists. repeat split; reflexivity.
  - reflexivity.
  - left. reflexivity.
  - now rewrite Hgate.
Defined.

(** ** Resolving the location *)

Section Resolution.

Import Spec.

Variable clock : nat -> Z.
Variable repr : pyval -> string.

Lemma name_of_get loc s : name_of loc = Some s -> get loc "name" (VStr "") = Normal (VStr s).
Proof.
  unfold name_of. destruct (get loc "name" (VStr "")) as [[]|]; intros H; inversion H.
  reflexivity.
Qed.

(** On locations whose names are strings the loop of lines 78-85 computes
    [resolve], and only writes debug lines. *)
Lemma find_location_resolve (location_name : string) (locations : list pyval) :
  Forall (fun loc => is_Some (name_of loc)) locations ->
  forall st, exists lines,
    find_location location_name locations st
    = (Normal (default VNone (resolve location_name locations)),
       set_log (log st ++ lines) st).
Proof.
  induction 1 as [| loc rest [s Hs] _ IH]; intros st.
  - exists []. simpl. unfold ret. now rewrite set_log_nil.
  - cbn [find_location resolve]. rewrite Hs.
    unfold bind at 1, lift at 1. rewrite (name_of_get _ _ Hs).
    unfold bind at 1, logger at 1. unfold bind at 1, lift at 1.
    cbn [Str.strip_method]. fold (names_match s location_name).
    destruct (names_match s location_name).
    + eexists. unfold bind, logger, ret. cbn [log set_log default].
      rewrite <- app_assoc. reflexivity.
    + destruct (IH (set_log (log st ++ [(DEBUG, ComparingWithConfigLocation (VStr s))]) st))
        as [lines Hrest].
      rewrite Hrest. eexists. cbn [log set_log]. rewrite <- app_assoc. reflexivity.
Qed.

(** C6. A location name is resolved by comparing it with each configured
    name, character for character, after trimming both; the first match
    wins.  If no configured location matches, the evaluation warns and
    returns the empty list, and the cooldown history is as before: no
    alert is built for a location that is not configured. *)
Theorem location_resolution (location_name : string) (weather_data : pyval)
    (locations : list pyval) (st : state) :
  Forall (fun loc => is_Some (name_of loc)) locations ->
  (forall a b, names_match a b = true <-> Str.strip a = Str.strip b) /\
  (exists lines,
     find_location location_name locations st
     = (Normal (default VNone (resolve location_name locations)),
        set_log (log st ++ lines) st)) /\
  (forall container,
     fst (is_quiet_hours clock st) = Normal false ->
     get (config st) "locations" (VList []) = Normal container ->
     iter container = Normal locations ->
     resolve location_name locations = None ->
     exists st' lines,
       check_location_alerts clock repr location_name weather_data st = (Normal [], st') /\
       alert_history st' = alert_history st /\
       log st' = (lines ++ [(WARNING, LocationNotFound location_name)])%list).
Proof.
  intros Hnamed. split; [|split].
  - intros a b. unfold names_match. apply String.eqb_eq.
  - apply find_location_resolve. exact Hnamed.
  - intros container Hq Hget Hiter Hnone.
    destruct (is_quiet_hours clock st) as [q st1] eqn:Hgate. simpl in Hq. subst q.
    destruct (is_quiet_hours_frame clock _ _ _ Hgate) as (Hc & Hh & _).
    destruct (find_location_resolve location_name locations Hnamed
                (set_log (log st1 ++ [(DEBUG, LookingForLocation location_name)]) st1))
      as [lines Hfind].
    rewrite Hnone in Hfind. cbn [default] in Hfind.
    eexists. eexists. split; [|split].
    + unfold check_location_alerts, check_location_alerts_ids.
      unfold bind at 1 2. rewrite Hgate.
      unfold check_configured_alerts.
      unfold bind at 1, logger at 1. unfold bind at 1, get_config.
      cbn [config set_log]. rewrite Hc.
      unfold bind at 1, lift at 1. rewrite Hget.
      unfold bind at 1, lift at 1. rewrite Hiter.
      unfold bind at 1. rewrite Hfind. reflexivity.
    + cbn. exact Hh.
    + cbn. reflexivity.
Qed.

End Resolution.

Example trailing_space_resolves : Spec.names_match "Springfield" "Springfield " = true.
Proof. reflexivity. Qed.

Example lookup_is_case_sensitive : Spec.names_match "springfield" "Springfield" = false.
Proof. reflexivity. Qed.

Lemma location_resolution_witness :
  let st := Sample.checker (Normal Sample.springfield) Sample.springfield in
  exists st' lines,
    check_location_alerts (Sample.clock_from 8 0) Sample.repr_any
      "Shelbyville" (Sample.snapshot 125 0 0) st = (Normal [], st') /\
    alert_history st' = alert_history st /\
    log st' = (lines ++ [(WARNING, LocationNotFound "Shelbyville")])%list.
Proof.
  intros st.
  destruct (location_resolution (Sample.clock_from 8 0) Sample.repr_any
              "Shelbyville" (Sample.snapshot 125 0 0)
              [Sample.place "Springfield"
                 [Sample.rule "temperature" "above" (VInt 30) "Heat warning"]] st)
    as (_ & _ & Hnone).
  - repeat constructor. exists "Springfield". reflexivity.
  - apply (Hnone (VList [Sample.place "Springfield"
                 [Sample.rule "temperature" "above" (VInt 30) "Heat warning"]]));
      reflexivity.
Defined.

(** ** Rules outside the enumeration *)

Section Extraction.

Import Spec.

Ltac case_get :=
  match goal with
  | |- context [match ?o with Normal _ => _ | Raise _ => _ end] =>
      destruct o as [? | []] eqn:?; cbn
  end.

Ltac solve_pure :=
  first [ solve [eexists; exists []; intros ?; rewrite set_log_nil; reflexivity]
        | solve [eexists; eexists; intros ?; reflexivity] ].

(** Extraction depends on the snapshot and the condition only, and writes
    nothing but log lines. *)
Lemma get_condition_value_pure (weather_data condition : pyval) :
  exists out lines, forall st,
    _get_condition_value weather_data condition st = (out, set_log (log st ++ lines) st).
Proof.
  unfold _get_condition_value, try_except.
  repeat match goal with
         | |- context [if eq_str condition ?n then _ else _] => destruct (eq_str condition n)
         end.
  all: unfold bind, lift, logger, ret; cbn.
  all: repeat case_get.
  all: solve_pure.
Qed.

Lemma get_condition_value_unrecognized (weather_data condition : pyval) st :
  recognized_condition condition = false ->
  _get_condition_value weather_data condition st
  = (Normal VNone, set_log (log st ++ [(WARNING, UnknownCondition condition)]) st).
Proof.
  unfold recognized_condition, conditions. cbn [existsb]. intros H.
  repeat (apply orb_false_elim in H as [? H]).
  unfold _get_condition_value, try_except.
  repeat match goal with
         | E : eq_str condition ?n = false |- _ => rewrite E; clear E
         end.
  reflexivity.
Qed.

(** The test of a rule depends on its three arguments only. *)
Lemma matches_pure (current_value operator threshold : pyval) :
  exists out lines, forall st,
    matches current_value operator threshold st = (out, set_log (log st ++ lines) st).
Proof.
  unfold matches.
  destruct current_value;
    repeat match goal with
           | |- context [if eq_str operator ?n then _ else _] => destruct (eq_str operator n)
           end.
  all: unfold bind, lift, logger, ret; cbn.
  all: solve_pure.
Qed.

Lemma matches_unrecognized (current_value operator threshold : pyval) :
  recognized_operator operator = false ->
  exists lines, forall st,
    matches current_value operator threshold st = (Normal false, set_log (log st ++ lines) st).
Proof.
  unfold recognized_operator, operators. cbn [existsb]. intros H.
  repeat (apply orb_false_elim in H as [? H]).
  unfold matches.
  repeat match goal with
         | E : eq_str operator ?n = false |- _ => rewrite E; clear E
         end.
  destruct current_value; unfold bind, logger, ret; cbn.
  all: first [ solve [exists []; intros ?; rewrite set_log_nil; reflexivity]
             | solve [eexists; intros ?; reflexivity] ].
Qed.

Lemma check_condition_pure (weather_data condition operator threshold : pyval) :
  exists out lines, forall st,
    _check_condition weather_data condition operator threshold st
    = (out, set_log (log st ++ lines) st).
Proof.
  destruct (get_condition_value_pure weather_data condition) as ([v | e] & l1 & H1).
  - destruct (matches_pure v operator threshold) as (out & l2 & H2).
    exists out, (l1 ++ l2). intros st. unfold _check_condition, bind.
    rewrite H1, H2. cbn [log set_log]. now rewrite app_assoc.
  - exists (Raise e), l1. intros st. unfold _check_condition, bind. now rewrite H1.
Qed.

End Extraction.

Section UnrecognizedRule.

Import Spec.

Variable clock : nat -> Z.
Variable repr : pyval -> string.

(** A rule whose test does not answer [True] appends nothing and leaves the
    state as the test left it. *)
Lemma check_alert_not_matched location_name weather_data alert c o t out st st' :
  get1 alert "condition" = Normal c ->
  get1 alert "operator" = Normal o ->
  get1 alert "value" = Normal t ->
  _check_condition weather_data c o t st = (out, st') ->
  out <> Normal true ->
  check_alert clock repr location_name weather_data alert st
  = (match out with Normal _ => Normal None | Raise e => Raise e end, st').
Proof.
  intros Hc Ho Ht Hcheck Hout.
  destruct alert; try discriminate Hc.
  unfold check_alert.
  unfold bind at 1, lift at 1. rewrite Hc.
  unfold bind at 1, lift at 1. rewrite Ho.
  unfold bind at 1, lift at 1. rewrite Ht.
  unfold bind at 1, lift at 1. cbn [get].
  unfold bind at 1. rewrite Hcheck.
  destruct out as [[|]|e]; [congruence | reflexivity | reflexivity].
Qed.

(** The test never answers [True] for a rule outside the enumeration; it
    raises only when the extraction of a recognized condition raises. *)
Lemma check_condition_unrecognized weather_data c o t :
  recognized_condition c = false \/ recognized_operator o = false ->
  exists out lines,
    (out = Normal false \/
     exists e, out = Raise e /\ recognized_condition c = true /\
               forall st, fst (_get_condition_value weather_data c st) = Raise e) /\
    forall st, _check_condition weather_data c o t st = (out, set_log (log st ++ lines) st).
Proof.
  intros Hout. destruct (recognized_condition c) eqn:Hc.
  - destruct Hout as [Hc' | Ho]; [discriminate Hc'|].
    destruct (get_condition_value_pure weather_data c) as ([v | e] & l1 & H1).
    + destruct (matches_unrecognized v o t Ho) as (l2 & H2).
      exists (Normal false), (l1 ++ l2). split; [now left|].
      intros st. unfold _check_condition, bind. rewrite H1, H2.
      cbn [log set_log]. now rewrite app_assoc.
    + exists (Raise e), l1. split.
      * right. exists e. repeat split. intros st. now rewrite H1.
      * intros st. unfold _check_condition, bind. now rewrite H1.
  - exists (Normal false), [(WARNING, UnknownCondition c)]. split; [now left|].
    intros st. unfold _check_condition, bind.
    rewrite (get_condition_value_unrecognized _ _ _ Hc). reflexivity.
Qed.

(** C4. A rule whose condition or operator is outside the enumeration
    never yields an alert, and what it does is the same from every state
    and only adds log lines: the cooldown history is neither consulted nor
    changed and the clock is not read.  Whenever the value of its
    condition is extracted without an exception (always, for a condition
    outside the enumeration), the rule is skipped and the rules after it
    are evaluated as if it were not there. *)
Theorem unrecognized_rule_is_skipped (location_name : string)
    (weather_data alert c o : pyval) :
  get1 alert "condition" = Normal c ->
  get1 alert "operator" = Normal o ->
  recognized_condition c = false \/ recognized_operator o = false ->
  (exists out lines,
     (out = Normal None \/ exists e, out = Raise e) /\
     forall st, check_alert clock repr location_name weather_data alert st
                = (out, set_log (log st ++ lines) st)) /\
  (forall st,
     (recognized_condition c = false \/
      exists v, fst (_get_condition_value weather_data c st) = Normal v) ->
     exists lines,
       check_alert clock repr location_name weather_data alert st
       = (Normal None, set_log (log st ++ lines) st) /\
       forall rest,
         check_alerts clock repr location_name weather_data (alert :: rest) st
         = check_alerts clock repr location_name weather_data rest
             (set_log (log st ++ lines) st)).
Proof.
  intros Hc Ho Hout.
  assert (Ht : exists t, get1 alert "value" = Normal t).
  { destruct alert; try discriminate Hc. eexists. reflexivity. }
  destruct Ht as [t Ht].
  destruct (check_condition_unrecognized weather_data c o t Hout) as (out & lines & Hcase & Hrun).
  assert (Hstep : forall st, check_alert clock repr location_name weather_data alert st
     = (match out with Normal _ => Normal None | Raise e => Raise e end,
        set_log (log st ++ lines) st)).
  { intros st. apply (check_alert_not_matched _ _ _ c o t); auto.
    destruct Hcase as [-> | (e & -> & _)]; discriminate. }
  split.
  - exists (match out with Normal _ => Normal None | Raise e => Raise e end), lines.
    split; [|exact Hstep].
    destruct Hcase as [-> | (e & -> & _)]; [now left | right; eauto].
  - intros st Hextract. exists lines.
    assert (Hnormal : out = Normal false).
    { destruct Hcase as [-> | (e & -> & Hrc & Hraise)]; [reflexivity|]. exfalso.
      destruct Hextract as [Hc' | [v Hv]]; [congruence|].
      rewrite Hraise in Hv. discriminate Hv. }
    subst out. split; [apply Hstep|].
    intros rest. cbn [check_alerts]. unfold bind at 1. rewrite Hstep.
    unfold bind. destruct (check_alerts _ _ _ _ rest _) as [[more|e] st2]; reflexivity.
Qed.

End UnrecognizedRule.

Lemma unrecognized_rule_is_skipped_witness :
  let st := Sample.checker (Normal Sample.springfield) Sample.springfield in
  let unknown := Sample.rule "foo" "above" (VInt 30) "Foo" in
  let heat := Sample.rule "temperature" "above" (VInt 30) "Heat warning" in
  exists lines,
    check_alert (Sample.clock_from 8 0) Sample.repr_any "Springfield"
      (Sample.snapshot 125 0 0) unknown st = (Normal None, set_log (log st ++ lines) st) /\
    check_alerts (Sample.clock_from 8 0) Sample.repr_any "Springfield"
      (Sample.snapshot 125 0 0) [unknown; heat] st
    = check_alerts (Sample.clock_from 8 0) Sample.repr_any "Springfield"
        (Sample.snapshot 125 0 0) [heat] (set_log (log st ++ lines) st).
Proof.
  intros st unknown heat.
  destruct (unrecognized_rule_is_skipped (Sample.clock_from 8 0) Sample.repr_any
              "Springfield" (Sample.snapshot 125 0 0) unknown (VStr "foo") (VStr "above")
              eq_refl eq_refl (or_introl eq_refl)) as [_ Hskip].
  destruct (Hskip st (or_introl eq_refl)) as (lines & Hone & Hrest).
  exists lines. split; [exact Hone | apply Hrest].
Defined.

(** ** The cooldown *)

Section Pacing.

Import Spec.

Lemma grows_refl h : grows h h.
Proof. intros k t H. exists t. split; [exact H | lia]. Qed.

Lemma grows_trans h1 h2 h3 : grows h1 h2 -> grows h2 h3 -> grows h1 h3.
Proof.
  intros H12 H23 k t H.
  destruct (H12 k t H) as (t2 & H2 & L2).
  destruct (H23 k t2 H2) as (t3 & H3 & L3).
  exists t3. split; [exact H3 | lia].
Qed.

Lemma paced_nil h h' : grows h h' -> paced h [] h'.
Proof.
  intros G. repeat split; [exact G | intros k t [] | intros k t t0 []].
Qed.

Lemma paced_same h : paced h [] h.
Proof. apply paced_nil, grows_refl. Qed.

Lemma paced_grows h l h' : paced h l h' -> grows h h'.
Proof. now intros (G & _). Qed.

Lemma spaced_app l1 l2 :
  spaced l1 -> spaced l2 ->
  (forall k t t', In (k, t) l1 -> In (k, t') l2 -> cooldown < t' - t) ->
  spaced (l1 ++ l2).
Proof.
  induction l1 as [| [k t] l1 IH]; intros S1 S2 Hx; [exact S2|].
  destruct S1 as [Hk S1]. cbn [app spaced]. split.
  - intros t' Hin. apply in_app_or in Hin as [Hin | Hin].
    + now apply Hk.
    + apply (Hx k t t'); [now left | exact Hin].
  - apply IH; [exact S1 | exact S2 |].
    intros k0 t0 t' Hin1 Hin2. apply (Hx k0 t0 t'); [now right | exact Hin2].
Qed.

(** Two stretches of execution in a row. *)
Lemma paced_app h l1 h1 l2 h2 :
  paced h l1 h1 -> paced h1 l2 h2 -> paced h (l1 ++ l2) h2.
Proof.
  intros (G1 & R1 & A1 & S1) (G2 & R2 & A2 & S2). repeat split.
  - eapply grows_trans; eassumption.
  - intros k t Hin. apply in_app_or in Hin as [Hin | Hin].
    + destruct (R1 k t Hin) as (t1 & H1 & L1).
      destruct (G2 k t1 H1) as (t2 & H2 & L2).
      exists t2. split; [exact H2 | lia].
    + now apply R2.
  - intros k t t0 Hin H0. apply in_app_or in Hin as [Hin | Hin].
    + now apply (A1 k t t0).
    + destruct (G1 k t0 H0) as (t1 & H1 & L1).
      pose proof (A2 k t t1 Hin H1). lia.
  - apply spaced_app; [exact S1 | exact S2 |].
    intros k t t' Hin1 Hin2.
    destruct (R1 k t Hin1) as (t1 & H1 & L1).
    pose proof (A2 k t' t1 Hin2 H1). lia.
Qed.

(** A firing that the cooldown check has let pass. *)
Lemma paced_fire (h : gmap string Z) k now :
  match h !! k with None => true | Some last => Time.elapsed_gt now last 21600 end = true ->
  paced h [(k, now)] (<[k := now]> h).
Proof.
  intros Hpass.
  assert (Hlast : forall last, h !! k = Some last -> cooldown < now - last).
  { intros last Hl. rewrite Hl in Hpass. unfold Time.elapsed_gt in Hpass.
    apply Z.ltb_lt in Hpass. exact Hpass. }
  split; [|split; [|split]].
  - intros k0 t0 H0. destruct (decide (k = k0)) as [-> | Hne].
    + exists now. rewrite lookup_insert_eq. split; [reflexivity|].
      specialize (Hlast t0 H0). unfold cooldown, Time.usec_per_second in Hlast. lia.
    + exists t0. rewrite lookup_insert_ne by exact Hne. split; [exact H0 | lia].
  - intros k0 t0 [Heq | []]. inversion Heq; subst.
    exists t0. rewrite lookup_insert_eq. split; [reflexivity | lia].
  - intros k0 t0 t1 [Heq | []] H1. inversion Heq; subst. now apply Hlast.
  - split; [intros t' [] | exact I].
Qed.

End Pacing.

Section Cooldown.

Import Spec.

Variable clock : nat -> Z.
Variable repr : pyval -> string.

(** What [trigger] does, given what the extraction of the value yields. *)
Lemma trigger_run location_name weather_data c o t message out lines :
  (forall st, _get_condition_value weather_data c st = (out, set_log (log st ++ lines) st)) ->
  forall st,
    let key := alert_id_of repr location_name c o t in
    let now := clock (ticks st) in
    let recorded := set_alert_history (<[key := now]> (alert_history st))
                                      (set_ticks (S (ticks st)) st) in
    trigger clock repr location_name weather_data c o t message st
    = if match alert_history st !! key with
         | None => true
         | Some last => Time.elapsed_gt now last 21600
         end
      then match out with
           | Normal value =>
               let triggered :=
                 {| location := location_name; condition := c; threshold := t;
                    current_value := value; message := message; timestamp := now |} in
               (Normal (Some (key, triggered)),
                set_log (log st ++ lines ++ [(INFO, AlertTriggered triggered)]) recorded)
           | Raise e => (Raise e, set_log (log st ++ lines) recorded)
           end
      else (Normal None, set_ticks (S (ticks st)) st).
Proof.
  intros Hget st key now recorded.
  unfold trigger. fold key.
  unfold bind at 1, get_alert_history at 1.
  unfold bind at 1, datetime_now at 1. fold now.
  destruct (match alert_history st !! key with
            | None => true
            | Some last => Time.elapsed_gt now last 21600
            end); [|reflexivity].
  unfold bind at 1. cbn [alert_history set_ticks]. fold recorded.
  unfold bind at 1. rewrite Hget.
  destruct out as [value | e]; [|reflexivity].
  unfold bind, logger, ret. cbn [log set_log]. rewrite <- app_assoc. reflexivity.
Qed.

(** The history after [trigger], and the firing it hands over. *)
Lemma trigger_paced location_name weather_data c o t message st out st' :
  trigger clock repr location_name weather_data c o t message st = (out, st') ->
  paced (alert_history st)
        (match out with Normal (Some a) => stamps [a] | _ => [] end)
        (alert_history st').
Proof.
  destruct (get_condition_value_pure weather_data c) as (v & lines & Hget).
  rewrite (trigger_run location_name weather_data c o t message v lines Hget st).
  cbv zeta.
  destruct (match alert_history st !! _ with
            | None => true
            | Some last => Time.elapsed_gt (clock (ticks st)) last 21600
            end) eqn:Hpass.
  - destruct v as [value | e]; intros H; inversion H; subst; cbn.
    + apply paced_fire. exact Hpass.
    + apply paced_nil. eapply paced_grows. apply paced_fire. exact Hpass.
  - intros H; inversion H; subst. cbn. apply paced_same.
Qed.

(** The loop body. *)
Lemma check_alert_paced location_name weather_data alert st out st' :
  check_alert clock repr location_name weather_data alert st = (out, st') ->
  paced (alert_history st)
        (match out with Normal (Some a) => stamps [a] | _ => [] end)
        (alert_history st').
Proof.
  unfold check_alert.
  destruct alert; try (intros H; inversion H; subst; apply paced_same).
  unfold bind at 1, lift at 1. cbn [get1 get].
  unfold bind at 1, lift at 1. unfold bind at 1, lift at 1. unfold bind at 1, lift at 1.
  unfold bind at 1.
  match goal with
  | |- context [_check_condition ?w ?c ?o ?t st] =>
      destruct (check_condition_pure w c o t) as (r & lines & Hrun); rewrite Hrun
  end.
  destruct r as [[|]|e].
  - intros H. apply trigger_paced in H. exact H.
  - intros H; inversion H; subst. apply paced_same.
  - intros H; inversion H; subst. apply paced_same.
Qed.

(** The loop over the alerts of a location. *)
Lemma check_alerts_paced location_name weather_data alerts :
  forall st out st',
    check_alerts clock repr location_name weather_data alerts st = (out, st') ->
    paced (alert_history st)
          (match out with Normal fired => stamps fired | Raise _ => [] end)
          (alert_history st').
Proof.
  induction alerts as [| alert rest IH]; intros st out st' H.
  - inversion H; subst. apply paced_same.
  - cbn [check_alerts] in H. unfold bind at 1 in H.
    destruct (check_alert clock repr location_name weather_data alert st)
      as [[fired | e] st1] eqn:Hone.
    + apply check_alert_paced in Hone.
      unfold bind at 1 in H.
      destruct (check_alerts clock repr location_name weather_data rest st1)
        as [[more | e] st2] eqn:Hmore.
      * apply IH in Hmore. inversion H; subst.
        destruct fired as [a|].
        -- apply (paced_app _ _ _ _ _ Hone Hmore).
        -- apply (paced_app _ _ _ _ _ Hone Hmore).
      * apply IH in Hmore. inversion H; subst.
        apply paced_nil. eapply grows_trans; eapply paced_grows; eassumption.
    + apply check_alert_paced in Hone. inversion H; subst. exact Hone.
Qed.

Lemma find_location_history location_name locations :
  forall st out st',
    find_location location_name locations st = (out, st') ->
    alert_history st' = alert_history st.
Proof.
  induction locations as [| loc rest IH]; intros st out st' H.
  - inversion H; reflexivity.
  - cbn [find_location] in H. unfold bind at 1, lift at 1 in H.
    destruct (get loc "name" (VStr "")) as [config_name | e]; [|inversion H; reflexivity].
    unfold bind at 1, logger at 1 in H. unfold bind at 1, lift at 1 in H.
    destruct (Str.strip_method config_name) as [stripped | e]; [|inversion H; reflexivity].
    destruct (String.eqb stripped (Str.strip location_name)).
    + inversion H; reflexivity.
    + apply IH in H. exact H.
Qed.

Lemma check_configured_alerts_paced location_name weather_data st out st' :
  check_configured_alerts clock repr location_name weather_data st = (out, st') ->
  paced (alert_history st)
        (match out with Normal fired => stamps fired | Raise _ => [] end)
        (alert_history st').
Proof.
  unfold check_configured_alerts.
  unfold bind at 1, logger at 1. unfold bind at 1, get_config at 1.
  unfold bind at 1, lift at 1. cbn [config set_log].
  destruct (get (config st) "locations" (VList [])) as [container | e];
    [|intros H; inversion H; apply paced_same].
  unfold bind at 1, lift at 1.
  destruct (iter container) as [locations | e]; [|intros H; inversion H; apply paced_same].
  unfold bind at 1.
  destruct (find_location location_name locations _) as [[location | e] st1] eqn:Hfind;
    apply find_location_history in Hfind; cbn [alert_history set_log] in Hfind;
    [|intros H; inversion H; subst; rewrite Hfind; apply paced_same].
  destruct (negb (truthy location)).
  - intros H; inversion H; subst. cbn. rewrite Hfind. apply paced_same.
  - unfold bind at 1, lift at 1.
    destruct (get location "alerts" (VList [])) as [alerts | e];
      [|intros H; inversion H; subst; rewrite Hfind; apply paced_same].
    unfold bind at 1, lift at 1.
    destruct (iter alerts) as [rules | e];
      [|intros H; inversion H; subst; rewrite Hfind; apply paced_same].
    intros H. apply check_alerts_paced in H. rewrite Hfind in H. exact H.
Qed.

Lemma check_location_alerts_ids_paced location_name weather_data st out st' :
  check_location_alerts_ids clock repr location_name weather_data st = (out, st') ->
  paced (alert_history st)
        (match out with Normal fired => stamps fired | Raise _ => [] end)
        (alert_history st').
Proof.
  unfold check_location_alerts_ids. unfold bind at 1.
  destruct (is_quiet_hours clock st) as [[quiet | e] st1] eqn:Hgate;
    apply is_quiet_hours_frame in Hgate as (_ & Hh & _).
  - destruct quiet.
    + intros H; inversion H; subst. cbn. rewrite Hh. apply paced_same.
    + intros H. apply check_configured_alerts_paced in H. rewrite Hh in H. exact H.
  - intros H; inversion H; subst. rewrite Hh. apply paced_same.
Qed.

Lemma load_config_history st out st' :
  _load_config st = (out, st') -> alert_history st' = alert_history st.
Proof.
  unfold _load_config, try_except, bind, lift, logger, ret, raise.
  destruct (config_file st) as [cfg | e0]; simpl.
  - destruct (get cfg "locations" (VList [])) as [locs | e1]; simpl.
    + destruct (iter locs) as [l | e2]; simpl.
      * destruct (map_outcome _ l) as [names | e3]; simpl.
        -- intros H; inversion H; reflexivity.
        -- destruct e3; intros H; inversion H; reflexivity.
      * destruct e2; intros H; inversion H; reflexivity.
    + destruct e1; intros H; inversion H; reflexivity.
  - destruct e0; intros H; inversion H; reflexivity.
Qed.

Lemma refresh_config_history st : alert_history (snd (refresh_config st)) = alert_history st.
Proof.
  unfold refresh_config, bind.
  destruct (_load_config st) as [[cfg | e] st1] eqn:Hload;
    apply load_config_history in Hload; exact Hload.
Qed.

(** One call of the caller. *)
Lemma perform_paced (c : call) st :
  paced (alert_history st) (stamps (fst (perform clock repr c st)))
        (alert_history (snd (perform clock repr c st))).
Proof.
  destruct c as [location_name weather_data | | file]; cbn [perform].
  - destruct (check_location_alerts_ids clock repr location_name weather_data st)
      as [[fired | e] st1] eqn:Hrun;
      apply check_location_alerts_ids_paced in Hrun; exact Hrun.
  - cbn [fst snd]. rewrite refresh_config_history. apply paced_same.
  - apply paced_same.
Qed.

(** Any sequence of calls. *)
Lemma run_paced (calls : list call) :
  forall st, exists h', paced (alert_history st) (stamps (run clock repr calls st)) h'.
Proof.
  induction calls as [| c rest IH]; intros st.
  - exists (alert_history st). apply paced_same.
  - destruct (IH (snd (perform clock repr c st))) as [h' Hrest].
    exists h'. cbn [run]. unfold stamps in *. rewrite map_app.
    eapply paced_app; [apply perform_paced | exact Hrest].
Qed.

(** A rule whose test answers [True] goes through [trigger], and the value
    of its condition is extracted again without an exception. *)
Lemma check_alert_matched location_name weather_data alert c o t st st1 :
  get1 alert "condition" = Normal c ->
  get1 alert "operator" = Normal o ->
  get1 alert "value" = Normal t ->
  _check_condition weather_data c o t st = (Normal true, st1) ->
  exists message value lines,
    (forall st0, _get_condition_value weather_data c st0
                 = (Normal value, set_log (log st0 ++ lines) st0)) /\
    alert_history st1 = alert_history st /\ ticks st1 = ticks st /\
    check_alert clock repr location_name weather_data alert st
    = trigger clock repr location_name weather_data c o t message st1.
Proof.
  intros Hc Ho Ht Hcheck.
  destruct alert; try discriminate Hc.
  destruct (get_condition_value_pure weather_data c) as (out & lines & Hget).
  destruct (check_condition_pure weather_data c o t) as (r & lines' & Hrun).
  pose proof Hcheck as Hst. rewrite Hrun in Hst. inversion Hst; subst r st1.
  destruct out as [value | e].
  - eexists. exists value, lines. split; [exact Hget|]. split; [reflexivity|].
    split; [reflexivity|].
    unfold check_alert.
    unfold bind at 1, lift at 1. rewrite Hc.
    unfold bind at 1, lift at 1. rewrite Ho.
    unfold bind at 1, lift at 1. rewrite Ht.
    unfold bind at 1, lift at 1. cbn [get].
    unfold bind at 1. rewrite Hcheck. reflexivity.
  - unfold _check_condition, bind in Hcheck. rewrite Hget in Hcheck. discriminate Hcheck.
Qed.

(** C1. For every [alert_id] (location name, condition, operator and
    threshold): a matching rule with no recorded firing fires, and the
    time of the firing is recorded; with a recorded firing it fires again
    exactly when more than 21600 seconds have passed since, six hours to
    the microsecond being too early, and every firing replaces the record.
    Hence, over any sequence of evaluations, reloads and changes of the
    configuration file, two firings of one [alert_id] are more than six
    hours apart. *)
Theorem cooldown_six_hours :
  (forall location_name weather_data alert c o t st st1,
     get1 alert "condition" = Normal c ->
     get1 alert "operator" = Normal o ->
     get1 alert "value" = Normal t ->
     _check_condition weather_data c o t st = (Normal true, st1) ->
     let key := alert_id_of repr location_name c o t in
     let now := clock (ticks st) in
     let fires :=
       exists a st',
         check_alert clock repr location_name weather_data alert st
         = (Normal (Some (key, a)), st') /\
         timestamp a = now /\
         alert_history st' = <[key := now]> (alert_history st) in
     (alert_history st !! key = None -> fires) /\
     (forall last, alert_history st !! key = Some last ->
        (cooldown < now - last -> fires) /\
        (now - last <= cooldown ->
         exists st', check_alert clock repr location_name weather_data alert st
                     = (Normal None, st') /\
                     alert_history st' = alert_history st))) /\
  (forall calls st, spaced (stamps (run clock repr calls st))).
Proof.
  split.
  - intros location_name weather_data alert c o t st st1 Hc Ho Ht Hcheck key now fires.
    destruct (check_alert_matched location_name weather_data alert c o t st st1 Hc Ho Ht Hcheck)
      as (message & value & lines & Hget & Hh & Hticks & Hstep).
    pose proof (trigger_run location_name weather_data c o t message
                  (Normal value) lines Hget st1) as Htrig.
    cbv zeta in Htrig. rewrite Hh, Hticks in Htrig. fold key now in Htrig.
    rewrite <- Hstep in Htrig.
    assert (Hfire :
      match alert_history st !! key with
      | None => true
      | Some last => Time.elapsed_gt now last 21600
      end = true -> fires).
    { intros Hpass. rewrite Hpass in Htrig. unfold fires.
      eexists. eexists. split; [exact Htrig|]. split; reflexivity. }
    split.
    + intros Hnone. apply Hfire. now rewrite Hnone.
    + intros last Hlast. split.
      * intros Hgt. apply Hfire. rewrite Hlast.
        unfold Time.elapsed_gt. apply Z.ltb_lt. exact Hgt.
      * intros Hle. rewrite Hlast in Htrig.
        unfold Time.elapsed_gt in Htrig. fold cooldown in Htrig.
        destruct (Z.ltb_spec cooldown (now - last)) as [Hgt | _]; [lia|].
        eexists. split; [exact Htrig|]. cbn. exact Hh.
  - intros calls st. destruct (run_paced calls st) as (h' & _ & _ & _ & Hspaced).
    exact Hspaced.
Qed.

End Cooldown.

(** The scenario of a rule that matches at every evaluation: it fires at
    08:00, not one hour later, not six hours later to the second, and again
    one second after that. *)
Example springfield_scenario :
  Spec.stamps
    (Spec.run (Sample.clock_at [0; 3600; 21600; 21601]) Sample.repr_any
       [Spec.Evaluate "Springfield" (Sample.snapshot 125 0 0);
        Spec.Evaluate "Springfield" (Sample.snapshot 125 0 0);
        Spec.Evaluate "Springfield" (Sample.snapshot 125 0 0);
        Spec.Evaluate "Springfield" (Sample.snapshot 125 0 0)]
       (Sample.checker (Normal Sample.springfield) Sample.springfield))
  = [("Springfield_temperature_above_30", 8 * 3600 * 1000000);
     ("Springfield_temperature_above_30", (8 * 3600 + 21601) * 1000000)].
Proof. vm_compute. reflexivity. Qed.

Lemma cooldown_six_hours_witness :
  let st := Sample.checker (Normal Sample.springfield) Sample.springfield in
  let heat := Sample.rule "temperature" "above" (VInt 30) "Heat warning" in
  exists a st',
    check_alert (Sample.clock_from 8 0) Sample.repr_any "Springfield"
      (Sample.snapshot 125 0 0) heat st
    = (Normal (Some ("Springfield_temperature_above_30", a)), st') /\
    timestamp a = Sample.clock_from 8 0 0 /\
    alert_history st'
    = <["Springfield_temperature_above_30" := Sample.clock_from 8 0 0]> (alert_history st).
Proof.
  intros st heat.
  destruct (cooldown_six_hours (Sample.clock_from 8 0) Sample.repr_any) as [Hrule _].
  apply (Hrule "Springfield" (Sample.snapshot 125 0 0) heat
           (VStr "temperature") (VStr "above") (VInt 30) st st
           eq_refl eq_refl eq_refl eq_refl).
  reflexivity.
Defined.

(** ** Evaluations that cannot raise *)

Section NoException.

Import Spec.

Variable clock : nat -> Z.
Variable repr : pyval -> string.

Ltac finish_extraction :=
  first [ solve [eexists; exists []; split;
                 [|intros ?; rewrite set_log_nil; reflexivity];
                 first [assumption | reflexivity]]
        | solve [eexists; eexists; split; [|intros ?; reflexivity];
                 first [assumption | reflexivity]] ].

Lemma numeric_add (a b : pyval) :
  numeric a = true -> numeric b = true ->
  (exists v, add a b = Normal v /\ numeric v = true) \/ add a b = Raise OverflowError.
Proof.
  unfold numeric. intros Ha Hb.
  destruct (as_num a) as [x|] eqn:Hx; [|discriminate Ha].
  destruct (as_num b) as [y|] eqn:Hy; [|discriminate Hb].
  assert (Hadd : add a b = num_add x y).
  { destruct a; try discriminate Hx; destruct b; try discriminate Hy;
      cbn [add]; cbn [as_num] in *; rewrite ?Hx, ?Hy; inversion Hx; inversion Hy; reflexivity. }
  rewrite Hadd. destruct x as [m | f], y as [n | g]; cbn [num_add].
  - left. eexists. split; reflexivity.
  - unfold int_to_float. destruct (binary_normalize prec emax m 0 false); cbn [obind];
      (left; eexists; split; reflexivity) || (right; reflexivity).
  - unfold int_to_float. destruct (binary_normalize prec emax n 0 false); cbn [obind];
      (left; eexists; split; reflexivity) || (right; reflexivity).
  - left. eexists. split; reflexivity.
Qed.

Lemma optional_number_add (a b : pyval) :
  optional_number a = true -> optional_number b = true ->
  (exists v, add a b = Normal v /\ numeric v = true) \/
  add a b = Raise OverflowError \/ add a b = Raise TypeError.
Proof.
  intros Ha Hb.
  destruct (numeric a) eqn:Na, (numeric b) eqn:Nb.
  - destruct (numeric_add a b Na Nb) as [H | H]; auto.
  - right. right. destruct b; try discriminate Nb; try discriminate Hb.
    destruct a; try discriminate Na; reflexivity.
  - right. right. destruct a; try discriminate Na; try discriminate Ha.
    destruct b; reflexivity.
  - right. right. destruct a; try discriminate Na; try discriminate Ha.
    destruct b; reflexivity.
Qed.

Lemma numeric_optional v : numeric v = true -> optional_number v = true.
Proof. destruct v; simpl; auto. Qed.

(** On a well-shaped snapshot every extraction returns, and the value is a
    number or [None]. *)
Lemma extraction_returns (weather_data : pyval) :
  snapshot_ok weather_data = true ->
  forall c, exists v lines,
    optional_number v = true /\
    forall st, _get_condition_value weather_data c st = (Normal v, set_log (log st ++ lines) st).
Proof.
  intros Hok c.
  destruct weather_data as [| | | | | | d]; try discriminate Hok.
  cbn [snapshot_ok] in Hok.
  apply andb_prop in Hok as [Hok Hprecip].
  apply andb_prop in Hok as [Hok Hclouds].
  apply andb_prop in Hok as [Hok Hwind].
  apply andb_prop in Hok as [Hok Hpressure].
  apply andb_prop in Hok as [Htemp Hhumidity].
  unfold block_ok in Htemp, Hwind. unfold precipitation_ok in Hprecip.
  destruct (item d "temperature" (VDict [])) as [| | | | | | t] eqn:Et; try discriminate Htemp.
  destruct (item d "wind" (VDict [])) as [| | | | | | w] eqn:Ew; try discriminate Hwind.
  destruct (item d "precipitation" (VDict [])) as [| | | | | | p] eqn:Ep; try discriminate Hprecip.
  cbn [forallb] in Htemp, Hwind.
  apply andb_prop in Htemp as [Hcurrent Hfeels]. apply andb_prop in Hfeels as [Hfeels _].
  apply andb_prop in Hwind as [Hspeed _].
  cbv zeta in Hprecip.
  apply andb_prop in Hprecip as [Hrs Hsum]. apply andb_prop in Hrs as [Hrain Hsnow].
  unfold _get_condition_value, try_except.
  repeat match goal with
         | |- context [if eq_str c ?n then _ else _] => destruct (eq_str c n)
         end.
  all: unfold bind, lift, logger, ret, get1; cbn [get]; rewrite ?Et, ?Ew, ?Ep; cbn [get].
  all: try finish_extraction.
  destruct (optional_number_add _ _ Hrain Hsnow) as [(v & Hv & Nv) | [Hv | Hv]];
    rewrite Hv in *.
  - apply numeric_optional in Nv. finish_extraction.
  - discriminate Hsum.
  - cbn. finish_extraction.
Qed.

Lemma numeric_order (op : order_op) (a b : pyval) :
  numeric a = true -> numeric b = true -> exists r, order op a b = Normal r.
Proof.
  unfold numeric. intros Ha Hb.
  destruct (as_num a) as [x|] eqn:Hx; [|discriminate Ha].
  destruct (as_num b) as [y|] eqn:Hy; [|discriminate Hb].
  eexists. apply (order_numbers op a b x y Hx Hy).
Qed.

(** The test of a rule returns when the value is a number or [None] and
    the threshold of an ordering is a number. *)
Lemma matches_returns (v o t : pyval) :
  optional_number v = true ->
  (eq_str o "above" || eq_str o "below" = true -> numeric t = true) ->
  exists r lines, forall st, matches v o t st = (Normal r, set_log (log st ++ lines) st).
Proof.
  intros Hv Ht.
  destruct (matches_pure v o t) as (out & lines & Hrun).
  destruct out as [r | e]; [eauto|]. exfalso.
  pose proof (Hrun (Sample.checker (Raise KeyError) VNone)) as H.
  assert (Nv : v = VNone \/ numeric v = true).
  { destruct v; auto. }
  destruct Nv as [-> | Nv]; [discriminate H|].
  unfold matches in H.
  destruct (eq_str o "above") eqn:Ea.
  - specialize (Ht eq_refl). destruct (numeric_order OpGt v t Nv Ht) as [r Hr].
    unfold gt, lift in H. rewrite Hr in H. destruct v; discriminate H.
  - destruct (eq_str o "below") eqn:Eb.
    + specialize (Ht eq_refl). destruct (numeric_order OpLt v t Nv Ht) as [r Hr].
      unfold lt, lift in H. rewrite Hr in H. destruct v; discriminate H.
    + destruct (eq_str o "equals"); destruct v; discriminate H.
Qed.

Lemma check_condition_returns (weather_data c o t : pyval) :
  snapshot_ok weather_data = true ->
  (recognized_condition c && (eq_str o "above" || eq_str o "below") = true ->
   numeric t = true) ->
  exists r lines, forall st,
    _check_condition weather_data c o t st = (Normal r, set_log (log st ++ lines) st).
Proof.
  intros Hok Ht.
  destruct (extraction_returns weather_data Hok c) as (v & l1 & Hv & Hget).
  assert (Hm : exists r l2, forall st, matches v o t st = (Normal r, set_log (log st ++ l2) st)).
  { destruct (recognized_condition c) eqn:Hc.
    - apply matches_returns; [exact Hv | exact Ht].
    - pose proof (Hget (Sample.checker (Raise KeyError) VNone)) as H.
      rewrite (get_condition_value_unrecognized _ _ _ Hc) in H.
      inversion H; subst v. exists false, []. intros st. cbn. unfold ret.
      now rewrite set_log_nil. }
  destruct Hm as (r & l2 & Hm).
  exists r, (l1 ++ l2). intros st. unfold _check_condition, bind.
  rewrite Hget, Hm. cbn [log set_log]. now rewrite app_assoc.
Qed.

Lemma trigger_returns location_name weather_data c o t message :
  snapshot_ok weather_data = true ->
  forall st, exists r st',
    trigger clock repr location_name weather_data c o t message st = (Normal r, st').
Proof.
  intros Hok st.
  destruct (extraction_returns weather_data Hok c) as (v & lines & _ & Hget).
  rewrite (trigger_run clock repr location_name weather_data c o t message _ _ Hget st).
  cbv zeta. destruct (match alert_history st !! _ with None => true | Some _ => _ end); eauto.
Qed.

(** The loop body returns on a well-shaped rule and snapshot. *)
Lemma check_alert_returns location_name weather_data alert :
  snapshot_ok weather_data = true -> rule_ok alert = true ->
  forall st, exists r st',
    check_alert clock repr location_name weather_data alert st = (Normal r, st').
Proof.
  intros Hok Hrule st.
  destruct alert as [| | | | | | r]; try discriminate Hrule.
  cbn [rule_ok] in Hrule.
  destruct (check_condition_returns weather_data
              (item r "condition" VNone) (item r "operator" VNone) (item r "value" VNone) Hok)
    as (b & lines & Hrun).
  { intros H. rewrite H in Hrule. exact Hrule. }
  unfold check_alert.
  unfold bind at 1, lift at 1. cbn [get1 get].
  unfold bind at 1, lift at 1. unfold bind at 1, lift at 1. unfold bind at 1, lift at 1.
  unfold bind at 1. rewrite Hrun.
  destruct b; [apply trigger_returns; exact Hok | unfold ret; eauto].
Qed.

Lemma check_alerts_returns location_name weather_data alerts :
  snapshot_ok weather_data = true -> forallb rule_ok alerts = true ->
  forall st, exists fired st',
    check_alerts clock repr location_name weather_data alerts st = (Normal fired, st').
Proof.
  intros Hok. induction alerts as [| alert rest IH]; intros Hrules st.
  - cbn. unfold ret. eauto.
  - cbn [forallb] in Hrules. apply andb_prop in Hrules as [Hrule Hrest].
    destruct (check_alert_returns location_name weather_data alert Hok Hrule st)
      as (r & st1 & Hone).
    destruct (IH Hrest st1) as (more & st2 & Hmore).
    cbn [check_alerts]. unfold bind at 1. rewrite Hone.
    unfold bind at 1. rewrite Hmore. unfold ret. eauto.
Qed.

Lemma is_quiet_hours_returns st :
  config_ok (config st) = true ->
  exists quiet st', is_quiet_hours clock st = (Normal quiet, st') /\ config st' = config st.
Proof.
  intros Hok.
  assert (Hrun : exists quiet st', is_quiet_hours clock st = (Normal quiet, st')).
  { destruct (config st) as [| | | | | | c] eqn:Hc; try discriminate Hok.
    cbn [config_ok] in Hok. apply andb_prop in Hok as [Hq _].
    unfold quiet_hours_ok in Hq.
    destruct (item c "preferences" (VDict [])) as [| | | | | | p] eqn:Ep; try discriminate Hq.
    destruct (item p "quiet_hours" (VDict [])) as [| | | | | | q] eqn:Eq; try discriminate Hq.
    assert (Hset : quiet_hours_setting (config st) (item q "enabled" (VBool false))
                     (item q "start" (VStr "22:00")) (item q "end" (VStr "07:00"))).
    { exists (VDict p), (VDict q). rewrite Hc. cbn [get]. rewrite Ep, Eq. auto. }
    destruct (truthy (item q "enabled" (VBool false))) eqn:Hen.
    - apply andb_prop in Hq as [Hs He].
      destruct (item q "start" (VStr "22:00")) as [| | | | start_str | |]; try discriminate Hs.
      destruct (item q "end" (VStr "07:00")) as [| | | | end_str | |]; try discriminate He.
      rewrite (is_quiet_hours_enabled clock st _ _ _ Hset Hen).
      unfold try_except, bind, lift.
      destruct (strptime_HM_str start_str) as [(h1 & m1 & H1) | H1]; rewrite H1;
        [|unfold logger, ret; eauto].
      destruct (strptime_HM_str end_str) as [(h2 & m2 & H2) | H2]; rewrite H2;
        [|unfold logger, ret; eauto].
      cbn [fst snd]. destruct (_ <? _); unfold ret; eauto.
    - rewrite (is_quiet_hours_disabled clock st _ _ _ Hset Hen). eauto. }
  destruct Hrun as (quiet & st' & Hrun). exists quiet, st'. split; [exact Hrun|].
  apply is_quiet_hours_frame in Hrun. tauto.
Qed.

Lemma location_ok_named loc : location_ok loc = true -> is_Some (name_of loc).
Proof.
  destruct loc as [| | | | | | l]; try discriminate. cbn [location_ok].
  intros H. apply andb_prop in H as [Hname _].
  unfold name_of. cbn [get].
  destruct (item l "name" (VStr "")); try discriminate Hname. eauto.
Qed.

Lemma resolve_in location_name locations loc :
  resolve location_name locations = Some loc -> In loc locations.
Proof.
  induction locations as [| l rest IH]; cbn [resolve]; [discriminate|].
  destruct (name_of l) as [n|].
  - destruct (names_match n location_name).
    + intros H; inversion H. now left.
    + intros H. right. auto.
  - intros H. right. auto.
Qed.

(** C8, as the code has it.  On a configuration of the shape of the
    schema and a snapshot of the shape the API builds, the evaluation
    returns a list and never raises.  Rules may lack a condition, an
    operator, a message or a value, or have one of another type; the one
    requirement on a rule is that a value compared with 'above' or 'below'
    under a condition of the enumeration is a number. *)
Theorem evaluation_returns (location_name : string) (weather_data : pyval) (st : state) :
  config_ok (config st) = true ->
  snapshot_ok weather_data = true ->
  exists alerts st',
    check_location_alerts clock repr location_name weather_data st = (Normal alerts, st').
Proof.
  intros Hcfg Hsnap.
  assert (Hids : exists fired st',
    check_location_alerts_ids clock repr location_name weather_data st = (Normal fired, st')).
  { destruct (is_quiet_hours_returns st Hcfg) as (quiet & st1 & Hgate & Hc).
    unfold check_location_alerts_ids. unfold bind at 1. rewrite Hgate.
    destruct quiet; [unfold bind, logger, ret; eauto|].
    unfold check_configured_alerts.
    unfold bind at 1, logger at 1. unfold bind at 1, get_config at 1.
    cbn [config set_log]. rewrite Hc.
    destruct (config st) as [| | | | | | c]; try discriminate Hcfg.
    cbn [config_ok] in Hcfg. apply andb_prop in Hcfg as [_ Hlocs].
    unfold bind at 1, lift at 1. cbn [get].
    destruct (item c "locations" (VList [])) as [| | | | | locations |]; try discriminate Hlocs.
    unfold bind at 1, lift at 1. cbn [iter].
    rewrite forallb_forall in Hlocs.
    assert (Hnamed : Forall (fun loc => is_Some (name_of loc)) locations).
    { apply List.Forall_forall. intros loc Hin. apply location_ok_named, Hlocs, Hin. }
    destruct (find_location_resolve location_name locations Hnamed
                (set_log (log st1 ++ [(DEBUG, LookingForLocation location_name)]) st1))
      as [lines Hfind].
    unfold bind at 1. rewrite Hfind.
    destruct (resolve location_name locations) as [loc|] eqn:Hres; cbv [default from_option id].
    - apply resolve_in in Hres. apply Hlocs in Hres.
      destruct loc as [| | | | | | l]; try discriminate Hres.
      cbn [location_ok] in Hres. apply andb_prop in Hres as [_ Hrules].
      destruct (negb (truthy (VDict l))); [unfold bind, logger, ret; eauto|].
      unfold bind at 1, lift at 1. cbn [get].
      destruct (item l "alerts" (VList [])) as [| | | | | rules |]; try discriminate Hrules.
      unfold bind at 1, lift at 1. cbn [iter].
      apply check_alerts_returns; assumption.
    - cbn. unfold bind, logger, ret. eauto. }
  destruct Hids as (fired & st' & Hids).
  exists (map snd fired), st'.
  unfold check_location_alerts, bind. rewrite Hids. reflexivity.
Qed.

End NoException.

(** The claim that an evaluation never raises, whatever the rules lack,
    fails: a rule with the operator 'above' and no value compares the
    humidity with [None], and the [TypeError] leaves the method. *)
Lemma missing_value_raises :
  fst (check_location_alerts (Sample.clock_from 8 0) Sample.repr_any "Springfield"
         (Sample.snapshot 125 0 0)
         (Sample.checker (Normal Sample.springfield_no_value) Sample.springfield_no_value))
  = Raise TypeError.
Proof. vm_compute. reflexivity. Qed.

(** Outside the shapes the evaluation can raise as well: a block that is
    not a dict, a configured name that is not a string, a quiet-hours time
    that is not a string, and a sum beyond the range of floats. *)
Example block_not_a_dict_raises :
  fst (check_location_alerts (Sample.clock_from 8 0) Sample.repr_any "Springfield"
         (VDict [("temperature", VInt 31)])
         (Sample.checker (Normal Sample.springfield) Sample.springfield))
  = Raise AttributeError.
Proof. vm_compute. reflexivity. Qed.

Example name_not_a_string_raises :
  let config := Sample.settings [VDict [("name", VInt 5)]] (VDict []) in
  fst (check_location_alerts (Sample.clock_from 8 0) Sample.repr_any "Springfield"
         (Sample.snapshot 125 0 0) (Sample.checker (Normal config) config))
  = Raise AttributeError.
Proof. vm_compute. reflexivity. Qed.

Example time_not_a_string_raises :
  let config :=
    Sample.settings []
      (VDict [("quiet_hours", VDict [("enabled", VBool true); ("start", VInt 22)])]) in
  fst (check_location_alerts (Sample.clock_from 8 0) Sample.repr_any "Springfield"
         (Sample.snapshot 125 0 0) (Sample.checker (Normal config) config))
  = Raise TypeError.
Proof. vm_compute. reflexivity. Qed.

Example sum_out_of_range_raises :
  let config :=
    Sample.settings
      [Sample.place "Springfield" [Sample.rule "precipitation" "above" (VInt 3) "Rain"]]
      (VDict []) in
  fst (check_location_alerts (Sample.clock_from 8 0) Sample.repr_any "Springfield"
         (VDict [("precipitation", VDict [("rain", VInt (2 ^ 1024)); ("snow", Sample.flt 3 (-1))])])
         (Sample.checker (Normal config) config))
  = Raise OverflowError.
Proof. vm_compute. reflexivity. Qed.

Lemma evaluation_returns_witness :
  exists alerts st',
    check_location_alerts (Sample.clock_from 8 0) Sample.repr_any "Springfield"
      (Sample.snapshot 125 0 0)
      (Sample.checker (Normal Sample.springfield_odd_rules) Sample.springfield_odd_rules)
    = (Normal alerts, st').
Proof.
  apply (evaluation_returns (Sample.clock_from 8 0) Sample.repr_any "Springfield"
           (Sample.snapshot 125 0 0)
           (Sample.checker (Normal Sample.springfield_odd_rules) Sample.springfield_odd_rules));
    reflexivity.
Defined.

(** * Further properties of the alert checker *)

(** ** The three operators on numbers *)

Section Operators.

Import Spec.

Lemma ext_compare_trans_lt (a b c : ext) :
  ext_compare a b = Lt -> ext_compare b c = Lt -> ext_compare a c = Lt.
Proof.
  destruct a, b, c; simpl; try congruence.
  rewrite !Z.compare_lt_iff. lia.
Qed.

(** The test of a rule on a number: the comparison of positions decides. *)
Lemma matches_number (v t : pyval) (st : state) x y :
  as_num v = Some x -> as_num t = Some y ->
  matches v (VStr "above") t st
    = (Normal (match num_compare x y with Some Gt => true | _ => false end), st) /\
  matches v (VStr "below") t st
    = (Normal (match num_compare x y with Some Lt => true | _ => false end), st) /\
  matches v (VStr "equals") t st
    = (Normal (match num_compare x y with Some Eq => true | _ => false end), st).
Proof.
  intros Hx Hy.
  assert (Hgt := order_numbers OpGt v t x y Hx Hy).
  assert (Hlt := order_numbers OpLt v t x y Hx Hy).
  assert (Heq : eq v t = match num_compare x y with Some Eq => true | _ => false end).
  { destruct v; try discriminate Hx; destruct t; try discriminate Hy;
      cbn [eq as_num] in *; inversion Hx; inversion Hy; subst; reflexivity. }
  unfold matches, gt, lt, lift, ret.
  repeat match goal with
         | |- context [eq_str (VStr ?a) ?b] =>
             let r := eval vm_compute in (eq_str (VStr a) b) in
             change (eq_str (VStr a) b) with r
         end.
  destruct v; try discriminate Hx;
    rewrite ?Hgt, ?Hlt, ?Heq; repeat split;
    destruct (num_compare x y) as [[]|]; reflexivity.
Qed.

(** X1. On numbers, at most one of 'above', 'below' and 'equals' holds for
    a value and a threshold, and exactly one unless one of the two is a
    NaN, in which case none holds. *)
Theorem operators_exclusive (v t : pyval) (st : state) :
  number v = true -> number t = true ->
  exists above below equals : bool,
    matches v (VStr "above") t st = (Normal above, st) /\
    matches v (VStr "below") t st = (Normal below, st) /\
    matches v (VStr "equals") t st = (Normal equals, st) /\
    above && below = false /\ above && equals = false /\ below && equals = false /\
    (v <> VFloat S754_nan -> t <> VFloat S754_nan -> above || below || equals = true) /\
    (v = VFloat S754_nan \/ t = VFloat S754_nan ->
     above = false /\ below = false /\ equals = false).
Proof.
  intros Nv Nt.
  destruct (number_as_num v Nv) as (x & Hx & Vx).
  destruct (number_as_num t Nt) as (y & Hy & Vy).
  destruct (matches_number v t st x y Hx Hy) as (Ha & Hb & He).
  do 3 eexists. split; [exact Ha|]. split; [exact Hb|]. split; [exact He|].
  rewrite (num_compare_position x y Vx Vy).
  assert (Px : v <> VFloat S754_nan -> exists p, position x = Some p).
  { destruct v; try discriminate Hx; cbn in Hx; inversion Hx; subst; cbn; eauto.
    destruct f; cbn; eauto. congruence. }
  assert (Py : t <> VFloat S754_nan -> exists p, position y = Some p).
  { destruct t; try discriminate Hy; cbn in Hy; inversion Hy; subst; cbn; eauto.
    destruct f; cbn; eauto. congruence. }
  split; [|split; [|split; [|split]]].
  - destruct (position x), (position y); try reflexivity. destruct (ext_compare _ _); reflexivity.
  - destruct (position x), (position y); try reflexivity. destruct (ext_compare _ _); reflexivity.
  - destruct (position x), (position y); try reflexivity. destruct (ext_compare _ _); reflexivity.
  - intros Hv Ht. destruct (Px Hv) as [p ->]. destruct (Py Ht) as [q ->].
    destruct (ext_compare p q); reflexivity.
  - intros [-> | ->].
    + cbn in Hx. inversion Hx; subst. cbn. auto.
    + cbn in Hy. inversion Hy; subst. cbn. destruct (position x); auto.
Qed.

(** X2. 'below' is monotonic in the threshold, the other way round from
    'above': a number below [t] is below every number [t'] with [t < t'];
    and a value is above a threshold exactly when the threshold is below
    the value. *)
Theorem matches_below_monotone (v t t' : pyval) (st : state) :
  number v = true -> number t = true -> number t' = true ->
  (fst (matches v (VStr "below") t st) = Normal true ->
   lt t t' = Normal true ->
   matches v (VStr "below") t' st = (Normal true, st)) /\
  fst (matches v (VStr "above") t st) = fst (matches t (VStr "below") v st).
Proof.
  intros Nv Nt Nt'.
  destruct (number_as_num v Nv) as (x & Hx & Vx).
  destruct (number_as_num t Nt) as (y & Hy & Vy).
  destruct (number_as_num t' Nt') as (z & Hz & Vz).
  destruct (matches_number v t st x y Hx Hy) as (Ha & Hb & _).
  destruct (matches_number v t' st x z Hx Hz) as (_ & Hb' & _).
  destruct (matches_number t v st y x Hy Hx) as (_ & Hc & _).
  split.
  - rewrite Hb, Hb'. cbn [fst]. intros Hm Hlt.
    unfold lt in Hlt. rewrite (order_numbers OpLt t t' y z Hy Hz) in Hlt.
    rewrite (num_compare_position x y Vx Vy) in Hm.
    rewrite (num_compare_position y z Vy Vz) in Hlt.
    rewrite (num_compare_position x z Vx Vz).
    destruct (position x) as [px|]; [|discriminate Hm].
    destruct (position y) as [py|]; [|discriminate Hm].
    destruct (position z) as [pz|]; [|discriminate Hlt].
    rewrite (ext_compare_trans_lt px py pz); [reflexivity | |].
    + destruct (ext_compare px py); congruence.
    + destruct (ext_compare py pz); simpl in Hlt; congruence.
  - rewrite Ha, Hc. cbn [fst].
    rewrite (num_compare_position x y Vx Vy), (num_compare_position y x Vy Vx).
    destruct (position x) as [px|], (position y) as [py|]; try reflexivity.
    rewrite (ext_compare_antisym px py). destruct (ext_compare px py); reflexivity.
Qed.

End Operators.

Lemma operators_exclusive_witness :
  exists above below equals : bool,
    matches (Sample.flt 125 (-2)) (VStr "above") (VInt 30)
      (Sample.checker (Normal Sample.springfield) Sample.springfield)
    = (Normal above, Sample.checker (Normal Sample.springfield) Sample.springfield) /\
    above && below = false /\ above || below || equals = true.
Proof.
  destruct (operators_exclusive (Sample.flt 125 (-2)) (VInt 30)
              (Sample.checker (Normal Sample.springfield) Sample.springfield)
              eq_refl eq_refl)
    as (a & b & e & Ha & _ & _ & Hab & _ & _ & Hone & _).
  exists a, b, e. split; [exact Ha|]. split; [exact Hab|].
  apply Hone; discriminate.
Defined.

Lemma matches_below_monotone_witness :
  matches (Sample.flt 59 (-1)) (VStr "below") (Sample.flt 125 (-2))
    (Sample.checker (Normal Sample.springfield) Sample.springfield)
  = (Normal true, Sample.checker (Normal Sample.springfield) Sample.springfield).
Proof.
  apply (proj1 (matches_below_monotone (Sample.flt 59 (-1)) (VInt 30) (Sample.flt 125 (-2))
                  (Sample.checker (Normal Sample.springfield) Sample.springfield)
                  eq_refl eq_refl eq_refl)); reflexivity.
Defined.

(** ** Readings that are missing or unusable *)

Section Readings.

Ltac eval_tests :=
  repeat match goal with
         | |- context [eq_str (VStr ?a) ?b] =>
             let r := eval vm_compute in (eq_str (VStr a) b) in
             change (eq_str (VStr a) b) with r
         end.

(** X3. A reading that the snapshot lacks, or holds as [None], never
    matches a rule on temperature, feels_like, humidity, pressure, wind or
    clouds, whatever the operator and the threshold, and nothing is logged;
    a missing rain or snow amount in the precipitation block is tested as
    0 instead. *)
Theorem missing_reading (d : list (string * pyval)) (o t : pyval) (st : state) :
  (forall c, In c ["humidity"; "pressure"; "clouds"] ->
     item d c VNone = VNone ->
     _check_condition (VDict d) (VStr c) o t st = (Normal false, st)) /\
  (forall c block field b,
     In (c, (block, field))
        [("temperature", ("temperature", "current"));
         ("feels_like", ("temperature", "feels_like"));
         ("wind", ("wind", "speed"))] ->
     item d block (VDict []) = VDict b ->
     item b field VNone = VNone ->
     _check_condition (VDict d) (VStr c) o t st = (Normal false, st)) /\
  (forall c p, In c ["rain"; "snow"] ->
     item d "precipitation" (VDict []) = VDict p ->
     assoc c p = None ->
     _check_condition (VDict d) (VStr c) o t st = matches (VInt 0) o t st).
Proof.
  split; [|split].
  - intros c Hin Hmiss. cbn [In] in Hin.
    destruct Hin as [<- | [<- | [<- | []]]];
      unfold _check_condition, _get_condition_value, try_except; eval_tests;
      unfold bind, lift, get1; cbn [get]; rewrite Hmiss; reflexivity.
  - intros c block field b Hin Hblock Hmiss. cbn [In] in Hin.
    destruct Hin as [H | [H | [H | []]]]; inversion H; subst;
      unfold _check_condition, _get_condition_value, try_except; eval_tests;
      unfold bind, lift, get1; cbn [get]; rewrite Hblock; cbn [get]; rewrite Hmiss;
      reflexivity.
  - intros c p Hin Hblock Hmiss. cbn [In] in Hin.
    assert (Hzero : _get_condition_value (VDict d) (VStr c) st = (Normal (VInt 0), st)).
    { destruct Hin as [<- | [<- | []]];
        unfold _get_condition_value, try_except; eval_tests;
        unfold bind, lift; cbn [get]; rewrite Hblock; cbn [get]; unfold item at 1;
        rewrite Hmiss; reflexivity. }
    unfold _check_condition, bind. rewrite Hzero. reflexivity.
Qed.

(** X4. When rain and snow cannot be added (one of them is [None] or not a
    number), the [TypeError] is caught: the precipitation is [None], an
    error line is logged, and a 'precipitation' rule does not match. *)
Theorem unsummable_precipitation (weather_data p rain snow o t : pyval) (st : state) :
  get weather_data "precipitation" (VDict []) = Normal p ->
  get p "rain" (VInt 0) = Normal rain ->
  get p "snow" (VInt 0) = Normal snow ->
  add rain snow = Raise TypeError ->
  let st' := set_log (log st ++ [(ERROR, ErrorExtractingCondition (VStr "precipitation") TypeError)])
                     st in
  _get_condition_value weather_data (VStr "precipitation") st = (Normal VNone, st') /\
  _check_condition weather_data (VStr "precipitation") o t st = (Normal false, st').
Proof.
  intros Hp Hr Hs Hadd st'.
  assert (Hget : _get_condition_value weather_data (VStr "precipitation") st = (Normal VNone, st')).
  { unfold _get_condition_value, try_except; eval_tests.
    unfold bind, lift. rewrite Hp, Hr, Hs, Hadd. reflexivity. }
  split; [exact Hget|].
  unfold _check_condition, bind. rewrite Hget. reflexivity.
Qed.

End Readings.

Lemma missing_reading_witness :
  let st := Sample.checker (Normal Sample.springfield) Sample.springfield in
  _check_condition (VDict [("temperature", VDict [("feels_like", VInt 3)])])
    (VStr "temperature") (VStr "below") (VInt 5) st = (Normal false, st).
Proof.
  intros st.
  apply (proj1 (proj2 (missing_reading [("temperature", VDict [("feels_like", VInt 3)])]
                         (VStr "below") (VInt 5) st))
           "temperature" "temperature" "current" [("feels_like", VInt 3)]).
  - left. reflexivity.
  - reflexivity.
  - reflexivity.
Defined.

Lemma unsummable_precipitation_witness :
  let st := Sample.checker (Normal Sample.springfield) Sample.springfield in
  fst (_check_condition (VDict [("precipitation", VDict [("rain", VNone)])])
         (VStr "precipitation") (VStr "below") (VInt 5) st) = Normal false.
Proof.
  intros st.
  destruct (unsummable_precipitation (VDict [("precipitation", VDict [("rain", VNone)])])
              (VDict [("rain", VNone)]) VNone (VInt 0) (VStr "below") (VInt 5) st
              eq_refl eq_refl eq_refl eq_refl) as [_ H].
  now rewrite H.
Defined.

(** ** Loading and reloading the configuration *)

Section Loading.

Import Notions.

Lemma names_of_dicts (locations : list pyval) :
  forallb is_dict locations = true ->
  exists names, map_outcome (fun loc => get1 loc "name") locations = Normal names.
Proof.
  induction locations as [| loc rest IH]; cbn [forallb map_outcome]; [eauto|].
  intros H. apply andb_prop in H as [Hloc Hrest].
  destruct (IH Hrest) as [names Hnames].
  destruct loc; try discriminate Hloc. cbn [get1 get obind]. rewrite Hnames. cbn. eauto.
Qed.

Lemma names_of_others (locations : list pyval) :
  forallb is_dict locations = false ->
  map_outcome (fun loc => get1 loc "name") locations = Raise AttributeError.
Proof.
  induction locations as [| loc rest IH]; cbn [forallb map_outcome]; [discriminate|].
  intros H. destruct loc; try reflexivity.
  cbn [is_dict andb] in H. cbn [get1 get obind]. now rewrite (IH H).
Qed.

(** X5. A reload that finds a document whose locations can be listed
    installs it as [self.config] and touches nothing else but the log: the
    cooldown history and the clock are as before, so rules that fired
    before the reload stay in their cooldown. *)
Theorem reload_keeps_cooldowns (st : state) (document : pyval) :
  config_file st = Normal document ->
  listable document = true ->
  exists names,
    refresh_config st
    = (Normal tt, set_config document
                    (set_log (log st ++ [(DEBUG, LoadedLocations names)]) st)) /\
    alert_history (snd (refresh_config st)) = alert_history st.
Proof.
  intros Hfile Hshape.
  destruct document as [| | | | | | c]; try discriminate Hshape.
  cbn [listable] in Hshape.
  destruct (iter (item c "locations" (VList []))) as [locations | e] eqn:Hiter;
    [|discriminate Hshape].
  destruct (names_of_dicts locations Hshape) as [names Hnames].
  exists names.
  assert (Hrun : refresh_config st
    = (Normal tt, set_config (VDict c)
                    (set_log (log st ++ [(DEBUG, LoadedLocations names)]) st))).
  { unfold refresh_config, _load_config, try_except, bind, lift, logger, ret.
    rewrite Hfile. cbn [get]. rewrite Hiter, Hnames. reflexivity. }
  split; [exact Hrun | now rewrite Hrun].
Qed.

(** X6. A configuration file that is valid JSON but of another shape (not
    an object, or with a location that is not an object) makes the loader
    raise [AttributeError] or [TypeError]; unlike a missing or malformed
    file this is not logged, and neither construction nor reload changes
    anything. *)
Theorem load_rejects_other_shapes (st : state) (document : pyval) :
  config_file st = Normal document ->
  listable document = false ->
  exists e, (e = AttributeError \/ e = TypeError) /\
    _load_config st = (Raise e, st) /\
    refresh_config st = (Raise e, st) /\
    __init__ st = (Raise e, st).
Proof.
  intros Hfile Hshape.
  assert (Hload : exists e, (e = AttributeError \/ e = TypeError) /\
                            _load_config st = (Raise e, st)).
  { unfold _load_config, try_except, bind, lift, logger, ret. rewrite Hfile.
    destruct document as [| | | | | | c];
      try (exists AttributeError; split; [now left | reflexivity]).
    cbn [listable] in Hshape. cbn [get].
    destruct (item c "locations" (VList [])) as [| | | | s | l | d'] eqn:Hitem;
      try (exists TypeError; split; [now right | reflexivity]); cbn [iter] in *.
    - rewrite (names_of_others _ Hshape). exists AttributeError. split; [now left | reflexivity].
    - rewrite (names_of_others _ Hshape). exists AttributeError. split; [now left | reflexivity].
    - rewrite (names_of_others _ Hshape). exists AttributeError. split; [now left | reflexivity]. }
  destruct Hload as (e & He & Hload). exists e. split; [exact He|]. split; [exact Hload|].
  unfold refresh_config, __init__, bind. rewrite Hload. split; reflexivity.
Qed.

End Loading.

Lemma reload_keeps_cooldowns_witness :
  let st := set_alert_history {["Springfield_temperature_above_30" := 5]}
              (Sample.checker (Normal Sample.springfield_quiet) Sample.springfield) in
  config (snd (refresh_config st)) = Sample.springfield_quiet /\
  alert_history (snd (refresh_config st)) = {["Springfield_temperature_above_30" := 5]}.
Proof.
  intros st.
  destruct (reload_keeps_cooldowns st Sample.springfield_quiet eq_refl eq_refl)
    as (names & Hrun & Hhistory).
  split; [now rewrite Hrun | exact Hhistory].
Defined.

Lemma load_rejects_other_shapes_witness :
  let st := Sample.checker (Normal (VList [])) Sample.springfield in
  exists e, refresh_config st = (Raise e, st).
Proof.
  intros st.
  destruct (load_rejects_other_shapes st (VList []) eq_refl eq_refl) as (e & _ & _ & H & _).
  exists e. exact H.
Defined.

(** ** The extent of the quiet hours *)

Section QuietExtent.

Import Spec.

Lemma first_match_inv {A} (alts : list Str.alt) (s : string) (k : Z -> string -> option A) x :
  Str.first_match alts s k = Some x ->
  exists a n r, In a alts /\ a s = Some (n, r) /\ k n r = Some x.
Proof.
  induction alts as [| a alts IH]; cbn [Str.first_match]; [discriminate|].
  destruct (a s) as [[n r]|] eqn:Ha.
  - destruct (k n r) as [y|] eqn:Hk.
    + intros H; inversion H; subst. exists a, n, r. repeat split; auto. now left.
    + intros H. destruct (IH H) as (a' & n' & r' & Hin & H1 & H2).
      exists a', n', r'. repeat split; auto. now right.
  - intros H. destruct (IH H) as (a' & n' & r' & Hin & H1 & H2).
    exists a', n', r'. repeat split; auto. now right.
Qed.

Lemma in_range_bounds (lo hi c : ascii) (a b : Z) :
  Str.digit_val lo = a -> Str.digit_val hi = b ->
  Str.in_range lo hi c = true -> a <= Str.digit_val c <= b.
Proof.
  unfold Str.in_range, Str.digit_val. intros <- <- H.
  apply andb_prop in H as [H1 H2]. apply N.leb_le in H1, H2. lia.
Qed.

Lemma is_digit_bounds (c : ascii) : Str.is_digit c = true -> 0 <= Str.digit_val c <= 9.
Proof.
  unfold Str.is_digit, Str.digit_val. intros H.
  apply andb_prop in H as [H1 H2]. apply N.leb_le in H1, H2. lia.
Qed.

Lemma two_chars_inv (first second : ascii -> bool) (s : string) n r :
  Str.two_chars first second s = Some (n, r) ->
  exists c d, first c = true /\ second d = true /\
              n = 10 * Str.digit_val c + Str.digit_val d.
Proof.
  unfold Str.two_chars. destruct s as [| c [| d s]]; try discriminate.
  destruct (first c) eqn:Hc; [|discriminate].
  destruct (second d) eqn:Hd; [|discriminate].
  cbn. intros H; inversion H; subst. eauto.
Qed.

Lemma one_digit_inv (s : string) n r :
  Str.one_digit s = Some (n, r) -> 0 <= n <= 9.
Proof.
  unfold Str.one_digit. destruct s as [| d s]; [discriminate|].
  destruct (Str.is_digit d) eqn:Hd; [|discriminate].
  intros H; inversion H; subst. now apply is_digit_bounds.
Qed.

(** An hour and a minute that [strptime] accepts are an hour and a minute
    of the day. *)
Lemma strptime_HM_bounds (s : string) (h m : Z) :
  Str.strptime_HM (VStr s) = Normal (h, m) -> 0 <= h <= 23 /\ 0 <= m <= 59.
Proof.
  unfold Str.strptime_HM.
  destruct (Str.match_HM s) as [[[h' m'] rest]|] eqn:Hmatch; [|discriminate].
  destruct rest; [|discriminate]. intros H; inversion H; subst h' m'.
  unfold Str.match_HM in Hmatch.
  apply first_match_inv in Hmatch as (a & n & r & Ha & Han & Hk).
  destruct r as [| colon r]; [discriminate|].
  destruct colon as [[] [] [] [] [] [] [] []]; try discriminate Hk.
  apply first_match_inv in Hk as (b & n' & r' & Hb & Hbn & Hk).
  inversion Hk; subst n n'. clear Hk.
  split.
  - cbn [Str.re_H In] in Ha. destruct Ha as [<- | [<- | [<- | []]]].
    + apply two_chars_inv in Han as (c & d & Hc & Hd & ->).
      apply Ascii.eqb_eq in Hc. subst c.
      apply (in_range_bounds "0"%char "3"%char d 0 3 eq_refl eq_refl) in Hd.
      change (Str.digit_val "2") with 2. lia.
    + apply two_chars_inv in Han as (c & d & Hc & Hd & ->).
      apply (in_range_bounds "0"%char "1"%char c 0 1 eq_refl eq_refl) in Hc.
      apply is_digit_bounds in Hd. lia.
    + apply one_digit_inv in Han. lia.
  - cbn [Str.re_M In] in Hb. destruct Hb as [<- | [<- | []]].
    + apply two_chars_inv in Hbn as (c & d & Hc & Hd & ->).
      apply (in_range_bounds "0"%char "5"%char c 0 5 eq_refl eq_refl) in Hc.
      apply is_digit_bounds in Hd. lia.
    + apply one_digit_inv in Hbn. lia.
Qed.

(** X7. Enabled quiet hours with two parseable times are never empty and
    never the whole day: the start instant is quiet, and the microsecond
    after the end is not, for an overnight window as for a same-day one. *)
Theorem quiet_hours_proper (st : state) (enabled start_str end_str : pyval) (h1 m1 h2 m2 : Z) :
  quiet_hours_setting (config st) enabled start_str end_str ->
  truthy enabled = true ->
  Str.strptime_HM start_str = Normal (h1, m1) ->
  Str.strptime_HM end_str = Normal (h2, m2) ->
  0 <= Time.hm h1 m1 < Time.usec_per_day /\
  0 <= Time.hm h2 m2 + 1 < Time.usec_per_day /\
  (forall clock, Time.time_of (clock (ticks st)) = Time.hm h1 m1 ->
     fst (is_quiet_hours clock st) = Normal true) /\
  (forall clock, Time.time_of (clock (ticks st)) = Time.hm h2 m2 + 1 ->
     fst (is_quiet_hours clock st) = Normal false).
Proof.
  intros Hcfg Hen Hs He.
  assert (Bs : 0 <= h1 <= 23 /\ 0 <= m1 <= 59).
  { destruct start_str; try discriminate Hs. now apply (strptime_HM_bounds s). }
  assert (Be : 0 <= h2 <= 23 /\ 0 <= m2 <= 59).
  { destruct end_str; try discriminate He. now apply (strptime_HM_bounds s). }
  unfold Time.hm, Time.usec_per_day, Time.usec_per_second in *.
  split; [lia|]. split; [lia|]. split.
  - intros clock Hnow.
    rewrite (is_quiet_hours_enabled clock st enabled start_str end_str Hcfg Hen).
    unfold try_except, bind, lift. rewrite Hs, He. cbn [fst snd]. rewrite Hnow.
    unfold Time.hm, Time.usec_per_second.
    destruct (Z.ltb_spec ((h2 * 3600 + m2 * 60) * 1000000) ((h1 * 3600 + m1 * 60) * 1000000));
      unfold ret; cbn [fst]; f_equal.
    + apply orb_true_iff. left. apply Z.leb_le. lia.
    + apply andb_true_iff. split; apply Z.leb_le; lia.
  - intros clock Hnow.
    rewrite (is_quiet_hours_enabled clock st enabled start_str end_str Hcfg Hen).
    unfold try_except, bind, lift. rewrite Hs, He. cbn [fst snd]. rewrite Hnow.
    unfold Time.hm, Time.usec_per_second.
    destruct (Z.ltb_spec ((h2 * 3600 + m2 * 60) * 1000000) ((h1 * 3600 + m1 * 60) * 1000000));
      unfold ret; cbn [fst]; f_equal.
    + apply orb_false_iff. split; apply Z.leb_gt; lia.
    + apply andb_false_iff. right. apply Z.leb_gt. lia.
Qed.

End QuietExtent.

Lemma quiet_hours_proper_witness :
  let st := Sample.checker (Normal Sample.springfield_quiet) Sample.springfield_quiet in
  fst (is_quiet_hours (fun _ => Time.hm 7 0 + 1) st) = Normal false.
Proof.
  intros st.
  assert (Hcfg : Spec.quiet_hours_setting (config st) (VBool true) (VStr "22:00") (VStr "07:00")).
  { do 2 eexists. repeat split; reflexivity. }
  destruct (quiet_hours_proper st (VBool true) (VStr "22:00") (VStr "07:00") 22 0 7 0
              Hcfg eq_refl eq_refl eq_refl) as (_ & _ & _ & Hloud).
  apply Hloud. reflexivity.
Defined.

(** ** The alerts an evaluation returns *)

Section Returned.

Import Spec.

Variable clock : nat -> Z.
Variable repr : pyval -> string.

Lemma eq_None (v : pyval) : eq v VNone = true -> v = VNone.
Proof. destruct v; cbn; try discriminate; reflexivity. Qed.

Lemma order_None (op : order_op) (v : pyval) : order op v VNone = Raise TypeError.
Proof. destruct v; try reflexivity. Qed.

(** What a test that answers [True] tells about the rule. *)
Lemma check_condition_true (weather_data c o t : pyval) st st1 :
  _check_condition weather_data c o t st = (Normal true, st1) ->
  recognized_condition c = true /\ t <> VNone /\
  exists v, v <> VNone /\
    forall st0, fst (_get_condition_value weather_data c st0) = Normal v.
Proof.
  intros Hrun.
  assert (Hc : recognized_condition c = true).
  { destruct (recognized_condition c) eqn:Hc; [reflexivity|].
    destruct (check_condition_unrecognized weather_data c o t (or_introl Hc))
      as (out & lines & Hcase & Hall).
    rewrite Hall in Hrun. destruct Hcase as [-> | (e & -> & _)]; discriminate Hrun. }
  split; [exact Hc|].
  destruct (get_condition_value_pure weather_data c) as (out & lines & Hget).
  unfold _check_condition, bind in Hrun. rewrite Hget in Hrun.
  destruct out as [v | e]; [|discriminate Hrun].
  assert (Hv : v <> VNone).
  { intros ->. discriminate Hrun. }
  split.
  - intros ->. unfold matches in Hrun.
    destruct (eq_str o "above").
    { unfold lift, gt in Hrun. rewrite order_None in Hrun. destruct v; discriminate Hrun. }
    destruct (eq_str o "below").
    { unfold lift, lt in Hrun. rewrite order_None in Hrun. destruct v; discriminate Hrun. }
    destruct (eq_str o "equals").
    + assert (He : eq v VNone = true) by (destruct v; inversion Hrun; auto).
      apply eq_None in He. contradiction.
    + destruct v; discriminate Hrun.
  - exists v. split; [exact Hv|]. intros st0. now rewrite Hget.
Qed.

(** What the loop body yields comes from [trigger]. *)
Lemma check_alert_fired location_name weather_data alert st k a st' :
  check_alert clock repr location_name weather_data alert st = (Normal (Some (k, a)), st') ->
  exists r o,
    alert = VDict r /\
    k = alert_id_of repr location_name (item r "condition" VNone) o (item r "value" VNone) /\
    location a = location_name /\
    condition a = item r "condition" VNone /\
    threshold a = item r "value" VNone /\
    message a = item r "message" (VStr (String.append "Weather alert for " location_name)) /\
    recognized_condition (condition a) = true /\
    threshold a <> VNone /\ current_value a <> VNone /\
    (forall st0, fst (_get_condition_value weather_data (condition a) st0)
                 = Normal (current_value a)) /\
    (exists n, timestamp a = clock n /\ (ticks st <= n < ticks st')%nat).
Proof.
  destruct alert as [| | | | | | r]; try discriminate.
  unfold check_alert.
  unfold bind at 1, lift at 1. cbn [get1 get].
  unfold bind at 1, lift at 1. unfold bind at 1, lift at 1. unfold bind at 1, lift at 1.
  unfold bind at 1.
  set (c := item r "condition" VNone). set (o := item r "operator" VNone).
  set (t := item r "value" VNone).
  set (m := item r "message" (VStr (String.append "Weather alert for " location_name))).
  destruct (_check_condition weather_data c o t st) as [[[|]|e] st1] eqn:Hcheck;
    try discriminate.
  destruct (check_condition_true _ _ _ _ _ _ Hcheck) as (Hc & Ht & v & Hv & Hget).
  destruct (check_condition_pure weather_data c o t) as (out & lines & Hpure).
  rewrite Hpure in Hcheck. inversion Hcheck; subst out st1. clear Hcheck.
  destruct (get_condition_value_pure weather_data c) as (out & lines' & Hvalue).
  assert (out = Normal v) as ->.
  { specialize (Hget st). rewrite Hvalue in Hget. exact Hget. }
  rewrite (trigger_run clock repr location_name weather_data c o t m _ _ Hvalue).
  cbv zeta.
  destruct (match alert_history _ !! _ with None => true | Some _ => _ end); [|discriminate].
  intros H; inversion H; subst. clear H.
  exists r, o. cbn. repeat split; auto.
  exists (ticks st). cbn. split; [reflexivity | lia].
Qed.

Lemma check_alerts_forall (P : string * triggered_alert -> Prop) location_name weather_data :
  (forall alert st r st',
     check_alert clock repr location_name weather_data alert st = (Normal (Some r), st') -> P r) ->
  forall alerts st fired st',
    check_alerts clock repr location_name weather_data alerts st = (Normal fired, st') ->
    Forall P fired.
Proof.
  intros HP. induction alerts as [| alert rest IH]; intros st fired st' H.
  - inversion H. constructor.
  - cbn [check_alerts] in H. unfold bind at 1 in H.
    destruct (check_alert clock repr location_name weather_data alert st)
      as [[r | e] st1] eqn:Hone; [|discriminate H].
    unfold bind at 1 in H.
    destruct (check_alerts clock repr location_name weather_data rest st1)
      as [[more | e] st2] eqn:Hmore; [|discriminate H].
    inversion H; subst. apply IH in Hmore.
    destruct r as [r|]; [|exact Hmore].
    constructor; [eapply HP; exact Hone | exact Hmore].
Qed.

Lemma check_location_alerts_ids_forall (P : string * triggered_alert -> Prop)
    location_name weather_data :
  (forall alert st r st',
     check_alert clock repr location_name weather_data alert st = (Normal (Some r), st') -> P r) ->
  forall st fired st',
    check_location_alerts_ids clock repr location_name weather_data st = (Normal fired, st') ->
    Forall P fired.
Proof.
  intros HP st fired st'.
  unfold check_location_alerts_ids. unfold bind at 1.
  destruct (is_quiet_hours clock st) as [[[|] | e] st1]; try discriminate.
  - intros H; inversion H. constructor.
  - unfold check_configured_alerts.
    unfold bind at 1, logger at 1. unfold bind at 1, get_config at 1.
    unfold bind at 1, lift at 1.
    destruct (get _ "locations" (VList [])) as [container | e]; [|discriminate].
    unfold bind at 1, lift at 1.
    destruct (iter container) as [locations | e]; [|discriminate].
    unfold bind at 1.
    destruct (find_location location_name locations _) as [[location | e] st2];
      [|discriminate].
    destruct (negb (truthy location)).
    + intros H; inversion H. constructor.
    + unfold bind at 1, lift at 1.
      destruct (get location "alerts" (VList [])) as [alerts | e]; [|discriminate].
      unfold bind at 1, lift at 1.
      destruct (iter alerts) as [rules | e]; [|discriminate].
      apply check_alerts_forall. exact HP.
Qed.

(** X8. Every alert an evaluation returns names the location as it was
    queried and a condition of the enumeration; its threshold and its
    current value are never [None], the current value is the one the
    snapshot holds for the condition, and its timestamp is a reading of the
    clock. *)
Theorem returned_alerts_are_complete (location_name : string) (weather_data : pyval)
    (st : state) (alerts : list triggered_alert) (st' : state) :
  check_location_alerts clock repr location_name weather_data st = (Normal alerts, st') ->
  Forall (fun a =>
            location a = location_name /\
            recognized_condition (condition a) = true /\
            threshold a <> VNone /\ current_value a <> VNone /\
            (forall st0, fst (_get_condition_value weather_data (condition a) st0)
                         = Normal (current_value a)) /\
            exists n, timestamp a = clock n) alerts.
Proof.
  unfold check_location_alerts, bind.
  destruct (check_location_alerts_ids clock repr location_name weather_data st)
    as [[fired | e] st1] eqn:Hrun; [|discriminate].
  intros H; inversion H; subst. clear H.
  apply Forall_map.
  eapply check_location_alerts_ids_forall in Hrun; [exact Hrun|].
  intros alert st0 [k a] st2 Hone. cbn [snd].
  destruct (check_alert_fired _ _ _ _ _ _ _ Hone)
    as (r & o & _ & _ & Hl & _ & _ & _ & Hc & Ht & Hv & Hval & n & Hn & _).
  repeat split; auto. eauto.
Qed.

Lemma check_alerts_order location_name weather_data rules :
  forall st fired st',
    check_alerts clock repr location_name weather_data rules st = (Normal fired, st') ->
    sublist (map (fun f => Notions.alert_summary (snd f)) fired)
            (map (Notions.rule_summary location_name) rules).
Proof.
  induction rules as [| alert rest IH]; intros st fired st' H.
  - inversion H. constructor.
  - cbn [check_alerts] in H. unfold bind at 1 in H.
    destruct (check_alert clock repr location_name weather_data alert st)
      as [[r | e] st1] eqn:Hone; [|discriminate H].
    unfold bind at 1 in H.
    destruct (check_alerts clock repr location_name weather_data rest st1)
      as [[more | e] st2] eqn:Hmore; [|discriminate H].
    inversion H; subst. apply IH in Hmore. cbn [map].
    destruct r as [[k a]|]; [|now apply sublist_cons].
    destruct (check_alert_fired _ _ _ _ _ _ _ Hone)
      as (r & o & -> & _ & _ & Hc & Ht & Hm & _).
    cbn [map snd Notions.rule_summary]. unfold Notions.alert_summary.
    rewrite Hc, Ht, Hm. now apply sublist_skip.
Qed.

(** X9. The alerts of an evaluation follow the rules of the resolved
    location in their configured order: condition, threshold and message
    of the alerts form a sub-sequence of those of the rules (the message
    being "Weather alert for <name>" for a rule without one), so there are
    at most as many alerts as rules. *)
Theorem alerts_follow_rule_order (location_name : string) (weather_data : pyval)
    (st : state) (locations : list pyval) (l : list (string * pyval)) (rules : list pyval)
    (alerts : list triggered_alert) (st' : state) :
  get (config st) "locations" (VList []) = Normal (VList locations) ->
  Forall (fun loc => is_Some (name_of loc)) locations ->
  resolve location_name locations = Some (VDict l) ->
  item l "alerts" (VList []) = VList rules ->
  check_location_alerts clock repr location_name weather_data st = (Normal alerts, st') ->
  sublist (map Notions.alert_summary alerts) (map (Notions.rule_summary location_name) rules) /\
  (length alerts <= length rules)%nat.
Proof.
  intros Hlocs Hnamed Hres Hrules Hrun.
  assert (Hsub : sublist (map Notions.alert_summary alerts)
                         (map (Notions.rule_summary location_name) rules)).
  { unfold check_location_alerts, bind in Hrun.
    destruct (check_location_alerts_ids clock repr location_name weather_data st)
      as [[fired | e] st1] eqn:Hids; [|discriminate Hrun].
    inversion Hrun; subst. clear Hrun. rewrite map_map.
    unfold check_location_alerts_ids in Hids. unfold bind at 1 in Hids.
    destruct (is_quiet_hours clock st) as [[[|] | e] st2] eqn:Hgate; try discriminate Hids.
    - inversion Hids. apply sublist_nil_l.
    - apply is_quiet_hours_frame in Hgate as (Hc & _ & _).
      destruct (find_location_resolve location_name locations Hnamed
                  (set_log (log st2 ++ [(DEBUG, LookingForLocation location_name)]) st2))
        as [lines Hfind].
      rewrite Hres in Hfind. cbv [default from_option id] in Hfind.
      unfold check_configured_alerts in Hids.
      unfold bind at 1, logger at 1 in Hids. unfold bind at 1, get_config at 1 in Hids.
      cbn [config set_log] in Hids. rewrite Hc, Hlocs in Hids.
      unfold bind at 1, lift at 1 in Hids. unfold bind at 1, lift at 1 in Hids.
      cbn [iter] in Hids. unfold bind at 1 in Hids. rewrite Hfind in Hids.
      destruct (negb (truthy (VDict l))).
      + inversion Hids. apply sublist_nil_l.
      + unfold bind at 1, lift at 1 in Hids. cbn [get] in Hids. rewrite Hrules in Hids.
        unfold bind at 1, lift at 1 in Hids. cbn [iter] in Hids.
        apply check_alerts_order in Hids. exact Hids. }
  split; [exact Hsub|].
  apply sublist_length in Hsub. now rewrite !length_map in Hsub.
Qed.

End Returned.

Lemma returned_alerts_are_complete_witness :
  let run := check_location_alerts (Sample.clock_from 8 0) Sample.repr_any "Springfield"
               (Sample.snapshot 125 0 0)
               (Sample.checker (Normal Sample.springfield) Sample.springfield) in
  Forall (fun a => location a = "Springfield" /\ current_value a <> VNone)
         (match fst run with Normal alerts => alerts | Raise _ => [] end).
Proof.
  intros run.
  pose proof (returned_alerts_are_complete (Sample.clock_from 8 0) Sample.repr_any
                "Springfield" (Sample.snapshot 125 0 0)
                (Sample.checker (Normal Sample.springfield) Sample.springfield)
                (match fst run with Normal alerts => alerts | Raise _ => [] end)
                (snd run) eq_refl) as Hall.
  eapply Forall_impl; [exact Hall|]. cbn beta. intros a H. tauto.
Defined.

Lemma alerts_follow_rule_order_witness :
  let run := check_location_alerts (Sample.clock_from 8 0) Sample.repr_any "Springfield"
               (Sample.snapshot 125 0 0)
               (Sample.checker (Normal Sample.springfield_odd_rules) Sample.springfield_odd_rules) in
  (length (match fst run with Normal alerts => alerts | Raise _ => [] end) <= 5)%nat.
Proof.
  intros run.
  eapply (proj2 (alerts_follow_rule_order (Sample.clock_from 8 0) Sample.repr_any
                   "Springfield" (Sample.snapshot 125 0 0)
                   (Sample.checker (Normal Sample.springfield_odd_rules)
                                   Sample.springfield_odd_rules)
                   _ _ _ _ (snd run) eq_refl _ eq_refl eq_refl eq_refl)).
  Unshelve. repeat constructor. exists "Springfield". reflexivity.
Defined.

(** ** What an evaluation does to the cooldown history *)

Section HistoryFrame.

Import Spec.

Variable clock : nat -> Z.
Variable repr : pyval -> string.

(** Every [alert_id] of a location begins with the name of the location
    and an underscore. *)
Lemma append_cons (a : ascii) (s r : string) :
  String.append (String a s) r = String a (String.append s r).
Proof. reflexivity. Qed.

Lemma append_nil (r : string) : String.append EmptyString r = r.
Proof. reflexivity. Qed.

Lemma prefix_append (a b : string) : String.prefix a (String.append a b) = true.
Proof.
  induction a as [| c a IH].
  - rewrite append_nil. destruct b; reflexivity.
  - rewrite append_cons. cbn [String.prefix].
    destruct (ascii_dec c c) as [_ | Hne]; [exact IH | contradiction].
Qed.

Lemma append_append (a b c : string) :
  String.append (String.append a b) c = String.append a (String.append b c).
Proof.
  induction a as [| x a IH].
  - rewrite !append_nil. reflexivity.
  - rewrite !append_cons. now rewrite IH.
Qed.

Lemma alert_id_prefix (location_name : string) (c o t : pyval) :
  String.prefix (String.append location_name "_") (alert_id_of repr location_name c o t) = true.
Proof.
  unfold alert_id_of. rewrite <- append_append. apply prefix_append.
Qed.

(** A relation between histories that holds across an evaluation as soon
    as it holds across the one assignment of line 108. *)
Section Across.

Variable location_name : string.
Variable R : gmap string Z -> gmap string Z -> Prop.
Hypothesis R_refl : forall h, R h h.
Hypothesis R_trans : forall h1 h2 h3, R h1 h2 -> R h2 h3 -> R h1 h3.
Hypothesis R_record : forall h c o t now,
  R h (<[alert_id_of repr location_name c o t := now]> h).

Lemma trigger_across weather_data c o t message st out st' :
  trigger clock repr location_name weather_data c o t message st = (out, st') ->
  R (alert_history st) (alert_history st').
Proof.
  destruct (get_condition_value_pure weather_data c) as (v & lines & Hget).
  rewrite (trigger_run clock repr location_name weather_data c o t message v lines Hget st).
  cbv zeta.
  destruct (match alert_history st !! _ with None => true | Some _ => _ end).
  - destruct v; intros H; inversion H; subst; cbn; apply R_record.
  - intros H; inversion H; subst. cbn. apply R_refl.
Qed.

Lemma check_alert_across weather_data alert st out st' :
  check_alert clock repr location_name weather_data alert st = (out, st') ->
  R (alert_history st) (alert_history st').
Proof.
  unfold check_alert.
  destruct alert; try (intros H; inversion H; subst; apply R_refl).
  unfold bind at 1, lift at 1. cbn [get1 get].
  unfold bind at 1, lift at 1. unfold bind at 1, lift at 1. unfold bind at 1, lift at 1.
  unfold bind at 1.
  match goal with
  | |- context [_check_condition ?w ?c ?o ?t st] =>
      destruct (check_condition_pure w c o t) as (r & lines & Hrun); rewrite Hrun
  end.
  destruct r as [[|]|e].
  - intros H. apply trigger_across in H. exact H.
  - intros H; inversion H; subst. apply R_refl.
  - intros H; inversion H; subst. apply R_refl.
Qed.

Lemma check_alerts_across weather_data alerts :
  forall st out st',
    check_alerts clock repr location_name weather_data alerts st = (out, st') ->
    R (alert_history st) (alert_history st').
Proof.
  induction alerts as [| alert rest IH]; intros st out st' H.
  - inversion H; subst. apply R_refl.
  - cbn [check_alerts] in H. unfold bind at 1 in H.
    destruct (check_alert clock repr location_name weather_data alert st)
      as [[fired | e] st1] eqn:Hone; apply check_alert_across in Hone.
    + unfold bind at 1 in H.
      destruct (check_alerts clock repr location_name weather_data rest st1)
        as [[more | e] st2] eqn:Hmore; apply IH in Hmore;
        inversion H; subst; eapply R_trans; eassumption.
    + inversion H; subst. exact Hone.
Qed.

Lemma check_location_alerts_across weather_data st out st' :
  check_location_alerts clock repr location_name weather_data st = (out, st') ->
  R (alert_history st) (alert_history st').
Proof.
  unfold check_location_alerts, check_location_alerts_ids. unfold bind at 1 2.
  destruct (is_quiet_hours clock st) as [[quiet | e] st1] eqn:Hgate;
    apply is_quiet_hours_frame in Hgate as (_ & Hh & _);
    [|intros H; inversion H; subst; rewrite Hh; apply R_refl].
  destruct quiet.
  { intros H; inversion H; subst. cbn. rewrite Hh. apply R_refl. }
  assert (Hconf : forall o s, check_configured_alerts clock repr location_name weather_data st1
                              = (o, s) -> R (alert_history st) (alert_history s)).
  { intros o s. unfold check_configured_alerts.
    unfold bind at 1, logger at 1. unfold bind at 1, get_config at 1.
    unfold bind at 1, lift at 1. cbn [config set_log].
    destruct (get (config st1) "locations" (VList [])) as [container | e];
      [|intros H; inversion H; subst; cbn; rewrite Hh; apply R_refl].
    unfold bind at 1, lift at 1.
    destruct (iter container) as [locations | e];
      [|intros H; inversion H; subst; cbn; rewrite Hh; apply R_refl].
    unfold bind at 1.
    destruct (find_location location_name locations _) as [[location | e] st2] eqn:Hfind;
      apply find_location_history in Hfind; cbn [alert_history set_log] in Hfind;
      [|intros H; inversion H; subst; rewrite Hfind, Hh; apply R_refl].
    destruct (negb (truthy location)).
    - intros H; inversion H; subst. cbn. rewrite Hfind, Hh. apply R_refl.
    - unfold bind at 1, lift at 1.
      destruct (get location "alerts" (VList [])) as [alerts | e];
        [|intros H; inversion H; subst; rewrite Hfind, Hh; apply R_refl].
      unfold bind at 1, lift at 1.
      destruct (iter alerts) as [rules | e];
        [|intros H; inversion H; subst; rewrite Hfind, Hh; apply R_refl].
      intros H. apply check_alerts_across in H. rewrite Hfind, Hh in H. exact H. }
  destruct (check_configured_alerts clock repr location_name weather_data st1)
    as [[fired | e] st2] eqn:Hrun; intros H; inversion H; subst; eapply Hconf; reflexivity.
Qed.

End Across.

(** X10. An evaluation of a location changes no cooldown record but those
    whose [alert_id] begins with the queried name and an underscore: the
    records of every other id are the same after it as before, whether it
    returns or raises. *)
Theorem evaluation_is_local (location_name : string) (weather_data : pyval)
    (st : state) out (st' : state) (k : string) :
  check_location_alerts clock repr location_name weather_data st = (out, st') ->
  String.prefix (String.append location_name "_") k = false ->
  alert_history st' !! k = alert_history st !! k.
Proof.
  intros Hrun Hk.
  apply (check_location_alerts_across location_name
           (fun h h' => h' !! k = h !! k)) in Hrun; [exact Hrun | | |].
  - reflexivity.
  - intros h1 h2 h3 H12 H23. now rewrite H23.
  - intros h c o t now. apply lookup_insert_ne. intros Heq.
    rewrite <- Heq, alert_id_prefix in Hk. discriminate Hk.
Qed.

(** X11. No call ever removes a cooldown record or sets it back: over any
    sequence of evaluations, reloads and changes of the configuration
    file, an [alert_id] that has a record keeps one, with the same time or
    a later one. *)
Theorem records_are_never_dropped (calls : list call) (st : state) (k : string) (t : Z) :
  alert_history st !! k = Some t ->
  exists t', alert_history (Notions.final clock repr calls st) !! k = Some t' /\ t <= t'.
Proof.
  revert st t. induction calls as [| c rest IH]; intros st t Hk; cbn [Notions.final].
  - exists t. split; [exact Hk | lia].
  - destruct (perform_paced clock repr c st) as (Hgrows & _).
    destruct (Hgrows k t Hk) as (t1 & H1 & L1).
    destruct (IH _ t1 H1) as (t2 & H2 & L2).
    exists t2. split; [exact H2 | lia].
Qed.

End HistoryFrame.

Lemma evaluation_is_local_witness :
  let st := set_alert_history {["Shelbyville_humidity_above_80" := 5]}
              (Sample.checker (Normal Sample.springfield) Sample.springfield) in
  alert_history (snd (check_location_alerts (Sample.clock_from 8 0) Sample.repr_any
                        "Springfield" (Sample.snapshot 125 0 0) st))
    !! "Shelbyville_humidity_above_80" = Some 5.
Proof.
  intros st.
  rewrite (evaluation_is_local (Sample.clock_from 8 0) Sample.repr_any "Springfield"
             (Sample.snapshot 125 0 0) st
             (fst (check_location_alerts (Sample.clock_from 8 0) Sample.repr_any
                     "Springfield" (Sample.snapshot 125 0 0) st))
             (snd (check_location_alerts (Sample.clock_from 8 0) Sample.repr_any
                     "Springfield" (Sample.snapshot 125 0 0) st))
             "Shelbyville_humidity_above_80" eq_refl eq_refl).
  reflexivity.
Defined.

Lemma records_are_never_dropped_witness :
  let st := set_alert_history {["Springfield_temperature_above_30" := 5]}
              (Sample.checker (Normal Sample.springfield) Sample.springfield) in
  exists t', alert_history
               (Notions.final (Sample.clock_from 8 0) Sample.repr_any
                  [Spec.Refresh; Spec.Evaluate "Springfield" (Sample.snapshot 125 0 0)] st)
             !! "Springfield_temperature_above_30" = Some t' /\ 5 <= t'.
Proof.
  intros st.
  apply (records_are_never_dropped (Sample.clock_from 8 0) Sample.repr_any
           [Spec.Refresh; Spec.Evaluate "Springfield" (Sample.snapshot 125 0 0)] st
           "Springfield_temperature_above_30" 5).
  reflexivity.
Defined.

(** ** The first matching location *)

Section FirstMatch.

Import Spec.

(** X12. The lookup stops at the first configured location whose trimmed
    name is the trimmed queried name: whatever follows it in the
    configuration is not examined, so a later location of a matching name
    is never evaluated and a malformed later entry cannot make the lookup
    raise. *)
Theorem first_match_wins (location_name : string) (before : list pyval) (loc : pyval)
    (after : list pyval) (config_name : string) (st : state) :
  Forall (fun l => exists n, name_of l = Some n /\ names_match n location_name = false) before ->
  name_of loc = Some config_name ->
  names_match config_name location_name = true ->
  exists lines,
    find_location location_name (before ++ loc :: after) st
    = (Normal loc, set_log (log st ++ lines) st).
Proof.
  intros Hbefore Hname Hmatch. revert st.
  induction Hbefore as [| l rest (n & Hn & Hno) _ IH]; intros st.
  - cbn [app find_location].
    unfold bind at 1, lift at 1. rewrite (name_of_get _ _ Hname).
    unfold bind at 1, logger at 1. unfold bind at 1, lift at 1.
    cbn [Str.strip_method]. fold (names_match config_name location_name). rewrite Hmatch.
    eexists. unfold bind, logger, ret. cbn [log set_log]. rewrite <- app_assoc. reflexivity.
  - cbn [app find_location].
    unfold bind at 1, lift at 1. rewrite (name_of_get _ _ Hn).
    unfold bind at 1, logger at 1. unfold bind at 1, lift at 1.
    cbn [Str.strip_method]. fold (names_match n location_name). rewrite Hno.
    destruct (IH (set_log (log st ++ [(DEBUG, ComparingWithConfigLocation (VStr n))]) st))
      as [lines Hrest].
    rewrite Hrest. eexists. cbn [log set_log]. rewrite <- app_assoc. reflexivity.
Qed.

End FirstMatch.

Lemma first_match_wins_witness :
  let st := Sample.checker (Normal Sample.springfield) Sample.springfield in
  exists lines,
    find_location "Springfield"
      [Sample.place "Shelbyville" []; Sample.place " Springfield" [];
       Sample.place "Springfield" [Sample.rule "humidity" "above" (VInt 80) "Humid"];
       VInt 7] st
    = (Normal (Sample.place " Springfield" []), set_log (log st ++ lines) st).
Proof.
  intros st.
  apply (first_match_wins "Springfield" [Sample.place "Shelbyville" []]
           (Sample.place " Springfield" [])
           [Sample.place "Springfield" [Sample.rule "humidity" "above" (VInt 80) "Humid"]; VInt 7]
           " Springfield" st).
  - repeat constructor. exists "Shelbyville". split; reflexivity.
  - reflexivity.
  - reflexivity.
Defined.

(** * Properties of the commands that edit the configuration *)

(** ** Dicts that are updated in place *)

Section Dicts.

Lemma eq_VStr (n : pyval) (s : string) : eq n (VStr s) = true -> n = VStr s.
Proof.
  destruct n; cbn; try discriminate.
  intros H. apply String.eqb_eq in H. now subst.
Qed.

Lemma eq_VStr_refl (s : string) : eq (VStr s) (VStr s) = true.
Proof. cbn. apply String.eqb_refl. Qed.

Lemma assoc_set_item (k : string) (v : pyval) d :
  is_Some (assoc k d) -> assoc k (Cli.set_item k v d) = Some v.
Proof.
  induction d as [| [k' x] d IH]; cbn [assoc Cli.set_item].
  - intros [? H]. discriminate H.
  - destruct (String.eqb k k') eqn:Hk.
    + intros _. cbn [assoc]. now rewrite Hk.
    + intros H. cbn [assoc]. rewrite Hk. auto.
Qed.

Lemma assoc_set_item_other (k k' : string) (v : pyval) d :
  k' <> k -> assoc k' (Cli.set_item k v d) = assoc k' d.
Proof.
  intros Hne. induction d as [| [k0 x] d IH]; cbn [assoc Cli.set_item]; [reflexivity|].
  destruct (String.eqb k k0) eqn:Hk.
  - apply String.eqb_eq in Hk. subst k0. cbn [assoc].
    destruct (String.eqb k' k) eqn:Hk'; [|reflexivity].
    apply String.eqb_eq in Hk'. contradiction.
  - cbn [assoc]. now rewrite IH.
Qed.

Lemma assoc_app_None (k : string) d d' :
  assoc k d = None -> assoc k (d ++ d') = assoc k d'.
Proof.
  induction d as [| [k0 x] d IH]; cbn [assoc app]; [reflexivity|].
  destruct (String.eqb k k0); [discriminate|auto].
Qed.

Lemma assoc_app_Some (k : string) d d' v :
  assoc k d = Some v -> assoc k (d ++ d') = Some v.
Proof.
  induction d as [| [k0 x] d IH]; cbn [assoc app]; [discriminate|].
  destruct (String.eqb k k0); auto.
Qed.

(** [setdefault] returns what [get] returns with the same default, leaves
    it under the key, and touches no other key. *)
Lemma setdefault_spec d (key : string) (default : pyval) :
  forall v d', Cli.setdefault d key default = (v, d') ->
    v = item d key default /\ assoc key d' = Some v /\
    forall k, k <> key -> assoc k d' = assoc k d.
Proof.
  unfold Cli.setdefault, item. intros v d'.
  destruct (assoc key d) as [x|] eqn:Hk; intros H; inversion H; subst.
  - auto.
  - split; [reflexivity|]. split.
    + rewrite (assoc_app_None _ _ _ Hk). cbn. now rewrite String.eqb_refl.
    + intros k Hne. destruct (assoc k d) as [y|] eqn:Hy.
      * now apply assoc_app_Some.
      * rewrite (assoc_app_None _ _ _ Hy). cbn.
        destruct (String.eqb k key) eqn:E; [|reflexivity].
        apply String.eqb_eq in E. contradiction.
Qed.

Lemma item_assoc d (key : string) (default v : pyval) :
  assoc key d = Some v -> item d key default = v.
Proof. unfold item. now intros ->. Qed.

Lemma item_same d d' (key : string) (default : pyval) :
  assoc key d' = assoc key d -> item d' key default = item d key default.
Proof. unfold item. now intros ->. Qed.

End Dicts.

(** ** Loading the configuration for a command *)

Section CliLoading.

Lemma load_config_normal (w : Cli.world) (config : pyval) :
  Cli.file w = Normal config -> Cli.load_config w = (Cli.Returned config, w).
Proof. unfold Cli.load_config. now intros ->. Qed.

(** A configuration that [load_config] returns is in the file from
    then on. *)
Lemma load_config_returned (w w1 : Cli.world) (config : pyval) :
  Cli.load_config w = (Cli.Returned config, w1) -> Cli.file w1 = Normal config.
Proof.
  unfold Cli.load_config. destruct (Cli.file w) as [c|e] eqn:Hf.
  - intros H; inversion H; subst. exact Hf.
  - destruct e; intros H; inversion H; reflexivity.
Qed.

End CliLoading.

(** ** Adding a location *)

Section AddLocation.

Import Spec.

Lemma location_exists_app (name : string) (locs more : list pyval) :
  Cli.location_exists name locs = Normal false ->
  Cli.location_exists name (locs ++ more) = Cli.location_exists name more.
Proof.
  induction locs as [| loc rest IH]; cbn [Cli.location_exists app]; [reflexivity|].
  destruct (get1 loc "name") as [n|]; cbn [obind]; [|discriminate].
  destruct (eq n (VStr name)); [discriminate|exact IH].
Qed.

Lemma location_exists_new (name : string) (latitude longitude : pyval) :
  Cli.location_exists name [Cli.new_location name latitude longitude] = Normal true.
Proof.
  cbn [Cli.location_exists Cli.new_location get1 get obind].
  change (item _ "name" VNone) with (VStr name). now rewrite eq_VStr_refl.
Qed.

(** No location that the search has passed is the new one. *)
Lemma location_exists_false (name : string) (latitude longitude : pyval) (locs : list pyval) :
  Cli.location_exists name locs = Normal false ->
  ~ In (Cli.new_location name latitude longitude) locs.
Proof.
  induction locs as [| loc rest IH]; cbn [Cli.location_exists In]; [tauto|].
  destruct (get1 loc "name") as [n|] eqn:Hn; cbn [obind]; [|discriminate].
  destruct (eq n (VStr name)) eqn:He; [discriminate|].
  intros Hrest [Hloc|Hin]; [|now apply IH].
  subst loc. cbn in Hn. inversion Hn; subst n.
  rewrite eq_VStr_refl in He. discriminate.
Qed.

(** What line 116 does to a document whose locations are a list. *)
Lemma with_location_spec d (locs : list pyval) (new : pyval) :
  item d "locations" (VList []) = VList locs ->
  exists d',
    Cli.with_location (VDict d) new = Normal (VDict d') /\
    item d' "locations" (VList []) = VList (locs ++ [new]) /\
    forall k, k <> "locations" -> assoc k d' = assoc k d.
Proof.
  intros Hlocs. unfold Cli.with_location.
  destruct (Cli.setdefault d "locations" (VList [])) as [v d0] eqn:Hs.
  destruct (setdefault_spec _ _ _ _ _ Hs) as (Hv & Hd0 & Hother).
  rewrite Hlocs in Hv. subst v. cbn [Cli.append obind].
  eexists. split; [reflexivity|]. split.
  - apply item_assoc. apply assoc_set_item. eauto.
  - intros k Hk. rewrite assoc_set_item_other by exact Hk. now apply Hother.
Qed.

(** The locations a command iterates are a list once [with_location]
    has accepted them. *)
Lemma with_location_list config new config' locs :
  obind (get config "locations" (VList [])) iter = Normal locs ->
  Cli.with_location config new = Normal config' ->
  exists d, config = VDict d /\ item d "locations" (VList []) = VList locs.
Proof.
  destruct config as [| | | | | | d]; try discriminate.
  cbn [get obind]. intros Hiter Hwith. exists d. split; [reflexivity|].
  unfold Cli.with_location in Hwith.
  destruct (Cli.setdefault d "locations" (VList [])) as [v d0] eqn:Hs.
  destruct (setdefault_spec _ _ _ _ _ Hs) as (Hv & _). rewrite <- Hv in *.
  destruct v; try discriminate Hwith. cbn in Hiter. now inversion Hiter.
Qed.

Lemma add_location_loaded name latitude longitude w config w1 :
  Cli.load_config w = (Cli.Returned config, w1) ->
  Cli.add_location name latitude longitude w = Cli.add_location name latitude longitude w1.
Proof.
  intros Hl. unfold Cli.add_location. rewrite Hl.
  now rewrite (load_config_normal w1 config (load_config_returned _ _ _ Hl)).
Qed.

(** X13. [add_location] adds a name only once: after a run that has
    returned for a name, whether it added the location or found it, a
    further run with that name reports that the location already exists
    and leaves the file as it is, whatever the coordinates it is given. *)
Theorem add_location_once (name : string) (latitude longitude latitude' longitude' : pyval)
    (w w1 : Cli.world) :
  Cli.add_location name latitude longitude w = (Cli.Returned tt, w1) ->
  Cli.add_location name latitude' longitude' w1
  = (Cli.Returned tt, Cli.print [Cli.LocationAlreadyExists name] w1).
Proof.
  unfold Cli.add_location at 1.
  destruct (Cli.load_config w) as [[config|e|code] w0] eqn:Hl; try discriminate.
  pose proof (load_config_returned _ _ _ Hl) as Hfile.
  destruct (obind (get config "locations" (VList [])) iter) as [locs|e] eqn:Hlocs;
    [|discriminate].
  destruct (Cli.location_exists name locs) as [[|]|e] eqn:He; [| |discriminate].
  - intros H; inversion H; subst w1. clear H.
    unfold Cli.add_location.
    rewrite (load_config_normal _ config) by exact Hfile.
    rewrite Hlocs, He. reflexivity.
  - destruct (Cli.with_location config (Cli.new_location name latitude longitude))
      as [config'|e] eqn:Hw; [|discriminate].
    intros H; inversion H; subst w1. clear H.
    destruct (with_location_list _ _ _ _ Hlocs Hw) as (d & -> & Hitem).
    destruct (with_location_spec d locs (Cli.new_location name latitude longitude) Hitem)
      as (d' & Hw' & Hitem' & _).
    rewrite Hw' in Hw. inversion Hw; subst config'.
    unfold Cli.add_location.
    rewrite (load_config_normal _ (VDict d')) by reflexivity.
    cbn [get obind]. rewrite Hitem'. cbn [iter].
    rewrite (location_exists_app _ _ _ He), location_exists_new. reflexivity.
Qed.

End AddLocation.

Lemma add_location_once_witness :
  Cli.add_location "Springfield" (Sample.flt 1 0) (Sample.flt 3 0)
    (snd (Cli.add_location "Springfield" (Sample.flt 159 (-2)) (Sample.flt (-179) (-1))
            Notions.no_file))
  = (Cli.Returned tt,
     Cli.print [Cli.LocationAlreadyExists "Springfield"]
       (snd (Cli.add_location "Springfield" (Sample.flt 159 (-2)) (Sample.flt (-179) (-1))
               Notions.no_file))).
Proof.
  apply (add_location_once "Springfield" (Sample.flt 159 (-2)) (Sample.flt (-179) (-1))
           (Sample.flt 1 0) (Sample.flt 3 0) Notions.no_file).
  reflexivity.
Defined.

(** ** A location added under a name that is taken up to whitespace *)

Section Shadowing.

Import Spec.

Lemma resolve_app (q : string) (locs more : list pyval) :
  resolve q (locs ++ more)
  = match resolve q locs with Some loc => Some loc | None => resolve q more end.
Proof.
  induction locs as [| loc rest IH]; cbn [resolve app]; [reflexivity|].
  destruct (name_of loc) as [n|]; [|exact IH].
  destruct (names_match n q); [reflexivity|exact IH].
Qed.

Lemma resolve_new (q name : string) (latitude longitude : pyval) :
  resolve q [Cli.new_location name latitude longitude]
  = if names_match name q then Some (Cli.new_location name latitude longitude) else None.
Proof. reflexivity. Qed.

Lemma resolve_Some (q : string) (locs : list pyval) (loc : pyval) :
  resolve q locs = Some loc ->
  exists n, name_of loc = Some n /\ names_match n q = true.
Proof.
  induction locs as [| l rest IH]; cbn [resolve]; [discriminate|].
  destruct (name_of l) as [n|] eqn:Hn; [|exact IH].
  destruct (names_match n q) eqn:Hm; [|exact IH].
  intros H; inversion H; subst. eauto.
Qed.

Lemma resolve_None (q : string) (locs : list pyval) (loc : pyval) (n : string) :
  resolve q locs = None -> In loc locs -> name_of loc = Some n -> names_match n q = false.
Proof.
  induction locs as [| l rest IH]; cbn [resolve In]; [tauto|].
  intros Hres [->|Hin] Hn.
  - rewrite Hn in Hres. destruct (names_match n q); [discriminate|reflexivity].
  - apply IH; [|exact Hin|exact Hn].
    destruct (name_of l) as [m|]; [|exact Hres].
    destruct (names_match m q); [discriminate|exact Hres].
Qed.

Lemma names_match_trans (a b c : string) :
  names_match a b = true -> names_match b c = true -> names_match a c = true.
Proof.
  unfold names_match. rewrite !String.eqb_eq. congruence.
Qed.

(** X14. [add_location] compares names as they are, the engine compares
    them trimmed.  When no configured location has exactly the new name,
    the command appends the new location after the others; the engine
    then finds for a queried name the first earlier location that matches
    it and the new location only if none does.  So a location added under
    a name that an earlier one carries up to surrounding whitespace is
    found for no queried name at all. *)
Theorem added_location_lookup (name : string) (latitude longitude : pyval)
    d (locs : list pyval) (w : Cli.world) :
  let new := Cli.new_location name latitude longitude in
  Cli.file w = Normal (VDict d) ->
  item d "locations" (VList []) = VList locs ->
  Forall (fun loc => is_Some (name_of loc)) locs ->
  Cli.location_exists name locs = Normal false ->
  exists d',
    Cli.add_location name latitude longitude w
    = (Cli.Returned tt,
       Cli.print [Cli.AddedLocation name latitude longitude] (Cli.write (VDict d') w)) /\
    item d' "locations" (VList []) = VList (locs ++ [new]) /\
    (forall q st, exists lines,
       find_location q (locs ++ [new]) st
       = (Normal (match resolve q locs with
                  | Some loc => loc
                  | None => if names_match name q then new else VNone
                  end),
          set_log (log st ++ lines) st)) /\
    (resolve name locs <> None ->
     forall q st, fst (find_location q (locs ++ [new]) st) <> Normal new).
Proof.
  intros new Hfile Hlocs Hnamed Hnone.
  destruct (with_location_spec d locs new Hlocs) as (d' & Hw & Hitem & _).
  assert (Hfind : forall q st, exists lines,
            find_location q (locs ++ [new]) st
            = (Normal (match resolve q locs with
                       | Some loc => loc
                       | None => if names_match name q then new else VNone
                       end),
               set_log (log st ++ lines) st)).
  { intros q st.
    destruct (find_location_resolve q (locs ++ [new])) with (st := st) as [lines Hf].
    - apply Forall_app. split; [exact Hnamed|]. repeat constructor. now exists name.
    - exists lines. rewrite Hf, resolve_app. subst new. rewrite resolve_new.
      destruct (resolve q locs); [reflexivity|].
      now destruct (names_match name q). }
  exists d'. split; [|split; [exact Hitem|split; [exact Hfind|]]].
  - unfold Cli.add_location. rewrite (load_config_normal _ _ Hfile).
    cbn [get obind]. rewrite Hlocs. cbn [iter]. rewrite Hnone.
    fold new. rewrite Hw. reflexivity.
  - intros Hshadow q st. destruct (Hfind q st) as [lines ->]. cbn [fst].
    destruct (resolve q locs) as [loc|] eqn:Hq.
    + intros H. inversion H; subst loc.
      apply (location_exists_false name latitude longitude locs Hnone).
      now apply (resolve_in q).
    + destruct (resolve name locs) as [old|] eqn:Hold; [|contradiction].
      destruct (resolve_Some _ _ _ Hold) as (n & Hn & Hmatch).
      destruct (names_match name q) eqn:Hnq; [|discriminate].
      pose proof (resolve_None q locs old n Hq (resolve_in _ _ _ Hold) Hn) as Hfalse.
      rewrite (names_match_trans _ _ _ Hmatch Hnq) in Hfalse. discriminate.
Qed.

End Shadowing.

Lemma added_location_lookup_witness :
  fst (find_location "Springfield "
         ([Sample.place "Springfield" []]
          ++ [Cli.new_location "Springfield " (Sample.flt 1 0) (Sample.flt 3 0)])
         (Sample.checker (Normal Sample.springfield) Sample.springfield))
  <> Normal (Cli.new_location "Springfield " (Sample.flt 1 0) (Sample.flt 3 0)).
Proof.
  destruct (added_location_lookup "Springfield " (Sample.flt 1 0) (Sample.flt 3 0)
              [("locations", VList [Sample.place "Springfield" []])]
              [Sample.place "Springfield" []]
              (Notions.on_disk (VDict [("locations", VList [Sample.place "Springfield" []])]))
              eq_refl eq_refl)
    as (d' & _ & _ & _ & Hshadow).
  - repeat constructor. now exists "Springfield".
  - reflexivity.
  - apply Hshadow. discriminate.
Defined.

(** ** Adding an alert *)

Section AddAlert.

Import Spec.

Lemma alert_exists_app (condition operator : string) (value : pyval) (alerts more : list pyval) :
  Cli.alert_exists condition operator value alerts = Normal false ->
  Cli.alert_exists condition operator value (alerts ++ more)
  = Cli.alert_exists condition operator value more.
Proof.
  induction alerts as [| alert rest IH]; cbn [Cli.alert_exists app]; [reflexivity|].
  destruct (get1 alert "condition") as [c|]; cbn [obind]; [|discriminate].
  destruct (eq c (VStr condition)); [|exact IH].
  destruct (get1 alert "operator") as [o|]; cbn [obind]; [|discriminate].
  destruct (eq o (VStr operator)); [|exact IH].
  destruct (get1 alert "value") as [v|]; cbn [obind]; [|discriminate].
  destruct (eq v value); [discriminate|exact IH].
Qed.

(** The new alert is a duplicate of itself exactly when its value is
    equal to itself. *)
Lemma alert_exists_new (condition operator : string) (value : pyval) (message : string) :
  Cli.alert_exists condition operator value [Cli.new_alert condition operator value message]
  = Normal (eq value value).
Proof.
  cbn [Cli.alert_exists Cli.new_alert get1 get obind].
  change (item _ "condition" VNone) with (VStr condition).
  change (item _ "operator" VNone) with (VStr operator).
  change (item _ "value" VNone) with value.
  rewrite !eq_VStr_refl. now destruct (eq value value).
Qed.

(** What lines 143-151 do to a location that lacks the alert. *)
Lemma add_to_found l (listed : list pyval) (new : pyval) :
  item l "alerts" (VList []) = VList listed ->
  exists l',
    Cli.setdefault l "alerts" (VList []) = (VList listed, l') /\
    item (Cli.set_item "alerts" (VList (listed ++ [new])) l') "alerts" (VList [])
    = VList (listed ++ [new]) /\
    forall k, k <> "alerts" ->
      assoc k (Cli.set_item "alerts" (VList (listed ++ [new])) l') = assoc k l.
Proof.
  intros Hl. destruct (Cli.setdefault l "alerts" (VList [])) as [v l'] eqn:Hs.
  destruct (setdefault_spec _ _ _ _ _ Hs) as (Hv & Hl' & Hother).
  rewrite Hl in Hv. subst v. exists l'. split; [reflexivity|]. split.
  - apply item_assoc, assoc_set_item. eauto.
  - intros k Hk. rewrite assoc_set_item_other by exact Hk. now apply Hother.
Qed.

(** The alerts that were iterated and then appended to are a list. *)
Lemma appended_list (alerts new alerts' : pyval) (listed : list pyval) :
  iter alerts = Normal listed -> Cli.append alerts new = Normal alerts' ->
  alerts = VList listed /\ alerts' = VList (listed ++ [new]).
Proof.
  destruct alerts; try discriminate. cbn. intros H1 H2. inversion H1; inversion H2; subst.
  auto.
Qed.

(** Running the loop again on the locations it has updated: it stops at
    the same location, where the new alert is found as a duplicate when
    its value equals itself, and added once more when it does not. *)
Lemma add_to_location_again (location condition operator : string) (value : pyval)
    (message message' : string) (locs locs' : list pyval) :
  Cli.add_to_location location condition operator value message locs
  = Normal (Cli.Updated locs') ->
  if eq value value
  then Cli.add_to_location location condition operator value message' locs'
       = Normal Cli.Duplicate
  else exists locs'',
       Cli.add_to_location location condition operator value message' locs'
       = Normal (Cli.Updated locs'').
Proof.
  revert locs'. induction locs as [| loc rest IH]; intros locs'; cbn [Cli.add_to_location];
    [discriminate|].
  destruct (get1 loc "name") as [n|] eqn:Hn; cbn [obind]; [|discriminate].
  destruct (eq n (VStr location)) eqn:Hname.
  - destruct loc as [| | | | | | l]; try discriminate.
    destruct (Cli.setdefault l "alerts" (VList [])) as [alerts l'] eqn:Hs.
    destruct (iter alerts) as [listed|] eqn:Hiter; cbn [obind]; [|discriminate].
    destruct (Cli.alert_exists condition operator value listed) as [[|]|] eqn:Hex;
      cbn [obind]; try discriminate.
    destruct (Cli.append alerts (Cli.new_alert condition operator value message))
      as [alerts'|] eqn:Happ; cbn [obind]; [|discriminate].
    intros H; inversion H; subst locs'. clear H.
    destruct (appended_list _ _ _ _ Hiter Happ) as [-> ->].
    destruct (setdefault_spec _ _ _ _ _ Hs) as (Hv & Hl' & Hother).
    set (new := Cli.new_alert condition operator value message) in *.
    set (l2 := Cli.set_item "alerts" (VList (listed ++ [new])) l').
    assert (Hname2 : get1 (VDict l2) "name" = Normal n).
    { cbn [get1 get] in Hn |- *. inversion Hn as [Hn']. f_equal.
      apply item_same. unfold l2. rewrite assoc_set_item_other by discriminate.
      apply Hother. discriminate. }
    assert (Hset2 : Cli.setdefault l2 "alerts" (VList []) = (VList (listed ++ [new]), l2)).
    { unfold Cli.setdefault, l2. rewrite assoc_set_item by eauto. reflexivity. }
    assert (Hex2 : Cli.alert_exists condition operator value (listed ++ [new])
                   = Normal (eq value value)).
    { rewrite (alert_exists_app _ _ _ _ _ Hex). apply alert_exists_new. }
    destruct (eq value value) eqn:Hvv.
    + cbn [Cli.add_to_location]. rewrite Hname2. cbn [obind]. rewrite Hname, Hset2.
      cbn [iter obind]. rewrite Hex2. reflexivity.
    + eexists. cbn [Cli.add_to_location]. rewrite Hname2. cbn [obind]. rewrite Hname, Hset2.
      cbn [iter obind]. rewrite Hex2. cbn [obind Cli.append]. reflexivity.
  - destruct (Cli.add_to_location location condition operator value message rest)
      as [[| |rest']|] eqn:Hrest; cbn [obind]; try discriminate.
    intros H; inversion H; subst locs'. clear H.
    specialize (IH rest' eq_refl).
    destruct (eq value value).
    + cbn [Cli.add_to_location]. rewrite Hn. cbn [obind]. rewrite Hname, IH. reflexivity.
    + destruct IH as [locs'' IH]. eexists.
      cbn [Cli.add_to_location]. rewrite Hn. cbn [obind]. rewrite Hname, IH. reflexivity.
Qed.

(** An update stems from a 'locations' that is there. *)
Lemma updated_present d (location condition operator : string) (value : pyval)
    (message : string) (locs locs' : list pyval) :
  obind (get (VDict d) "locations" (VList [])) iter = Normal locs ->
  Cli.add_to_location location condition operator value message locs
  = Normal (Cli.Updated locs') ->
  is_Some (assoc "locations" d).
Proof.
  cbn [get obind]. unfold item. destruct (assoc "locations" d) as [v|]; [eauto|].
  cbn. intros H; inversion H; subst locs. discriminate.
Qed.

Lemma add_alert_loaded location condition operator value message w config w1 :
  Cli.load_config w = (Cli.Returned config, w1) ->
  Cli.add_alert location condition operator value message w
  = Cli.add_alert location condition operator value message w1.
Proof.
  intros Hl. unfold Cli.add_alert. rewrite Hl.
  now rewrite (load_config_normal w1 config (load_config_returned _ _ _ Hl)).
Qed.

(** X15. [add_alert] adds a rule only once when its value equals itself:
    after a run that has returned, a further run with the same location,
    condition, operator and value, whatever the message, reports that the
    alert exists (or that the location is not configured) and leaves the
    file as it is. *)
Theorem add_alert_once (location condition operator : string) (value : pyval)
    (message message' : string) (w w1 : Cli.world) :
  eq value value = true ->
  Cli.add_alert location condition operator value message w = (Cli.Returned tt, w1) ->
  exists said,
    Cli.add_alert location condition operator value message' w1
    = (Cli.Returned tt, Cli.print [said] w1) /\
    (said = Cli.AlertAlreadyExists location \/
     said = Cli.LocationNotFoundInConfiguration location).
Proof.
  intros Hvv. unfold Cli.add_alert at 1.
  destruct (Cli.load_config w) as [[config|e|code] w0] eqn:Hl; try discriminate.
  pose proof (load_config_returned _ _ _ Hl) as Hfile.
  destruct (obind (get config "locations" (VList [])) iter) as [locs|e] eqn:Hlocs;
    [|discriminate].
  destruct (Cli.add_to_location location condition operator value message locs)
    as [[| |locs']|e] eqn:Hadd; [| | |discriminate].
  - intros H; inversion H; subst w1. clear H.
    assert (Hagain : Cli.add_to_location location condition operator value message' locs
                     = Normal Cli.NoSuchLocation).
    { clear -Hadd. induction locs as [| loc rest IH]; cbn [Cli.add_to_location] in *;
        [reflexivity|].
      destruct (get1 loc "name") as [n|]; cbn [obind] in *; [|discriminate].
      destruct (eq n (VStr location)).
      - destruct loc; try discriminate.
        destruct (Cli.setdefault d "alerts" (VList [])) as [alerts l'].
        destruct (iter alerts) as [listed|]; cbn [obind] in *; [|discriminate].
        destruct (Cli.alert_exists condition operator value listed) as [[|]|];
          cbn [obind] in *; try discriminate.
        destruct (Cli.append alerts _); discriminate.
      - destruct (Cli.add_to_location location condition operator value message rest)
          as [[| |]|]; cbn [obind] in *; try discriminate.
        rewrite IH by reflexivity. reflexivity. }
    eexists. split; [|right; reflexivity].
    unfold Cli.add_alert. rewrite (load_config_normal _ config) by exact Hfile.
    rewrite Hlocs, Hagain. reflexivity.
  - intros H; inversion H; subst w1. clear H.
    assert (Hagain : Cli.add_to_location location condition operator value message' locs
                     = Normal Cli.Duplicate).
    { clear -Hadd. induction locs as [| loc rest IH]; cbn [Cli.add_to_location] in *;
        [discriminate|].
      destruct (get1 loc "name") as [n|]; cbn [obind] in *; [|discriminate].
      destruct (eq n (VStr location)).
      - destruct loc; try discriminate.
        destruct (Cli.setdefault d "alerts" (VList [])) as [alerts l'].
        destruct (iter alerts) as [listed|]; cbn [obind] in *; [|discriminate].
        destruct (Cli.alert_exists condition operator value listed) as [[|]|];
          cbn [obind] in *; try discriminate; [reflexivity|].
        destruct (Cli.append alerts _); discriminate.
      - destruct (Cli.add_to_location location condition operator value message rest)
          as [[| |]|]; cbn [obind] in *; try discriminate.
        rewrite IH by reflexivity. reflexivity. }
    eexists. split; [|left; reflexivity].
    unfold Cli.add_alert. rewrite (load_config_normal _ config) by exact Hfile.
    rewrite Hlocs, Hagain. reflexivity.
  - destruct config as [| | | | | | d]; try discriminate.
    intros H; inversion H; subst w1. clear H.
    pose proof (add_to_location_again _ _ _ _ _ message' _ _ Hadd) as Hagain.
    rewrite Hvv in Hagain.
    eexists. split; [|left; reflexivity].
    unfold Cli.add_alert. rewrite (load_config_normal _ (VDict _)) by reflexivity.
    cbn [get obind]. rewrite (item_assoc _ _ _ (VList locs')).
    + cbn [iter]. rewrite Hagain. reflexivity.
    + apply assoc_set_item. eapply updated_present; eassumption.
Qed.

(** The loop never hands back the locations it was given. *)
Lemma add_to_location_changes (location condition operator : string) (value : pyval)
    (message : string) (locs locs' : list pyval) :
  Cli.add_to_location location condition operator value message locs
  = Normal (Cli.Updated locs') ->
  locs' <> locs.
Proof.
  revert locs'. induction locs as [| loc rest IH]; intros locs'; cbn [Cli.add_to_location];
    [discriminate|].
  destruct (get1 loc "name") as [n|] eqn:Hn; cbn [obind]; [|discriminate].
  destruct (eq n (VStr location)) eqn:Hname.
  - destruct loc as [| | | | | | l]; try discriminate.
    destruct (Cli.setdefault l "alerts" (VList [])) as [alerts l'] eqn:Hs.
    destruct (iter alerts) as [listed|] eqn:Hiter; cbn [obind]; [|discriminate].
    destruct (Cli.alert_exists condition operator value listed) as [[|]|] eqn:Hex;
      cbn [obind]; try discriminate.
    destruct (Cli.append alerts (Cli.new_alert condition operator value message))
      as [alerts'|] eqn:Happ; cbn [obind]; [|discriminate].
    intros H; inversion H; subst locs'. clear H.
    destruct (appended_list _ _ _ _ Hiter Happ) as [-> ->].
    destruct (setdefault_spec _ _ _ _ _ Hs) as (Hv & Hl' & _).
    intros Heq. inversion Heq as [Hl]. clear Heq.
    assert (Hitem : item l "alerts" (VList []) = VList (listed ++ [Cli.new_alert condition operator value message])).
    { rewrite <- Hl at 1. apply item_assoc, assoc_set_item. eauto. }
    rewrite <- Hv in Hitem. inversion Hitem as [Hlen].
    apply (f_equal (@List.length _)) in Hlen. rewrite length_app in Hlen. cbn in Hlen. lia.
  - destruct (Cli.add_to_location location condition operator value message rest)
      as [[| |rest']|] eqn:Hrest; cbn [obind]; try discriminate.
    intros H; inversion H; subst locs'. clear H.
    intros Heq. inversion Heq. now apply (IH rest').
Qed.

(** X16. The duplicate test of [add_alert] is [==]: a value that does not
    equal itself, as NaN, is never found.  After a run that has reported
    the addition of such a rule, a further run with the same arguments
    reports the addition again and writes a file that differs from the
    one it has read. *)
Theorem unequal_value_is_added_again (location condition operator : string) (value : pyval)
    (message message' : string) (w w1 : Cli.world) (before : list Cli.line) :
  eq value value = false ->
  Cli.add_alert location condition operator value message w = (Cli.Returned tt, w1) ->
  Cli.printed w1 = before ++ [Cli.AddedAlert condition operator value location] ->
  exists config2,
    (Cli.add_alert location condition operator value message' w1
     = (Cli.Returned tt,
        Cli.print [Cli.AddedAlert condition operator value location] (Cli.write config2 w1))) /\
    (Cli.file w1 <> Normal config2).
Proof.
  intros Hvv. unfold Cli.add_alert at 1.
  destruct (Cli.load_config w) as [[config|e|code] w0] eqn:Hl; try discriminate.
  destruct (obind (get config "locations" (VList [])) iter) as [locs|e] eqn:Hlocs;
    [|discriminate].
  destruct (Cli.add_to_location location condition operator value message locs)
    as [[| |locs']|e] eqn:Hadd; [| | |discriminate].
  - intros H; inversion H; subst w1. cbn [Cli.printed Cli.print].
    intros Hp. apply app_inj_tail in Hp as [_ Hp]. discriminate.
  - intros H; inversion H; subst w1. cbn [Cli.printed Cli.print].
    intros Hp. apply app_inj_tail in Hp as [_ Hp]. discriminate.
  - destruct config as [| | | | | | d]; try discriminate.
    intros H; inversion H; subst w1. clear H. intros _.
    pose proof (add_to_location_again _ _ _ _ _ message' _ _ Hadd) as Hagain.
    rewrite Hvv in Hagain. destruct Hagain as [locs'' Hagain].
    assert (Hitem : item (Cli.set_item "locations" (VList locs') d) "locations" (VList [])
                    = VList locs').
    { apply item_assoc, assoc_set_item. eapply updated_present; eassumption. }
    eexists. split.
    + unfold Cli.add_alert. rewrite (load_config_normal _ (VDict _)) by reflexivity.
      cbn [get obind]. rewrite Hitem. cbn [iter]. rewrite Hagain. reflexivity.
    + cbn [Cli.file Cli.print Cli.write]. intros Heq. inversion Heq as [Hd].
      apply (add_to_location_changes _ _ _ _ _ _ _ Hagain).
      assert (H2 : item (Cli.set_item "locations" (VList locs'')
                           (Cli.set_item "locations" (VList locs') d)) "locations" (VList [])
                   = VList locs'').
      { apply item_assoc, assoc_set_item. rewrite assoc_set_item; [eauto|].
        eapply updated_present; eassumption. }
      rewrite <- Hd, Hitem in H2. now inversion H2.
Qed.

End AddAlert.

Lemma add_alert_once_witness :
  exists said,
    Cli.add_alert "Springfield" "temperature" "above" (VInt 30) "Hot"
      (snd (Cli.add_alert "Springfield" "temperature" "above" (VInt 30) "Heat"
              (Notions.on_disk
                 (Sample.settings [Sample.place "Springfield" []] (VDict [])))))
    = (Cli.Returned tt,
       Cli.print [said]
         (snd (Cli.add_alert "Springfield" "temperature" "above" (VInt 30) "Heat"
                 (Notions.on_disk
                    (Sample.settings [Sample.place "Springfield" []] (VDict [])))))) /\
    (said = Cli.AlertAlreadyExists "Springfield" \/
     said = Cli.LocationNotFoundInConfiguration "Springfield").
Proof.
  apply (add_alert_once "Springfield" "temperature" "above" (VInt 30) "Heat" "Hot"
           (Notions.on_disk (Sample.settings [Sample.place "Springfield" []] (VDict [])))).
  - reflexivity.
  - reflexivity.
Defined.

Lemma unequal_value_is_added_again_witness :
  exists config2,
    (Cli.add_alert "Springfield" "wind" "above" (VFloat S754_nan) "Gale"
      (snd (Cli.add_alert "Springfield" "wind" "above" (VFloat S754_nan) "Gale"
              (Notions.on_disk
                 (Sample.settings [Sample.place "Springfield" []] (VDict [])))))
    = (Cli.Returned tt,
       Cli.print [Cli.AddedAlert "wind" "above" (VFloat S754_nan) "Springfield"]
         (Cli.write config2
            (snd (Cli.add_alert "Springfield" "wind" "above" (VFloat S754_nan) "Gale"
                    (Notions.on_disk
                       (Sample.settings [Sample.place "Springfield" []] (VDict [])))))))) /\
    (Cli.file (snd (Cli.add_alert "Springfield" "wind" "above" (VFloat S754_nan) "Gale"
                      (Notions.on_disk
                         (Sample.settings [Sample.place "Springfield" []] (VDict [])))))
     <> Normal config2).
Proof.
  apply (unequal_value_is_added_again "Springfield" "wind" "above" (VFloat S754_nan)
           "Gale" "Gale"
           (Notions.on_disk (Sample.settings [Sample.place "Springfield" []] (VDict [])))
           _ []).
  - reflexivity.
  - reflexivity.
  - reflexivity.
Defined.

(** ** The shape of the configurations the commands write *)

Section Shape.

Import Spec.

Lemma default_config_ok : config_ok Cli.default_config = true.
Proof. reflexivity. Qed.

Lemma quiet_hours_ok_same (c c' : list (string * pyval)) :
  assoc "preferences" c' = assoc "preferences" c -> quiet_hours_ok c' = quiet_hours_ok c.
Proof.
  intros H. unfold quiet_hours_ok. now rewrite (item_same c c' "preferences" _ H).
Qed.

Lemma location_exists_ok (name : string) (locs : list pyval) :
  forallb location_ok locs = true -> exists b, Cli.location_exists name locs = Normal b.
Proof.
  induction locs as [| loc rest IH]; cbn [forallb Cli.location_exists]; [eauto|].
  intros H. apply andb_prop in H as [Hloc Hrest].
  destruct loc; try discriminate Hloc. cbn [get1 get obind].
  destruct (eq _ _); eauto.
Qed.

Lemma new_location_ok (name : string) (latitude longitude : pyval) :
  location_ok (Cli.new_location name latitude longitude) = true.
Proof. reflexivity. Qed.

Lemma new_alert_ok (condition operator : string) (value : pyval) (message : string) :
  numeric value = true -> rule_ok (Cli.new_alert condition operator value message) = true.
Proof.
  intros Hv. unfold Cli.new_alert. cbn [rule_ok].
  change (item _ "value" VNone) with value. rewrite Hv. now destruct (_ && _).
Qed.

Lemma alert_exists_ok (condition operator : string) (value : pyval) (alerts : list pyval) :
  forallb rule_ok alerts = true ->
  exists b, Cli.alert_exists condition operator value alerts = Normal b.
Proof.
  induction alerts as [| alert rest IH]; cbn [forallb Cli.alert_exists]; [eauto|].
  intros H. apply andb_prop in H as [Halert Hrest].
  destruct alert; try discriminate Halert. cbn [get1 get obind].
  destruct (eq _ _); [|auto]. destruct (eq _ _); [|auto]. destruct (eq _ _); eauto.
Qed.

(** On locations of the shape of the schema the loop of [add_alert]
    cannot raise, and what it updates keeps the shape. *)
Lemma add_to_location_ok (location condition operator : string) (value : pyval)
    (message : string) (locs : list pyval) :
  numeric value = true ->
  forallb location_ok locs = true ->
  exists found,
    Cli.add_to_location location condition operator value message locs = Normal found /\
    match found with
    | Cli.Updated locs' => forallb location_ok locs' = true
    | _ => True
    end.
Proof.
  intros Hv. induction locs as [| loc rest IH]; cbn [forallb Cli.add_to_location].
  - intros _. exists Cli.NoSuchLocation. auto.
  - intros H. apply andb_prop in H as [Hloc Hrest].
    destruct loc as [| | | | | | l]; try discriminate Hloc.
    cbn [get1 get obind].
    destruct (eq (item l "name" VNone) (VStr location)).
    + cbn [location_ok] in Hloc. apply andb_prop in Hloc as [Hname Hrules].
      destruct (item l "alerts" (VList [])) as [| | | | |listed|] eqn:Hl;
        try discriminate Hrules.
      destruct (add_to_found l listed (Cli.new_alert condition operator value message) Hl)
        as (l' & Hs & Hitem & Hother).
      rewrite Hs. cbn [iter obind].
      destruct (alert_exists_ok condition operator value listed Hrules) as [[|] Hex];
        rewrite Hex; cbn [obind Cli.append].
      * exists Cli.Duplicate. auto.
      * eexists. split; [reflexivity|]. cbn [forallb]. rewrite Hrest, andb_true_r.
        cbn [location_ok]. rewrite Hitem.
        rewrite (item_same l _ "name") by (apply Hother; discriminate).
        rewrite Hname. cbn [andb]. rewrite forallb_app, Hrules. cbn [forallb andb].
        now rewrite new_alert_ok.
    + destruct (IH Hrest) as (found & Hfound & Hshape). rewrite Hfound. cbn [obind].
      eexists. split; [reflexivity|].
      destruct found; try exact I. cbn [forallb]. now rewrite Hloc.
Qed.

(** One edit on a configuration of the shape of the schema. *)
Lemma edit_keeps_shape (e : Notions.edit) (w : Cli.world) (config : pyval) :
  Cli.file w = Normal config -> config_ok config = true ->
  Notions.numeric_edit e = true ->
  exists w',
    Notions.apply e w = (Cli.Returned tt, w') /\
    Notions.well_formed (Cli.file w') = true.
Proof.
  intros Hfile Hok He.
  destruct config as [| | | | | | d]; try discriminate Hok.
  pose proof Hok as Hok'. cbn [config_ok] in Hok'.
  apply andb_prop in Hok' as [Hquiet Hlocs].
  destruct (item d "locations" (VList [])) as [| | | | |locs|] eqn:Hitem;
    try discriminate Hlocs.
  destruct e as [name latitude longitude | location condition operator value message];
    cbn [Notions.apply Notions.numeric_edit] in *.
  - unfold Cli.add_location. rewrite (load_config_normal _ _ Hfile).
    cbn [get obind]. rewrite Hitem. cbn [iter].
    destruct (location_exists_ok name locs Hlocs) as [[|] Hex]; rewrite Hex.
    + eexists. split; [reflexivity|]. cbn [Cli.file Cli.print]. rewrite Hfile. exact Hok.
    + destruct (with_location_spec d locs (Cli.new_location name latitude longitude) Hitem)
        as (d' & Hw & Hitem' & Hother).
      rewrite Hw. eexists. split; [reflexivity|].
      cbn [Cli.file Cli.print Cli.write Notions.well_formed config_ok].
      rewrite Hitem', forallb_app, Hlocs. cbn [forallb andb].
      rewrite (quiet_hours_ok_same d d') by (apply Hother; discriminate).
      now rewrite Hquiet.
  - unfold Cli.add_alert. rewrite (load_config_normal _ _ Hfile).
    cbn [get obind]. rewrite Hitem. cbn [iter].
    destruct (add_to_location_ok location condition operator value message locs He Hlocs)
      as ([| |locs'] & Hadd & Hshape); rewrite Hadd.
    + eexists. split; [reflexivity|]. cbn [Cli.file Cli.print]. rewrite Hfile. exact Hok.
    + eexists. split; [reflexivity|]. cbn [Cli.file Cli.print]. rewrite Hfile. exact Hok.
    + eexists. split; [reflexivity|].
      cbn [Cli.file Cli.print Cli.write Notions.well_formed config_ok].
      rewrite (item_assoc _ _ _ (VList locs')).
      * rewrite Hshape.
        rewrite (quiet_hours_ok_same d) by (apply assoc_set_item_other; discriminate).
        now rewrite Hquiet.
      * apply assoc_set_item. eapply updated_present; [|exact Hadd].
        cbn [get obind]. now rewrite Hitem.
Qed.

(** The same when the file may still be missing. *)
Lemma edit_keeps_well_formed (e : Notions.edit) (w : Cli.world) :
  Notions.well_formed (Cli.file w) = true ->
  Notions.numeric_edit e = true ->
  exists w',
    Notions.apply e w = (Cli.Returned tt, w') /\
    Notions.well_formed (Cli.file w') = true.
Proof.
  intros Hw He. destruct (Cli.file w) as [config|err] eqn:Hfile.
  - now apply (edit_keeps_shape e w config).
  - destruct err; try discriminate Hw.
    assert (Hl : Cli.load_config w
                 = (Cli.Returned Cli.default_config,
                    Cli.print [Cli.CreatedDefaultConfiguration; Cli.PleaseEditConfiguration]
                      (Cli.write Cli.default_config w))).
    { unfold Cli.load_config. now rewrite Hfile. }
    destruct (edit_keeps_shape e _ Cli.default_config
                (load_config_returned _ _ _ Hl) default_config_ok He)
      as (w' & Happly & Hshape).
    exists w'. split; [|exact Hshape]. rewrite <- Happly.
    destruct e; cbn [Notions.apply].
    + apply (add_location_loaded _ _ _ _ _ _ Hl).
    + apply (add_alert_loaded _ _ _ _ _ _ _ _ Hl).
Qed.

(** X17. The commands keep the configuration in the shape of the schema
    under which an evaluation cannot raise: starting from a file that is
    missing or holds such a configuration, every run of [add_location]
    and of [add_alert] with a number for a value returns, and the file
    holds such a configuration after any sequence of them. *)
Theorem edits_keep_shape (edits : list Notions.edit) (w : Cli.world) :
  Notions.well_formed (Cli.file w) = true ->
  forallb Notions.numeric_edit edits = true ->
  Forall (fun r => r = Cli.Returned tt) (fst (Notions.session edits w)) /\
  Notions.well_formed (Cli.file (snd (Notions.session edits w))) = true.
Proof.
  revert w. induction edits as [| e rest IH]; intros w Hw Hedits; cbn [Notions.session].
  - split; [constructor|exact Hw].
  - cbn [forallb] in Hedits. apply andb_prop in Hedits as [He Hrest].
    destruct (edit_keeps_well_formed e w Hw He) as (w' & Happly & Hw').
    rewrite Happly. destruct (IH w' Hw' Hrest) as [Hall Hfinal].
    destruct (Notions.session rest w') as [rs w2]. cbn [fst snd] in *.
    split; [constructor; [reflexivity|exact Hall]|exact Hfinal].
Qed.

End Shape.

Lemma edits_keep_shape_witness :
  Forall (fun r => r = Cli.Returned tt)
    (fst (Notions.session
            [Notions.AddLocation "Springfield" (Sample.flt 159 (-2)) (Sample.flt (-179) (-1));
             Notions.AddAlert "Springfield" "wind" "above" (VFloat S754_nan) "Gale";
             Notions.AddAlert "Shelbyville" "rain" "equals" (VInt 0) "Dry"]
            Notions.no_file)) /\
  Notions.well_formed
    (Cli.file
       (snd (Notions.session
               [Notions.AddLocation "Springfield" (Sample.flt 159 (-2)) (Sample.flt (-179) (-1));
                Notions.AddAlert "Springfield" "wind" "above" (VFloat S754_nan) "Gale";
                Notions.AddAlert "Shelbyville" "rain" "equals" (VInt 0) "Dry"]
               Notions.no_file))) = true.
Proof.
  apply (edits_keep_shape
           [Notions.AddLocation "Springfield" (Sample.flt 159 (-2)) (Sample.flt (-179) (-1));
            Notions.AddAlert "Springfield" "wind" "above" (VFloat S754_nan) "Gale";
            Notions.AddAlert "Shelbyville" "rain" "equals" (VInt 0) "Dry"]
           Notions.no_file).
  - reflexivity.
  - reflexivity.
Defined.

(** * Properties of a poll *)

(** ** Computations that add calm events *)

Section Appends.

Import Service Notions.

Lemma appends_pret {A} (a : A) : appends (pret a).
Proof. intros p. split; [reflexivity|]. exists []. now rewrite app_nil_r. Qed.

Lemma appends_fail {A} (e : WeatherAPI.error) : appends (@fail A e).
Proof. intros p. split; [reflexivity|]. exists []. now rewrite app_nil_r. Qed.

Lemma appends_of_result {A} (r : WeatherAPI.result A) : appends (of_result r).
Proof. intros p. split; [reflexivity|]. exists []. now rewrite app_nil_r. Qed.

Lemma appends_ask {A} (answer : nat -> A) : appends (ask answer).
Proof. intros p. split; [reflexivity|]. exists []. cbn. now rewrite app_nil_r. Qed.

Lemma appends_on_engine {A} (c : M A) : appends (on_engine c).
Proof.
  intros p. unfold on_engine. destruct (c (engine p)) as [o st].
  split; [reflexivity|]. exists []. cbn. now rewrite app_nil_r.
Qed.

Lemma appends_emit (e : event) : calm e = true -> appends (emit e).
Proof.
  intros He p. split; [reflexivity|]. exists [e]. cbn. now rewrite He.
Qed.

Lemma appends_bind {A B} (c : P A) (k : A -> P B) :
  appends c -> (forall a, appends (k a)) -> appends (pbind c k).
Proof.
  intros Hc Hk p. unfold pbind.
  destruct (Hc p) as (Hw & new & He & Hcalm).
  destruct (c p) as [[a|e] p1]; cbn [snd] in *.
  - destruct (Hk a p1) as (Hw2 & new2 & He2 & Hcalm2).
    split; [congruence|]. exists (new ++ new2).
    rewrite He2, He, app_assoc, forallb_app, Hcalm, Hcalm2. auto.
  - split; [exact Hw|]. eauto.
Qed.

Lemma appends_try {A} (c : P A) (handler : WeatherAPI.error -> P A) :
  appends c -> (forall e, appends (handler e)) -> appends (try_exception c handler).
Proof.
  intros Hc Hh p. unfold try_exception.
  destruct (Hc p) as (Hw & new & He & Hcalm).
  destruct (c p) as [[a|e] p1]; cbn [snd] in *.
  - split; [exact Hw|]. eauto.
  - destruct (Hh e p1) as (Hw2 & new2 & He2 & Hcalm2).
    split; [congruence|]. exists (new ++ new2).
    rewrite He2, He, app_assoc, forallb_app, Hcalm, Hcalm2. auto.
Qed.

Lemma calm_attempts (new : list event) : forallb calm new = true -> attempts new = [].
Proof.
  induction new as [| e new IH]; [reflexivity|]. cbn [forallb]. intros H.
  apply andb_prop in H as [He Hnew]. cbn [attempts flat_map].
  fold (attempts new). rewrite (IH Hnew). now destruct e.
Qed.

Lemma calm_requests (new : list event) : forallb calm new = true -> requests new = [].
Proof.
  induction new as [| e new IH]; [reflexivity|]. cbn [forallb]. intros H.
  apply andb_prop in H as [He Hnew]. cbn [requests flat_map].
  fold (requests new). rewrite (IH Hnew). now destruct e.
Qed.

Lemma attempts_app (a b : list event) : attempts (a ++ b) = attempts a ++ attempts b.
Proof. apply flat_map_app. Qed.

Lemma requests_app (a b : list event) : requests (a ++ b) = requests a ++ requests b.
Proof. apply flat_map_app. Qed.

Variable clock : nat -> Z.
Variable repr : pyval -> string.
Variable title : string -> string.
Variable isoformat : Z -> string.
Variable out : surroundings.

Lemma appends_store (e : event) : calm e = true -> appends (store out e).
Proof.
  intros He. unfold store.
  apply appends_bind; [now apply appends_emit|intros _].
  apply appends_bind; [apply appends_ask|intros answer].
  apply appends_bind; [apply appends_on_engine|intros _].
  destruct (fst answer); [apply appends_pret|apply appends_fail].
Qed.

Lemma appends_send_alert (notifier_config : pyval) (alert : triggered_alert) :
  appends (send_alert repr title out notifier_config alert).
Proof.
  unfold send_alert.
  apply appends_bind; [now apply appends_emit|intros _].
  intros p. destruct (Notifier.send_alert _ _ _ _ _ _) as [o n].
  split; [reflexivity|]. exists []. cbn. now rewrite app_nil_r.
Qed.

Lemma appends_send_alerts (notifier_config : pyval) (alerts : list triggered_alert) :
  appends (send_alerts repr title out notifier_config alerts).
Proof.
  induction alerts as [| alert rest IH]; cbn [send_alerts].
  - apply appends_pret.
  - apply appends_bind; [apply appends_send_alert|intros _].
    apply appends_bind; [now apply appends_store|intros _]. exact IH.
Qed.

(** What follows the request in the body of the loop. *)
Lemma appends_checked (notifier_config name weather_data : pyval) :
  appends
    (pbind (store out (StoreWeather name weather_data)) (fun _ =>
     pbind (on_engine (Service.check_location_alerts clock repr name weather_data))
       (fun triggered_alerts =>
     pbind (send_alerts repr title out notifier_config triggered_alerts) (fun _ =>
     match triggered_alerts with
     | [] => emit (NoAlertsTriggered name)
     | _ => emit (SentAlerts (length triggered_alerts) name)
     end)))).
Proof.
  apply appends_bind; [now apply appends_store|intros _].
  apply appends_bind; [apply appends_on_engine|intros triggered].
  apply appends_bind; [apply appends_send_alerts|intros _].
  destruct triggered; now apply appends_emit.
Qed.

End Appends.

(** ** One location of a poll *)

Section OneLocation.

Import Service Notions.

Variable clock : nat -> Z.
Variable repr : pyval -> string.
Variable title : string -> string.
Variable isoformat : Z -> string.
Variable out : surroundings.

(** The request and what follows it: one request at most, for the
    coordinates given, and calm events. *)
Lemma requested_once {A} (api : WeatherAPI.api) (latitude longitude : pyval)
    (k : pyval -> P A) :
  (forall weather_data, appends (k weather_data)) ->
  forall p,
    world (snd (pbind (get_current_weather clock isoformat out api latitude longitude) k p))
    = world p /\
    exists new,
      events (snd (pbind (get_current_weather clock isoformat out api latitude longitude) k p))
      = events p ++ new /\
      attempts new = [] /\
      requests new
      = if eq_str (WeatherAPI.service api) "openweathermap" then [(latitude, longitude)]
        else [].
Proof.
  intros Hk p. unfold get_current_weather.
  destruct (eq_str (WeatherAPI.service api) "openweathermap").
  - set (rest := fun answer : option pyval =>
                   pbind (match answer with
                          | Some data =>
                              pbind (on_engine (datetime_now clock)) (fun now =>
                                of_result (WeatherAPI.standardized (isoformat now)
                                             latitude longitude data))
                          | None =>
                              pbind (emit ErrorFetching) (fun _ =>
                                fail WeatherAPI.RequestException)
                          end) k).
    assert (Hrest : forall answer, appends (rest answer)).
    { intros [data|]; unfold rest.
      - apply appends_bind; [|exact Hk].
        apply appends_bind; [apply appends_on_engine|intros now; apply appends_of_result].
      - apply appends_bind; [|exact Hk].
        apply appends_bind; [now apply appends_emit|intros _; apply appends_fail]. }
    set (p1 := set_calls (S (calls p))
                 (set_events (events p ++ [Request latitude longitude]) p)).
    assert (Hrun : pbind (pbind (emit (Request latitude longitude)) (fun _ =>
                     pbind (ask (response out)) (fun answer =>
                       match answer with
                       | Some data =>
                           pbind (on_engine (datetime_now clock)) (fun now =>
                             of_result (WeatherAPI.standardized (isoformat now)
                                          latitude longitude data))
                       | None =>
                           pbind (emit ErrorFetching) (fun _ =>
                             fail WeatherAPI.RequestException)
                       end))) k p
                   = rest (response out (calls p)) p1).
    { reflexivity. }
    rewrite Hrun.
    destruct (Hrest (response out (calls p)) p1) as (Hw & new & He & Hcalm).
    split; [exact Hw|]. exists (Request latitude longitude :: new).
    rewrite He. cbn [p1 events set_calls set_events]. rewrite <- app_assoc.
    split; [reflexivity|]. cbn [attempts requests flat_map app].
    fold (attempts new). fold (requests new).
    now rewrite (calm_attempts _ Hcalm), (calm_requests _ Hcalm).
  - unfold pbind, fail. cbn [snd]. split; [reflexivity|]. exists [].
    now rewrite app_nil_r.
Qed.

(** One pass of the loop over a location that is a dict: it cannot
    raise, it starts a check exactly when the location is complete, and
    asks the weather service at most once, for the coordinates of the
    location. *)
Lemma check_location_dict (api : WeatherAPI.api) (notifier_config : pyval)
    (l : list (string * pyval)) (p : process) :
  exists p' new,
    check_location clock repr title isoformat out api notifier_config (VDict l) p
    = (WeatherAPI.Ok tt, p') /\
    world p' = world p /\
    events p' = events p ++ new /\
    attempts new = (if complete (VDict l) then [name_field (VDict l)] else []) /\
    requests new
    = (if complete (VDict l) && eq_str (WeatherAPI.service api) "openweathermap"
       then [coordinates (VDict l)] else []).
Proof.
  unfold check_location. cbn [get1 get WeatherAPI.of_outcome].
  unfold pbind at 1 2 3, of_result at 1 2 3.
  cbn [complete name_field coordinates].
  set (name := item l "name" VNone). set (lat := item l "latitude" VNone).
  set (lon := item l "longitude" VNone).
  destruct (truthy name && truthy lat && truthy lon) eqn:Hcomplete; cbn [negb andb].
  - set (k := fun weather_data : pyval =>
                pbind (store out (StoreWeather name weather_data)) (fun _ =>
                pbind (on_engine (Service.check_location_alerts clock repr name weather_data))
                  (fun triggered_alerts =>
                pbind (send_alerts repr title out notifier_config triggered_alerts) (fun _ =>
                match triggered_alerts with
                | [] => emit (NoAlertsTriggered name)
                | _ => emit (SentAlerts (length triggered_alerts) name)
                end)))).
    assert (Hk : forall weather_data, appends (k weather_data)).
    { intros weather_data. apply appends_checked. }
    set (p1 := set_events (events p ++ [CheckingWeather name]) p).
    destruct (requested_once api lat lon k Hk p1) as (Hw & new & He & Hatt & Hreq).
    unfold try_exception. unfold pbind at 1, emit at 1. fold p1. fold k.
    destruct (pbind (get_current_weather clock isoformat out api lat lon) k p1)
      as [[[]|e] p2] eqn:Hrun; cbn [snd] in *.
    + exists p2, (CheckingWeather name :: new).
      split; [reflexivity|]. split; [exact Hw|].
      rewrite He. cbn [p1 events set_events]. rewrite <- app_assoc.
      split; [reflexivity|]. cbn [attempts requests flat_map app].
      fold (attempts new). fold (requests new). rewrite Hatt, Hreq.
      now destruct (eq_str _ _).
    + eexists. exists (CheckingWeather name :: new ++ [ErrorChecking name e]).
      split; [reflexivity|]. cbn [emit snd world events set_events].
      split; [exact Hw|]. rewrite He. cbn [p1 events set_events].
      rewrite <- !app_assoc. split; [reflexivity|].
      cbn [attempts requests flat_map app].
      fold (attempts (new ++ [ErrorChecking name e])).
      fold (requests (new ++ [ErrorChecking name e])).
      rewrite attempts_app, requests_app, Hatt, Hreq.
      now destruct (eq_str _ _).
  - eexists. exists [SkippingLocation (VDict l)].
    split; [reflexivity|]. cbn. auto.
Qed.

Lemma check_locations_dicts (api : WeatherAPI.api) (notifier_config : pyval)
    (locations : list pyval) :
  forallb is_dict locations = true ->
  forall p, exists p' new,
    check_locations clock repr title isoformat out api notifier_config locations p
    = (WeatherAPI.Ok tt, p') /\
    world p' = world p /\
    events p' = events p ++ new /\
    attempts new = map name_field (List.filter complete locations) /\
    requests new
    = (if eq_str (WeatherAPI.service api) "openweathermap"
       then map coordinates (List.filter complete locations) else []).
Proof.
  induction locations as [| location rest IH]; cbn [forallb]; intros Hdicts p.
  - exists p, []. cbn. rewrite app_nil_r. destruct (eq_str _ _); auto.
  - apply andb_prop in Hdicts as [Hdict Hrest].
    destruct location as [| | | | | | l]; try discriminate Hdict.
    destruct (check_location_dict api notifier_config l p)
      as (p1 & new1 & Hrun1 & Hw1 & He1 & Hatt1 & Hreq1).
    destruct (IH Hrest p1) as (p2 & new2 & Hrun2 & Hw2 & He2 & Hatt2 & Hreq2).
    exists p2, (new1 ++ new2). cbn [check_locations]. unfold pbind at 1.
    rewrite Hrun1. split; [exact Hrun2|]. split; [congruence|].
    split; [rewrite He2, He1; symmetry; apply app_assoc|].
    rewrite attempts_app, requests_app, Hatt1, Hatt2, Hreq1, Hreq2.
    cbn [List.filter]. destruct (complete (VDict l)); cbn [andb map app]; [|auto].
    destruct (eq_str _ _); auto.
Qed.

End OneLocation.

(** ** The objects of a poll *)

Section Initialize.

Import Service Notions.

Variable out : surroundings.

(** A checker that could be built has listed the names of the
    locations: they can be iterated and are dicts. *)
Lemma init_listable (st st' : state) (config : pyval) :
  config_file st = Normal config ->
  __init__ st = (Normal tt, st') ->
  AlertChecker.config st' = config /\ alert_history st' = ∅ /\ ticks st' = ticks st /\
  exists locations,
    obind (get config "locations" (VList [])) iter = Normal locations /\
    forallb is_dict locations = true.
Proof.
  intros Hfile. unfold __init__, _load_config, try_except, bind, lift, logger, ret, raise.
  rewrite Hfile.
  destruct (get config "locations" (VList [])) as [container|e1]; cbn [obind].
  - destruct (iter container) as [locations|e2].
    + destruct (map_outcome (fun loc => get1 loc "name") locations) as [names|e3] eqn:Hnames.
      * intros H; inversion H; subst st'. cbn.
        split; [reflexivity|]. split; [reflexivity|]. split; [reflexivity|].
        exists locations. split; [reflexivity|].
        destruct (forallb is_dict locations) eqn:Hdicts; [reflexivity|].
        rewrite (names_of_others _ Hdicts) in Hnames. discriminate.
      * destruct e3; intros H; inversion H.
    + destruct e2; intros H; inversion H.
  - destruct e1; intros H; inversion H.
Qed.

Lemma initialize_frame (config : pyval) (p : process) :
  world (snd (initialize out config p)) = world p /\
  events (snd (initialize out config p)) = events p.
Proof.
  unfold initialize, pbind, of_result, ask, on_engine, pret, fail.
  destruct (WeatherAPI.of_outcome (get config "api" (VDict []))) as [api_config|e];
    [|auto].
  destruct (WeatherAPI.__init__ _ _ api_config) as [api|e]; [|auto].
  cbn [engine set_engine world].
  destruct (__init__ (with_file (Cli.file (world p)) (engine p))) as [[[]|e] st]; cbn; [|auto].
  destruct (Cli.file (world p)); cbn; [|auto].
  destruct (opens_database out (calls p)); auto.
Qed.

Lemma initialize_ok (config : pyval) (p p2 : process) (api : WeatherAPI.api)
    (notifier_config : pyval) :
  Cli.file (world p) = Normal config ->
  initialize out config p = (WeatherAPI.Ok (api, notifier_config), p2) ->
  AlertChecker.config (engine p2) = config /\
  alert_history (engine p2) = ∅ /\
  notifier_config = config /\
  exists locations,
    obind (get config "locations" (VList [])) iter = Normal locations /\
    forallb is_dict locations = true.
Proof.
  intros Hfile. unfold initialize, pbind, of_result, ask, on_engine, pret, fail.
  destruct (WeatherAPI.of_outcome (get config "api" (VDict []))) as [api_config|e];
    [|discriminate].
  destruct (WeatherAPI.__init__ _ _ api_config) as [api'|e]; [|discriminate].
  cbn [engine set_engine world]. rewrite Hfile.
  destruct (__init__ (with_file (Normal config) (engine p))) as [[[]|e] st] eqn:Hinit;
    cbn; [|discriminate].
  rewrite Hfile. cbn [WeatherAPI.of_outcome].
  destruct (opens_database out (calls p)); [|discriminate].
  intros H; inversion H; subst. cbn.
  destruct (init_listable (with_file (Normal notifier_config) (engine p)) st notifier_config
              eq_refl Hinit) as (Hc & Hh & _ & Hlist).
  auto.
Qed.

End Initialize.

(** ** A poll *)

Section Poll.

Import Service Notions.

Variable clock : nat -> Z.
Variable repr : pyval -> string.
Variable title : string -> string.
Variable isoformat : Z -> string.
Variable out : surroundings.

Lemma set_world_same (p : process) : set_world (world p) p = p.
Proof. now destruct p. Qed.

(** A poll whose [load_config] returns. *)
Lemma check_now_loaded (p : process) (config : pyval) (w : Cli.world) :
  opens_log out (calls p) = true ->
  Cli.load_config (world p) = (Cli.Returned config, w) ->
  exists p' new,
    check_now clock repr title isoformat out p = (Returned, p') /\
    world p' = w /\
    events p' = events p ++ new /\
    ((exists e, new = [InitializationError e]) \/
     exists locations,
       obind (get config "locations" (VList [])) iter = Normal locations /\
       attempts new = map name_field (List.filter complete locations) /\
       (requests new = map coordinates (List.filter complete locations) \/
        requests new = [])).
Proof.
  intros Hlog Hload. unfold check_now, setup_logging, pbind at 1, ask at 1.
  rewrite Hlog. unfold pret at 1.
  set (p0 := set_calls (S (calls p)) p).
  unfold load_config. cbn [world p0 set_calls]. rewrite Hload.
  set (p1 := set_world w p0).
  assert (Hfile : Cli.file (world p1) = Normal config)
    by exact (load_config_returned _ _ _ Hload).
  pose proof (initialize_frame out config p1) as [Hw He].
  destruct (initialize out config p1) as [[[api notifier_config]|e] p2] eqn:Hinit;
    cbn [snd] in *.
  - destruct (initialize_ok out config p1 p2 api notifier_config Hfile Hinit)
      as (_ & _ & _ & locations & Hlocs & Hdicts).
    rewrite Hlocs. cbn [WeatherAPI.of_outcome]. unfold pbind at 1, of_result at 1.
    destruct (check_locations_dicts clock repr title isoformat out api notifier_config
                locations Hdicts p2) as (p3 & new & Hrun & Hw3 & He3 & Hatt & Hreq).
    rewrite Hrun. exists p3, new. cbn [finish].
    split; [reflexivity|]. split; [now rewrite Hw3, Hw|]. split; [now rewrite He3, He|].
    right. exists locations. split; [reflexivity|]. split; [exact Hatt|].
    destruct (eq_str _ _); auto.
  - eexists. exists [InitializationError e]. cbn [finish emit snd].
    split; [reflexivity|]. cbn [world events set_events].
    split; [exact Hw|]. split; [now rewrite He|]. left. eauto.
Qed.

(** X18. A poll does not raise.  When the log file can be opened and
    the configuration file is there, or missing, or cannot be decoded,
    [check_now] returns, or leaves by [sys.exit(1)] if the file cannot
    be decoded: no content of the configuration and no answer of the
    weather service, the database or the notifier makes it raise.  The
    loop over the locations stands outside every [try], but it is
    reached only after the checker has listed the names of the same
    locations. *)
Theorem check_now_never_raises (p : process) :
  opens_log out (calls p) = true ->
  (forall e, Cli.file (world p) = Raise e -> e = FileNotFoundError \/ e = JSONDecodeError) ->
  fst (check_now clock repr title isoformat out p)
  = match Cli.file (world p) with
    | Raise JSONDecodeError => Exited 1
    | _ => Returned
    end.
Proof.
  intros Hlog Hfile.
  destruct (Cli.file (world p)) as [config|e] eqn:Hf.
  - destruct (check_now_loaded p config (world p) Hlog (load_config_normal _ _ Hf))
      as (p' & new & -> & _). reflexivity.
  - destruct (Hfile e eq_refl) as [-> | ->].
    + assert (Hload : Cli.load_config (world p)
                      = (Cli.Returned Cli.default_config,
                         Cli.print [Cli.CreatedDefaultConfiguration;
                                    Cli.PleaseEditConfiguration]
                           (Cli.write Cli.default_config (world p)))).
      { unfold Cli.load_config. now rewrite Hf. }
      destruct (check_now_loaded p _ _ Hlog Hload) as (p' & new & -> & _). reflexivity.
    + unfold check_now, setup_logging, pbind at 1, ask at 1. rewrite Hlog.
      unfold pret at 1, load_config, Cli.load_config. cbn [world set_calls].
      rewrite Hf. reflexivity.
Qed.

(** X19. A poll that finds a configuration either stops at the
    initialisation, or starts a check for every complete location, in
    the configured order and whatever fails on the way, and for no
    other; it asks the weather service once for each of them, with its
    coordinates, or not at all.  A location whose latitude or longitude
    is 0 is not complete: it is never asked about. *)
Theorem poll_checks_complete_locations (p : process) (config : pyval) :
  opens_log out (calls p) = true ->
  Cli.file (world p) = Normal config ->
  exists new,
    events (snd (check_now clock repr title isoformat out p)) = events p ++ new /\
    ((exists e, new = [InitializationError e]) \/
     exists locations,
       obind (get config "locations" (VList [])) iter = Normal locations /\
       attempts new = map name_field (List.filter complete locations) /\
       (requests new = map coordinates (List.filter complete locations) \/
        requests new = [])).
Proof.
  intros Hlog Hfile.
  destruct (check_now_loaded p config (world p) Hlog (load_config_normal _ _ Hfile))
    as (p' & new & -> & _ & He & Hnew).
  exists new. split; [exact He|exact Hnew].
Qed.

End Poll.

(** * Properties of the snapshots the client builds *)

Section Snapshots.

Import Spec Notions.

Lemma block_dict d (name : string) (fields : list string) :
  block_ok d name fields = true ->
  exists b, item d name (VDict []) = VDict b /\
            forallb (fun f => optional_number (item b f VNone)) fields = true.
Proof.
  unfold block_ok. destruct (item d name (VDict [])); try discriminate. eauto.
Qed.

(** The snapshot built from a response of the expected shape. *)
Lemma standardized_run (timestamp : string) (latitude longitude : pyval) d :
  response_ok (VDict d) = true ->
  exists weather,
    WeatherAPI.standardized timestamp latitude longitude (VDict d)
    = WeatherAPI.Ok
        (VDict
           [("timestamp", VStr timestamp);
            ("location",
             VDict [("name", item d "name" (VStr "Unknown")); ("latitude", latitude);
                    ("longitude", longitude)]);
            ("temperature",
             VDict [("current", response_reading (VDict d) "main" "temp" VNone);
                    ("feels_like", response_reading (VDict d) "main" "feels_like" VNone);
                    ("min", response_reading (VDict d) "main" "temp_min" VNone);
                    ("max", response_reading (VDict d) "main" "temp_max" VNone)]);
            ("humidity", response_reading (VDict d) "main" "humidity" VNone);
            ("pressure", response_reading (VDict d) "main" "pressure" VNone);
            ("wind",
             VDict [("speed", response_reading (VDict d) "wind" "speed" VNone);
                    ("direction", response_reading (VDict d) "wind" "deg" VNone)]);
            ("clouds", response_reading (VDict d) "clouds" "all" VNone);
            ("precipitation",
             VDict [("rain", response_reading (VDict d) "rain" "1h" (VInt 0));
                    ("snow", response_reading (VDict d) "snow" "1h" (VInt 0))]);
            ("weather", weather)]).
Proof.
  cbn [response_ok]. intros H.
  apply andb_prop in H as [H Hweather]. apply andb_prop in H as [H Hprecip].
  apply andb_prop in H as [H Hclouds]. apply andb_prop in H as [Hmain Hwind].
  destruct (block_dict _ _ _ Hmain) as (m & Em & _).
  destruct (block_dict _ _ _ Hwind) as (w & Ew & _).
  destruct (block_dict _ _ _ Hclouds) as (cl & Ecl & _).
  destruct (item d "rain" (VDict [])) as [| | | | | |r] eqn:Er; try discriminate Hprecip.
  destruct (item d "snow" (VDict [])) as [| | | | | |s] eqn:Es; try discriminate Hprecip.
  destruct (item d "weather" (VList [VDict []])) as [| | | | |[|[| | | | | |x] ?]|] eqn:Ex;
    try discriminate Hweather.
  eexists.
  unfold WeatherAPI.standardized, WeatherAPI.reading, WeatherAPI.description, response_reading.
  cbn [get get1 WeatherAPI.of_outcome WeatherAPI.rbind].
  rewrite Em, Ew, Ecl, Er, Es, Ex.
  cbn [get get1 WeatherAPI.of_outcome WeatherAPI.rbind WeatherAPI.first_item].
  reflexivity.
Qed.

(** The snapshot built from a response of the expected shape has the
    shape the engine expects. *)
Lemma standardized_shape (timestamp : string) (latitude longitude data : pyval) :
  response_ok data = true ->
  exists snapshot,
    WeatherAPI.standardized timestamp latitude longitude data = WeatherAPI.Ok snapshot /\
    snapshot_ok snapshot = true.
Proof.
  intros Hok. destruct data as [| | | | | |d]; try discriminate Hok.
  destruct (standardized_run timestamp latitude longitude d Hok) as [weather Hrun].
  eexists. split; [exact Hrun|].
  cbn [response_ok] in Hok.
  apply andb_prop in Hok as [H Hweather]. apply andb_prop in H as [H Hprecip].
  apply andb_prop in H as [H Hclouds]. apply andb_prop in H as [Hmain Hwind].
  destruct (block_dict _ _ _ Hmain) as (m & Em & Hm).
  destruct (block_dict _ _ _ Hwind) as (w & Ew & Hw).
  destruct (block_dict _ _ _ Hclouds) as (cl & Ecl & Hcl).
  destruct (item d "rain" (VDict [])) as [| | | | | |r] eqn:Er; try discriminate Hprecip.
  destruct (item d "snow" (VDict [])) as [| | | | | |s] eqn:Es; try discriminate Hprecip.
  apply andb_prop in Hprecip as [Hprecip Hsum]. apply andb_prop in Hprecip as [Hrain Hsnow].
  cbn [forallb] in Hm, Hw, Hcl.
  apply andb_prop in Hm as [Htemp Hm]. apply andb_prop in Hm as [Hfeels Hm].
  apply andb_prop in Hm as [Hhum Hm]. apply andb_prop in Hm as [Hpress _].
  apply andb_prop in Hw as [Hspeed _]. apply andb_prop in Hcl as [Hall _].
  unfold response_reading. rewrite Em, Ew, Ecl, Er, Es.
  unfold snapshot_ok, block_ok, precipitation_ok.
  change (item _ "temperature" (VDict []))
    with (VDict [("current", item m "temp" VNone); ("feels_like", item m "feels_like" VNone);
                 ("min", item m "temp_min" VNone); ("max", item m "temp_max" VNone)]).
  change (item _ "humidity" VNone) with (item m "humidity" VNone).
  change (item _ "pressure" VNone) with (item m "pressure" VNone).
  change (item _ "wind" (VDict []))
    with (VDict [("speed", item w "speed" VNone); ("direction", item w "deg" VNone)]).
  change (item _ "clouds" VNone) with (item cl "all" VNone).
  change (item _ "precipitation" (VDict []))
    with (VDict [("rain", item r "1h" (VInt 0)); ("snow", item s "1h" (VInt 0))]).
  cbn [forallb].
  change (item _ "current" VNone) with (item m "temp" VNone).
  change (item [("current", _); _; _; _] "feels_like" VNone)
    with (item m "feels_like" VNone).
  change (item [("speed", _); _] "speed" VNone) with (item w "speed" VNone).
  change (item [("rain", _); _] "rain" (VInt 0)) with (item r "1h" (VInt 0)).
  change (item [("rain", _); _] "snow" (VInt 0)) with (item s "1h" (VInt 0)).
  rewrite Htemp, Hfeels, Hhum, Hpress, Hspeed, Hall, Hrain, Hsnow, Hsum. reflexivity.
Qed.

(** X20. The snapshot the client builds from a response of the expected
    shape is one the engine can evaluate: it has the shape under which
    no extraction raises, and for each condition of the enumeration the
    engine extracts from it the reading of the response that stands
    behind the condition; 'rain' and 'snow' are 0 when the response has
    no such block, and 'precipitation' is their sum. *)
Theorem built_snapshot_reads_response (timestamp : string) (latitude longitude data : pyval) :
  response_ok data = true ->
  exists snapshot,
    WeatherAPI.standardized timestamp latitude longitude data = WeatherAPI.Ok snapshot /\
    snapshot_ok snapshot = true /\
    (forall (condition block key : string) (default : pyval) st,
       source condition = Some (block, key, default) ->
       _get_condition_value snapshot (VStr condition) st
       = (Normal (response_reading data block key default), st)) /\
    (forall st,
       fst (_get_condition_value snapshot (VStr "precipitation") st)
       = Normal (match add (response_reading data "rain" "1h" (VInt 0))
                           (response_reading data "snow" "1h" (VInt 0)) with
                 | Normal total => total
                 | Raise _ => VNone
                 end)).
Proof.
  intros Hok. destruct data as [| | | | | |d]; try discriminate Hok.
  destruct (standardized_run timestamp latitude longitude d Hok) as [weather Hrun].
  eexists. split; [exact Hrun|].
  pose proof Hok as Hok'. cbn [response_ok] in Hok.
  apply andb_prop in Hok as [H Hweather]. apply andb_prop in H as [H Hprecip].
  apply andb_prop in H as [H Hclouds]. apply andb_prop in H as [Hmain Hwind].
  destruct (block_dict _ _ _ Hmain) as (m & Em & Hm).
  destruct (block_dict _ _ _ Hwind) as (w & Ew & Hw).
  destruct (block_dict _ _ _ Hclouds) as (cl & Ecl & Hcl).
  destruct (item d "rain" (VDict [])) as [| | | | | |r] eqn:Er; try discriminate Hprecip.
  destruct (item d "snow" (VDict [])) as [| | | | | |s] eqn:Es; try discriminate Hprecip.
  apply andb_prop in Hprecip as [Hprecip Hsum]. apply andb_prop in Hprecip as [Hrain Hsnow].
  cbn [forallb] in Hm, Hw, Hcl.
  apply andb_prop in Hm as [Htemp Hm]. apply andb_prop in Hm as [Hfeels Hm].
  apply andb_prop in Hm as [Hhum Hm]. apply andb_prop in Hm as [Hpress _].
  apply andb_prop in Hw as [Hspeed _]. apply andb_prop in Hcl as [Hall _].
  unfold response_reading. rewrite Em, Ew, Ecl, Er, Es.
  split; [|split].
  - destruct (standardized_shape timestamp latitude longitude (VDict d) Hok')
      as (snapshot' & Hrun' & Hshape).
    rewrite Hrun in Hrun'. inversion Hrun' as [Hsame]. rewrite <- Hsame in Hshape.
    revert Hshape. unfold response_reading. now rewrite Em, Ew, Ecl, Er, Es.
  - intros condition block key default st. unfold source.
    repeat match goal with
    | |- (if String.eqb condition ?c then _ else _) = _ -> _ =>
        let E := fresh "E" in
        destruct (String.eqb condition c) eqn:E;
        [apply String.eqb_eq in E; subst condition;
         intros Hs; inversion Hs; subst; rewrite ?Em, ?Ew, ?Ecl, ?Er, ?Es; reflexivity
        |clear E]
    end.
    discriminate.
  - intros st.
    unfold _get_condition_value, try_except, bind, lift.
    change (eq_str (VStr "precipitation") "temperature") with false.
    change (eq_str (VStr "precipitation") "feels_like") with false.
    change (eq_str (VStr "precipitation") "humidity") with false.
    change (eq_str (VStr "precipitation") "pressure") with false.
    change (eq_str (VStr "precipitation") "wind") with false.
    change (eq_str (VStr "precipitation") "clouds") with false.
    change (eq_str (VStr "precipitation") "precipitation") with true.
    cbv iota.
    change (get _ "precipitation" (VDict []))
      with (Normal (VDict [("rain", item r "1h" (VInt 0)); ("snow", item s "1h" (VInt 0))])).
    cbv iota beta.
    change (get (VDict [("rain", item r "1h" (VInt 0)); ("snow", item s "1h" (VInt 0))])
              "rain" (VInt 0)) with (Normal (item r "1h" (VInt 0))).
    change (get (VDict [("rain", item r "1h" (VInt 0)); ("snow", item s "1h" (VInt 0))])
              "snow" (VInt 0)) with (Normal (item s "1h" (VInt 0))).
    cbv iota beta.
    destruct (optional_number_add _ _ Hrain Hsnow) as [(total & Hadd & _)|[Hadd|Hadd]].
    + rewrite Hadd. reflexivity.
    + exfalso. revert Hsum. now rewrite Hadd.
    + rewrite Hadd. reflexivity.
Qed.

End Snapshots.

(** * The cooldown and the polls of the service *)

Section FreshChecker.

Import Spec Notions.

Variable clock : nat -> Z.
Variable repr : pyval -> string.

Lemma item_string l (key name : string) (default : pyval) :
  item l key VNone = VStr name -> item l key default = VStr name.
Proof.
  unfold item. destruct (assoc key l); [auto|discriminate].
Qed.

(** On a checker without history whose quiet hours are switched off,
    the first rule of the first location fires when its test holds. *)
Lemma first_rule_fires (name : string) (latitude longitude c o t snapshot : pyval)
    (enabled start_str end_str : pyval) (st : state) :
  config_ok (config st) = true ->
  quiet_hours_setting (config st) enabled start_str end_str ->
  truthy enabled = false ->
  first_rule (config st) name latitude longitude c o t ->
  alert_history st = ∅ ->
  snapshot_ok snapshot = true ->
  (forall st0, fst (_check_condition snapshot c o t st0) = Normal true) ->
  exists a more st',
    check_location_alerts clock repr name snapshot st = (Normal (a :: more), st') /\
    location a = name /\ condition a = c /\ threshold a = t.
Proof.
  intros Hok Hquiet Hoff (d & l & rest & r & rules & Hd & Hlocs & Hname & _ & _ & _ &
                           Halerts & Hc & Ho & Ht) Hhist Hsnap Htest.
  rewrite Hd in Hok. cbn [config_ok] in Hok. apply andb_prop in Hok as [_ Hshape].
  rewrite Hlocs in Hshape. pose proof Hshape as Hnamed.
  cbn [forallb] in Hshape. apply andb_prop in Hshape as [Hloc _].
  cbn [location_ok] in Hloc. apply andb_prop in Hloc as [_ Hrules].
  rewrite Halerts in Hrules. cbn [forallb] in Hrules. apply andb_prop in Hrules as [_ Hrules].
  assert (Hall : Forall (fun loc => is_Some (name_of loc)) (VDict l :: rest)).
  { apply List.Forall_forall. intros loc Hin. apply location_ok_named.
    rewrite forallb_forall in Hnamed. now apply Hnamed. }
  unfold check_location_alerts, check_location_alerts_ids.
  unfold bind at 1 2. rewrite (is_quiet_hours_disabled clock st _ _ _ Hquiet Hoff).
  unfold check_configured_alerts.
  unfold bind at 1, logger at 1.
  set (st1 := set_log (log st ++ [(DEBUG, LookingForLocation name)]) st).
  unfold bind at 1, get_config at 1. change (config st1) with (config st). rewrite Hd.
  unfold bind at 1, lift at 1. cbn [get]. rewrite Hlocs.
  unfold bind at 1, lift at 1. cbn [iter].
  destruct (find_location_resolve name (VDict l :: rest) Hall st1) as [lines Hfind].
  assert (Hres : resolve name (VDict l :: rest) = Some (VDict l)).
  { cbn [resolve]. unfold name_of. cbn [get].
    rewrite (item_string _ _ _ (VStr "") Hname).
    unfold names_match. now rewrite String.eqb_refl. }
  rewrite Hres in Hfind. cbv [default from_option id] in Hfind.
  unfold bind at 1. rewrite Hfind.
  assert (Htruthy : truthy (VDict l) = true).
  { destruct l; [discriminate Hname|reflexivity]. }
  rewrite Htruthy. cbn [negb].
  unfold bind at 1, lift at 1. cbn [get]. rewrite Halerts.
  unfold bind at 1, lift at 1. cbn [iter].
  set (st2 := set_log (log st1 ++ lines) st1).
  cbn [check_alerts].
  destruct (_check_condition snapshot c o t st2) as [out st3] eqn:Hcheck.
  pose proof (Htest st2) as Htrue. rewrite Hcheck in Htrue. cbn in Htrue. subst out.
  destruct (check_alert_matched clock repr name snapshot (VDict r) c o t st2 st3)
    as (message & value & lines2 & Hget & Hh3 & _ & Hrun);
    [now rewrite <- Hc|now rewrite <- Ho|now rewrite <- Ht|exact Hcheck|].
  unfold bind at 1. rewrite Hrun.
  rewrite (trigger_run clock repr name snapshot c o t message _ _ Hget st3). cbv zeta.
  rewrite Hh3. change (alert_history st2) with (alert_history st). rewrite Hhist.
  rewrite lookup_empty. unfold bind at 1.
  match goal with
  | |- context [check_alerts clock repr name snapshot rules ?s] =>
      destruct (check_alerts_returns clock repr name snapshot rules Hsnap Hrules s)
        as (more & st4 & Hmore)
  end.
  rewrite Hmore. unfold ret.
  eexists. eexists. eexists. split; [reflexivity|]. cbn. auto.
Qed.

End FreshChecker.

Section EveryPoll.

Import Spec Service Notions.

Variable clock : nat -> Z.
Variable repr : pyval -> string.
Variable title : string -> string.
Variable isoformat : Z -> string.
Variable out : surroundings.

Lemma pbind_ok {A B} (c : P A) (k : A -> P B) (p p' : process) (a : A) :
  c p = (WeatherAPI.Ok a, p') -> pbind c k p = k a p'.
Proof. intros H. unfold pbind. now rewrite H. Qed.

(** What a step of the poll leaves as it was: the file and the output,
    the configuration and the history of the checker. *)
Lemma init_returns (config : pyval) (st : state) :
  config_ok config = true -> config_file st = Normal config ->
  exists st', __init__ st = (Normal tt, st').
Proof.
  intros Hok Hfile.
  destruct config as [| | | | | |d]; try discriminate Hok.
  cbn [config_ok] in Hok. apply andb_prop in Hok as [_ Hlocs].
  destruct (item d "locations" (VList [])) as [| | | | |locations|] eqn:Hitem;
    try discriminate Hlocs.
  assert (Hdicts : forallb is_dict locations = true).
  { rewrite forallb_forall in *. intros loc Hin. specialize (Hlocs loc Hin).
    now destruct loc. }
  destruct (names_of_dicts locations Hdicts) as [names Hnames].
  unfold __init__, _load_config, try_except, bind, lift, logger, ret.
  rewrite Hfile. cbn [get]. rewrite Hitem. cbn [iter]. rewrite Hnames. eauto.
Qed.

Lemma initialize_cooperative (config : pyval) (good : pyval -> Prop) (p : process) :
  cooperative out good ->
  Cli.file (world p) = Normal config ->
  config_ok config = true ->
  uses_openweathermap config = true ->
  exists api p2,
    initialize out config p = (WeatherAPI.Ok (api, config), p2) /\
    eq_str (WeatherAPI.service api) "openweathermap" = true /\
    world p2 = world p /\ events p2 = events p /\
    AlertChecker.config (engine p2) = config /\ alert_history (engine p2) = ∅.
Proof.
  intros ((key & Hkey & Hne) & _ & Hdb & _) Hfile Hok Huses.
  destruct (init_returns config (with_file (Normal config) (engine p)) Hok eq_refl)
    as [st Hinit].
  destruct (init_listable (with_file (Normal config) (engine p)) st config eq_refl Hinit)
    as (Hc & Hh & _).
  destruct config as [| | | | | |d]; try discriminate Huses.
  cbn [uses_openweathermap] in Huses.
  destruct (item d "api" (VDict [])) as [| | | | | |a] eqn:Hapi; try discriminate Huses.
  eexists. eexists.
  unfold initialize. cbn [get WeatherAPI.of_outcome]. rewrite Hapi.
  unfold pbind at 1, of_result at 1. unfold pbind at 1.
  unfold WeatherAPI.__init__. cbn [get WeatherAPI.of_outcome WeatherAPI.rbind].
  rewrite Hkey. apply String.eqb_neq in Hne. rewrite Hne.
  cbn [WeatherAPI.rbind]. rewrite Hne.
  unfold pbind at 1. cbn [world set_engine engine]. rewrite Hfile.
  unfold pbind at 1, on_engine at 1. cbn [engine set_engine]. rewrite Hinit.
  cbn [WeatherAPI.of_outcome]. unfold pbind at 1. cbn [world set_engine WeatherAPI.of_outcome].
  rewrite Hfile. cbn [WeatherAPI.of_outcome]. unfold pbind at 1, ask at 1.
  rewrite Hdb. unfold pret.
  split; [reflexivity|]. cbn. auto.
Qed.

Lemma try_bind_ok {A B} (c : P A) (k : A -> P B) (h : WeatherAPI.error -> P B)
    (p p' : process) (a : A) :
  c p = (WeatherAPI.Ok a, p') ->
  try_exception (pbind c k) h p = try_exception (k a) h p'.
Proof. intros H. unfold try_exception, pbind. now rewrite H. Qed.

(** The request, when the weather service answers. *)
Lemma get_current_weather_answered (api : WeatherAPI.api) (latitude longitude data : pyval)
    (p : process) :
  eq_str (WeatherAPI.service api) "openweathermap" = true ->
  response out (calls p) = Some data ->
  response_ok data = true ->
  exists snapshot timestamp p',
    get_current_weather clock isoformat out api latitude longitude p
    = (WeatherAPI.Ok snapshot, p') /\
    WeatherAPI.standardized timestamp latitude longitude data = WeatherAPI.Ok snapshot /\
    snapshot_ok snapshot = true /\
    world p' = world p /\ events p' = events p ++ [Request latitude longitude] /\
    calls p' = S (calls p) /\
    AlertChecker.config (engine p') = AlertChecker.config (engine p) /\
    alert_history (engine p') = alert_history (engine p).
Proof.
  intros Hservice Hdata Hgood.
  destruct (standardized_shape (isoformat (clock (ticks (engine p)))) latitude longitude data
              Hgood) as (snapshot & Hbuilt & Hshape).
  exists snapshot, (isoformat (clock (ticks (engine p)))). eexists.
  unfold get_current_weather. rewrite Hservice.
  unfold pbind at 1 2, emit at 1. unfold pbind at 1, ask at 1.
  cbn [calls set_events]. rewrite Hdata.
  unfold on_engine at 1, datetime_now at 1.
  cbn [engine set_calls set_events WeatherAPI.of_outcome]. unfold of_result at 1.
  rewrite Hbuilt. split; [reflexivity|]. split; [reflexivity|]. split; [exact Hshape|].
  cbn. auto 10.
Qed.

(** A method of the database that returns. *)
Lemma store_returns (e : event) (p : process) :
  fst (database out (calls p)) = true ->
  exists p',
    store out e p = (WeatherAPI.Ok tt, p') /\
    world p' = world p /\ events p' = events p ++ [e] /\
    AlertChecker.config (engine p') = AlertChecker.config (engine p) /\
    alert_history (engine p') = alert_history (engine p).
Proof.
  intros Hstore. eexists. unfold store, pbind, emit, ask, on_engine.
  cbn [calls engine set_engine set_calls set_events WeatherAPI.of_outcome].
  rewrite Hstore. unfold pret. split; [reflexivity|]. cbn. auto.
Qed.

(** The alerts of a location, the first of them at least, are handed to
    the notifier, and the pass of the loop ends without raising. *)
Lemma alerts_are_sent {A} (notifier_config name : pyval) (a : triggered_alert)
    (more : list triggered_alert) (k : P A) (h : WeatherAPI.error -> P A) (p : process) :
  appends k -> (forall e, appends (h e)) ->
  exists new,
    world (snd (try_exception
                  (pbind (send_alerts repr title out notifier_config (a :: more))
                         (fun _ => k)) h p)) = world p /\
    events (snd (try_exception
                   (pbind (send_alerts repr title out notifier_config (a :: more))
                          (fun _ => k)) h p))
    = events p ++ SendAlert a :: new.
Proof.
  intros Hk Hh.
  set (rest := fun q : process =>
         match Notifier.send_alert repr title (shows out) notifier_config a (calls q) with
         | (o, n) => (WeatherAPI.of_outcome o, set_calls n q)
         end).
  assert (Hrest : appends rest).
  { intros q. unfold rest. destruct (Notifier.send_alert _ _ _ _ _ _) as [o n].
    split; [reflexivity|]. exists []. cbn. now rewrite app_nil_r. }
  set (c := pbind rest (fun _ : bool =>
              pbind (pbind (store out (StoreAlert a)) (fun _ =>
                            send_alerts repr title out notifier_config more))
                    (fun _ => k))).
  assert (Hc : appends (try_exception c h)).
  { apply appends_try; [|exact Hh]. unfold c.
    apply appends_bind; [exact Hrest|intros _].
    apply appends_bind; [|intros _; exact Hk].
    apply appends_bind; [now apply appends_store|intros _; apply appends_send_alerts]. }
  set (p1 := set_events (events p ++ [SendAlert a]) p).
  assert (Hrun : try_exception
                   (pbind (send_alerts repr title out notifier_config (a :: more))
                          (fun _ => k)) h p
                 = try_exception c h p1).
  { unfold try_exception, c, rest. cbn [send_alerts]. unfold send_alert, pbind, emit.
    fold p1.
    destruct (Notifier.send_alert repr title (shows out) notifier_config a (calls p1))
      as [[b|e] n]; cbn [WeatherAPI.of_outcome]; [|reflexivity].
    destruct (store out (StoreAlert a) (set_calls n p1)) as [[[]|e] p3]; reflexivity. }
  rewrite Hrun. destruct (Hc p1) as (Hw & new & He & _).
  exists new. split; [exact Hw|]. rewrite He. cbn [p1 events set_events].
  now rewrite <- app_assoc.
Qed.

(** The alert of the first rule is sent by the pass of the loop over the
    first location. *)
Lemma first_location_sends (api : WeatherAPI.api) (config : pyval) (name : string)
    (latitude longitude c o t enabled start_str end_str : pyval) (l : list (string * pyval))
    (p : process) :
  cooperative out (fun data => response_ok data = true /\
                               triggers latitude longitude c o t data) ->
  eq_str (WeatherAPI.service api) "openweathermap" = true ->
  AlertChecker.config (engine p) = config ->
  alert_history (engine p) = ∅ ->
  config_ok config = true ->
  quiet_hours_setting config enabled start_str end_str ->
  truthy enabled = false ->
  first_rule config name latitude longitude c o t ->
  item l "name" VNone = VStr name ->
  item l "latitude" VNone = latitude ->
  item l "longitude" VNone = longitude ->
  exists p' new,
    check_location clock repr title isoformat out api config (VDict l) p
    = (WeatherAPI.Ok tt, p') /\
    world p' = world p /\ events p' = events p ++ new /\ sends name c t new.
Proof.
  intros (_ & _ & _ & Hresp & Hstore & _) Hservice Hconfig Hhist Hok Hquiet Hoff Hrule
    Hname Hlat Hlon.
  pose proof Hrule as (d0 & l0 & rest0 & r0 & rules0 & _ & _ & _ & _ & _ & Hcomplete & _).
  destruct (check_location_dict clock repr title isoformat out api config l p)
    as (p' & new & Hrun & Hw & He & _).
  exists p', new. split; [exact Hrun|]. split; [exact Hw|]. split; [exact He|].
  (* the events of the pass, traced up to the first alert *)
  assert (Hnew : events p' = events p ++ new) by exact He.
  revert Hrun. unfold check_location. cbn [get1 get WeatherAPI.of_outcome].
  unfold pbind at 1 2 3, of_result at 1 2 3.
  rewrite Hname, Hlat, Hlon, Hcomplete. cbn [negb].
  rewrite (try_bind_ok (emit (CheckingWeather (VStr name))) _ _ p _ tt eq_refl).
  set (p1 := set_events (events p ++ [CheckingWeather (VStr name)]) p).
  destruct (Hresp (calls p1)) as (data & Hdata & Hgood & Htriggers).
  destruct (get_current_weather_answered api latitude longitude data p1 Hservice Hdata Hgood)
    as (snapshot & timestamp & p2 & Hgcw & Hbuilt & Hshape & Hw2 & He2 & Hcalls2 & Hc2 & Hh2).
  rewrite (try_bind_ok _ _ _ p1 _ _ Hgcw).
  destruct (store_returns (StoreWeather (VStr name) snapshot) p2 (Hstore _))
    as (p3 & Hst & Hw3 & He3 & Hc3 & Hh3).
  rewrite (try_bind_ok _ _ _ p2 _ _ Hst).
  destruct (first_rule_fires clock repr name latitude longitude c o t snapshot
              enabled start_str end_str (engine p3))
    as (a & more & st' & Hfired & Ha1 & Ha2 & Ha3).
  { rewrite Hc3, Hc2. cbn. now rewrite Hconfig. }
  { rewrite Hc3, Hc2. cbn. now rewrite Hconfig. }
  { exact Hoff. }
  { rewrite Hc3, Hc2. cbn. now rewrite Hconfig. }
  { rewrite Hh3, Hh2. exact Hhist. }
  { exact Hshape. }
  { intros st0. exact (Htriggers _ _ st0 Hbuilt). }
  assert (Heng : on_engine (Service.check_location_alerts clock repr (VStr name) snapshot) p3
                 = (WeatherAPI.Ok (a :: more), set_engine st' p3)).
  { unfold on_engine. cbn [Service.check_location_alerts]. now rewrite Hfired. }
  rewrite (try_bind_ok _ _ _ p3 _ _ Heng).
  set (p4 := set_engine st' p3).
  destruct (alerts_are_sent config (VStr name) a more
              (emit (SentAlerts (length (a :: more)) (VStr name)))
              (fun e => emit (ErrorChecking (VStr name) e)) p4)
    as (tail & _ & Htail).
  { now apply appends_emit. }
  { intros e. now apply appends_emit. }
  intros Hrun. rewrite Hrun in Htail. cbn [snd] in Htail.
  exists a. split; [|auto].
  rewrite Hnew in Htail. cbn [p4 events set_engine] in Htail.
  rewrite He3, He2 in Htail. cbn [p1 events set_events] in Htail.
  rewrite <- !app_assoc in Htail. apply app_inv_head in Htail. rewrite Htail.
  cbn. auto.
Qed.

Section Rule.

Variables (config : pyval) (name : string) (latitude longitude c o t : pyval).
Variables (enabled start_str end_str : pyval).

Hypothesis Hcooperative :
  cooperative out (fun data => response_ok data = true /\
                               triggers latitude longitude c o t data).
Hypothesis Hok : config_ok config = true.
Hypothesis Huses : uses_openweathermap config = true.
Hypothesis Hquiet : quiet_hours_setting config enabled start_str end_str.
Hypothesis Hoff : truthy enabled = false.
Hypothesis Hrule : first_rule config name latitude longitude c o t.

(** A poll sends the alert of the first rule, whatever the process has
    done before. *)
Lemma poll_sends (p : process) :
  Cli.file (world p) = Normal config ->
  exists p' new,
    check_now clock repr title isoformat out p = (Returned, p') /\
    world p' = world p /\ events p' = events p ++ new /\ sends name c t new.
Proof.
  intros Hfile.
  pose proof Hcooperative as (_ & Hlog & _).
  pose proof Hrule as (d & l & rest & r & rules & Hd & Hlocs & Hname & Hlat & Hlon & _).
  unfold check_now, setup_logging, pbind at 1, ask at 1.
  rewrite Hlog. unfold pret at 1.
  set (p0 := set_calls (S (calls p)) p).
  unfold load_config. cbn [world p0 set_calls].
  rewrite (load_config_normal _ _ Hfile).
  replace (set_world (world p) p0) with p0 by now destruct p.
  destruct (initialize_cooperative config _ p0 Hcooperative Hfile Hok Huses)
    as (api & p2 & Hinit & Hservice & Hw2 & He2 & Hc2 & Hh2).
  rewrite Hinit.
  assert (Hiter : obind (get config "locations" (VList [])) iter
                  = Normal (VDict l :: rest)).
  { rewrite Hd. cbn [get obind]. now rewrite Hlocs. }
  rewrite Hiter. cbn [WeatherAPI.of_outcome]. unfold pbind at 1, of_result at 1.
  cbn [check_locations].
  destruct (first_location_sends api config name latitude longitude c o t
              enabled start_str end_str l p2 Hcooperative Hservice Hc2 Hh2 Hok Hquiet Hoff
              Hrule Hname Hlat Hlon)
    as (p3 & new1 & Hfirst & Hw3 & He3 & Hsends).
  unfold pbind at 1. rewrite Hfirst.
  assert (Hdicts : forallb is_dict rest = true).
  { pose proof Hok as Hshape. rewrite Hd in Hshape. cbn [config_ok] in Hshape.
    apply andb_prop in Hshape as [_ Hshape]. rewrite Hlocs in Hshape.
    cbn [forallb] in Hshape. apply andb_prop in Hshape as [_ Hshape].
    rewrite forallb_forall in *. intros loc Hin. specialize (Hshape loc Hin).
    now destruct loc. }
  destruct (check_locations_dicts clock repr title isoformat out api config rest Hdicts p3)
    as (p4 & new2 & Hrest & Hw4 & He4 & _).
  rewrite Hrest. cbn [finish]. exists p4, (new1 ++ new2).
  split; [reflexivity|]. split; [now rewrite Hw4, Hw3, Hw2|].
  split.
  - rewrite He4, He3, He2. cbn [p0 events set_calls]. now rewrite app_assoc.
  - destruct Hsends as (a & Hin & Ha). exists a. split; [|exact Ha].
    apply in_or_app. now left.
Qed.

(** The loop of the service: every round sends the alert. *)
Lemma polls_send (check_interval : pyval) (fuel : nat) (p : process) :
  Cli.file (world p) = Normal config ->
  exists rounds p',
    polls clock repr title isoformat out fuel check_interval p = (None, p') /\
    length rounds = fuel /\
    events p'
    = events p ++ flat_map (fun new => new ++ [NextCheck check_interval]) rounds /\
    Forall (sends name c t) rounds.
Proof.
  revert p. induction fuel as [| fuel IH]; intros p Hfile.
  - exists [], p. cbn. rewrite app_nil_r. auto.
  - destruct (poll_sends p Hfile) as (p1 & new & Hpoll & Hw1 & He1 & Hsends).
    cbn [polls]. rewrite Hpoll.
    pose proof Hcooperative as (_ & _ & _ & _ & _ & Hsleeps).
    unfold pbind at 1, emit at 1. unfold ask at 1. cbn [calls set_events]. rewrite Hsleeps.
    set (p2 := set_calls (S (calls p1))
                 (set_events (events p1 ++ [NextCheck check_interval]) p1)).
    destruct (IH p2) as (rounds & p' & Hrun & Hlen & He & Hall).
    { cbn. now rewrite Hw1. }
    exists (new :: rounds), p'. split; [exact Hrun|]. split; [cbn; now rewrite Hlen|].
    split; [|now constructor].
    rewrite He. cbn [p2 events set_calls set_events flat_map]. rewrite He1.
    now rewrite <- !app_assoc.
Qed.

(** X21. The cooldown does not reach from one poll of the service to
    the next, since every poll builds a new checker.  With surroundings
    that cooperate, quiet hours switched off and a first rule of the
    first location whose test holds on every response, each round of
    the loop of [run_service] sends the alert of that rule, whatever
    the clock says: after [fuel] rounds the service is still running
    and has sent it [fuel] times at least. *)
Theorem service_alerts_at_every_poll (fuel : nat) (p : process) :
  Cli.file (world p) = Normal config ->
  exists check_interval rounds p',
    run_service clock repr title isoformat out fuel p = (None, p') /\
    length rounds = fuel /\
    events p'
    = events p ++ StartingService check_interval
                  :: flat_map (fun new => new ++ [NextCheck check_interval]) rounds /\
    Forall (sends name c t) rounds.
Proof.
  intros Hfile.
  pose proof Hcooperative as (_ & Hlog & _).
  destruct Hquiet as (preferences & quiet_hours & Hprefs & Hq & _).
  assert (Hinterval : exists check_interval,
            obind (get config "preferences" (VDict []))
                  (fun preferences => get preferences "check_interval_minutes" (VInt 30))
            = Normal check_interval).
  { rewrite Hprefs. cbn [obind]. destruct preferences; try discriminate Hq.
    cbn [get]. eauto. }
  destruct Hinterval as [check_interval Hinterval]. exists check_interval.
  unfold run_service, setup_logging, pbind at 1, ask at 1.
  rewrite Hlog. unfold pret at 1.
  set (p0 := set_calls (S (calls p)) p).
  unfold load_config. cbn [world p0 set_calls].
  rewrite (load_config_normal _ _ Hfile).
  replace (set_world (world p) p0) with p0 by now destruct p.
  rewrite Hinterval.
  destruct (polls_send check_interval fuel
              (snd (emit (StartingService check_interval) p0)))
    as (rounds & p' & Hrun & Hlen & He & Hall).
  { cbn. exact Hfile. }
  exists rounds, p'. split; [exact Hrun|]. split; [exact Hlen|]. split; [|exact Hall].
  rewrite He. cbn [emit snd events set_events p0 set_calls]. now rewrite <- app_assoc.
Qed.

End Rule.

End EveryPoll.

Lemma check_now_never_raises_witness :
  fst (Service.check_now (Sample.clock_from 8 0) Sample.repr_any Notions.title_any
         Notions.isoformat_any (Notions.fair (Notions.reply 125))
         (Notions.started (VDict [("locations", VList [VInt 3])])))
  = Service.Returned.
Proof.
  apply (check_now_never_raises (Sample.clock_from 8 0) Sample.repr_any Notions.title_any
           Notions.isoformat_any (Notions.fair (Notions.reply 125))
           (Notions.started (VDict [("locations", VList [VInt 3])]))).
  - reflexivity.
  - intros e H. discriminate H.
Defined.

Lemma poll_checks_complete_locations_witness :
  let config :=
    VDict [("locations",
            VList [VDict [("name", VStr "Quito"); ("latitude", VFloat (S754_zero false));
                          ("longitude", Sample.flt (-157) (-1))];
                   Sample.place "Springfield" []])] in
  let p := Notions.started config in
  exists new,
    Service.events
      (snd (Service.check_now (Sample.clock_from 8 0) Sample.repr_any Notions.title_any
              Notions.isoformat_any (Notions.fair (Notions.reply 125)) p))
    = Service.events p ++ new /\
    ((exists e, new = [Service.InitializationError e]) \/
     exists locations,
       obind (get config "locations" (VList [])) iter = Normal locations /\
       Notions.attempts new = map Notions.name_field (List.filter Notions.complete locations) /\
       (Notions.requests new
        = map Notions.coordinates (List.filter Notions.complete locations) \/
        Notions.requests new = [])).
Proof.
  intros config p.
  apply (poll_checks_complete_locations (Sample.clock_from 8 0) Sample.repr_any
           Notions.title_any Notions.isoformat_any (Notions.fair (Notions.reply 125))
           p config).
  - reflexivity.
  - reflexivity.
Defined.

Lemma built_snapshot_reads_response_witness :
  exists snapshot,
    WeatherAPI.standardized "2024-07-01T08:00:00" (VInt 1) (VInt 2) (Notions.reply 125)
    = WeatherAPI.Ok snapshot /\
    Spec.snapshot_ok snapshot = true /\
    (forall (condition block key : string) (default : pyval) st,
       Notions.source condition = Some (block, key, default) ->
       _get_condition_value snapshot (VStr condition) st
       = (Normal (Notions.response_reading (Notions.reply 125) block key default), st)) /\
    (forall st,
       fst (_get_condition_value snapshot (VStr "precipitation") st)
       = Normal (match add (Notions.response_reading (Notions.reply 125) "rain" "1h" (VInt 0))
                           (Notions.response_reading (Notions.reply 125) "snow" "1h" (VInt 0))
                 with
                 | Normal total => total
                 | Raise _ => VNone
                 end)).
Proof.
  apply (built_snapshot_reads_response "2024-07-01T08:00:00" (VInt 1) (VInt 2)
           (Notions.reply 125)).
  reflexivity.
Defined.

Lemma service_alerts_at_every_poll_witness :
  exists check_interval rounds p',
    Service.run_service (Sample.clock_from 8 0) Sample.repr_any Notions.title_any
      Notions.isoformat_any (Notions.fair (Notions.reply 125)) 3
      (Notions.started Sample.springfield) = (None, p') /\
    length rounds = 3%nat /\
    Service.events p'
    = Service.events (Notions.started Sample.springfield)
      ++ Service.StartingService check_interval
         :: flat_map (fun new => new ++ [Service.NextCheck check_interval]) rounds /\
    Forall (Notions.sends "Springfield" (VStr "temperature") (VInt 30)) rounds.
Proof.
  apply (service_alerts_at_every_poll (Sample.clock_from 8 0) Sample.repr_any
           Notions.title_any Notions.isoformat_any (Notions.fair (Notions.reply 125))
           Sample.springfield "Springfield" (Sample.flt 159 (-2)) (Sample.flt (-179) (-1))
           (VStr "temperature") (VStr "above") (VInt 30)
           (VBool false) (VStr "22:00") (VStr "07:00")).
  - split; [exists "key"; split; [reflexivity|discriminate]|].
    split; [reflexivity|]. split; [reflexivity|].
    split; [|split; reflexivity].
    intros n. exists (Notions.reply 125). split; [reflexivity|]. split; [reflexivity|].
    intros timestamp snapshot st Hbuilt. vm_compute in Hbuilt.
    inversion Hbuilt. reflexivity.
  - reflexivity.
  - reflexivity.
  - eexists. eexists. split; [reflexivity|]. split; [reflexivity|].
    split; [reflexivity|]. split; reflexivity.
  - reflexivity.
  - eexists. eexists. eexists. eexists. eexists.
    split; [reflexivity|]. split; [reflexivity|]. split; [reflexivity|].
    split; [reflexivity|]. split; [reflexivity|]. split; [reflexivity|].
    split; [reflexivity|]. split; [reflexivity|]. split; reflexivity.
  - reflexivity.
Defined.
